(** * The Euresys eGrabber camera adapter (src/src/euresys.egrabber.cpp)

    A shallow embedding of the adapter: the [EGCamera] object, the SDK it
    drives, the methods [set], [get], [get_meta], [get_shape], [start],
    [stop], [execute_trigger] and [get_frame], its constructor and
    destructor, the driver's [device_count], [describe], [open] and [close],
    the exception-catching entry points [eecam_*], and the properties of the
    adapter's specification that concern them.

    Conventions.
    - C++ [float] is IEEE binary32, [double] is binary64; both are values of
      [spec_float], with the operations of [SpecFloat] at the right precision.
    - [uint8_t], [uint32_t], [uint64_t], [size_t] and [int64_t] are [Z], the
      wrap-around written out where the code converts.
    - A method that throws is a computation whose outcome is [Throw]; the
      state it leaves behind is the state at the throw.
    - A [Trigger] carries the content of its padding bytes, which [memcmp]
      compares.
    - The per-instance mutex is not modelled: methods run one at a time. *)

From Stdlib Require Import ZArith List Bool Lia.
From Stdlib Require Import Floats.SpecFloat.
From stdpp Require Import base strings gmap.

Open Scope Z_scope.

(** ** Binary32 and binary64 values *)

Module f32.

Definition prec : Z := 24.
Definition emax : Z := 128.

(** [(float)z] for an integer [z]: round to nearest, ties to even. *)
Definition of_int (z : Z) : spec_float := binary_normalize prec emax z 0 false.

(** [(float)d] for a double [d]. *)
Definition of_double (d : spec_float) : spec_float :=
  match d with
  | S754_finite s m e => binary_round prec emax s m e
  | _ => d
  end.

(** The promotion of a float to double, which is exact. *)
Definition to_double (f : spec_float) : spec_float :=
  match f with
  | S754_finite s m e => binary_round 53 1024 s m e
  | _ => f
  end.

Definition sub : spec_float -> spec_float -> spec_float := SFsub prec emax.
Definition fabsf : spec_float -> spec_float := SFabs.
Definition lt : spec_float -> spec_float -> bool := SFltb.

(** Truncation toward zero. *)
Definition trunc (f : spec_float) : Z :=
  match f with
  | S754_finite s m e =>
      cond_Zopp s
        (match e with
         | Z0 => Zpos m
         | Zpos _ => Zpos m * 2 ^ e
         | Zneg p => Zpos m / 2 ^ Zpos p
         end)
  | _ => 0
  end.

(** [static_cast<T>(f)] for an unsigned [T] of [w] bits. C++ defines it
    when the truncated value fits [T]; outside that the model keeps the low
    [w] bits of the truncated value. *)
Definition to_unsigned (w : Z) (f : spec_float) : Z := trunc f mod 2 ^ w.

(** The double nearest to the literal [1e-9]. *)
Definition lit_1e_9 : spec_float := S754_finite false 4835703278458517 (-82).

End f32.

Abbreviation float := spec_float.
Abbreviation double := spec_float.

Definition uint8_t (z : Z) : Z := z mod 2 ^ 8.
Definition uint32_t (z : Z) : Z := z mod 2 ^ 32.
Definition uint64_t (z : Z) : Z := z mod 2 ^ 64.

(** ** Property types (device/props/camera.h, device/props/components.h) *)

(** Modelled from the spec: the enum [SampleType] is declared in
    device/props/components.h, which is not among the sources. The spec
    gives "a fixed set of sample encodings, plus Unknown"; the code names
    [SampleType_u8], [_u10], [_u12], [_u14], [_u16], [SampleTypeCount] and
    [SampleType_Unknown] and orders values against [SampleTypeCount]. *)
Inductive SampleType : Type :=
| SampleType_u8
| SampleType_u16
| SampleType_i8
| SampleType_i16
| SampleType_f32
| SampleType_u10
| SampleType_u12
| SampleType_u14
| SampleTypeCount
| SampleType_Unknown.

(** The enumerators' integer values, in declaration order. *)
Definition SampleType_value (t : SampleType) : Z :=
  match t with
  | SampleType_u8 => 0
  | SampleType_u16 => 1
  | SampleType_i8 => 2
  | SampleType_i16 => 3
  | SampleType_f32 => 4
  | SampleType_u10 => 5
  | SampleType_u12 => 6
  | SampleType_u14 => 7
  | SampleTypeCount => 8
  | SampleType_Unknown => 9
  end.

(** Modelled from the spec: the enum [TriggerEdge] of components.h, with the
    members the spec lists. The code indexes a two-entry table with it and
    reports "must be Rising (0) or Falling (1)", so these two come first. *)
Inductive TriggerEdge : Type :=
| TriggerEdge_Rising
| TriggerEdge_Falling
| TriggerEdge_AnyEdge
| TriggerEdge_LevelHigh
| TriggerEdge_LevelLow
| TriggerEdge_Unknown.

Definition TriggerEdge_value (e : TriggerEdge) : Z :=
  match e with
  | TriggerEdge_Rising => 0
  | TriggerEdge_Falling => 1
  | TriggerEdge_AnyEdge => 2
  | TriggerEdge_LevelHigh => 3
  | TriggerEdge_LevelLow => 4
  | TriggerEdge_Unknown => 5
  end.

Inductive SignalIOKind : Type := Signal_Input | Signal_Output.

#[global] Instance SampleType_eq_dec : EqDecision SampleType.
Proof. solve_decision. Defined.
#[global] Instance TriggerEdge_eq_dec : EqDecision TriggerEdge.
Proof. solve_decision. Defined.
#[global] Instance SignalIOKind_eq_dec : EqDecision SignalIOKind.
Proof. solve_decision. Defined.

(** Modelled from the spec: [struct Trigger] of components.h; [enable] and
    [line] are [uint8_t], unsigned, hence in [N]. [kind] and [edge] are
    enums, aligned to four bytes, so that two bytes of padding lie between
    [line] and [kind]: no field access reads or writes them, an assignment
    of the whole struct copies them, and [memcmp] compares them. [padding]
    is their content. *)
Record Trigger : Type := mkTrigger {
  enable : N;
  line : N;
  padding : N;
  kind : SignalIOKind;
  edge : TriggerEdge
}.

#[global] Instance Trigger_eq_dec : EqDecision Trigger.
Proof. solve_decision. Defined.

Record offset_s : Type := mkOffset { offset_x : Z; offset_y : Z }.
Record shape_s : Type := mkShape { shape_x : Z; shape_y : Z }.

(** Modelled from the spec: [struct CameraProperties] of camera.h, with the
    fields of the spec's data model; the only trigger the adapter touches is
    [input_triggers.frame_start]. *)
Record CameraProperties : Type := mkCameraProperties {
  exposure_time_us : float;
  binning : Z;
  pixel_type : SampleType;
  offset : offset_s;
  shape : shape_s;
  frame_start : Trigger
}.

Inductive PropertyType : Type :=
| PropertyType_FixedPrecision
| PropertyType_FloatingPrecision.

Record Property : Type := mkProperty {
  writable : bool;
  low : float;
  high : float;
  type : PropertyType
}.

Record trigger_caps : Type := mkTriggerCaps { input : Z; output : Z }.
Record digital_lines_s : Type := mkDigitalLines { line_count : Z; names : list string }.

(** Modelled from the spec: [struct CameraPropertyMetadata] of camera.h. *)
Record CameraPropertyMetadata : Type := mkMeta {
  meta_exposure_time_us : Property;
  meta_line_interval_us : Property;
  meta_readout_direction : Property;
  meta_binning : Property;
  meta_offset_x : Property;
  meta_offset_y : Property;
  meta_shape_x : Property;
  meta_shape_y : Property;
  supported_pixel_types : Z;
  triggers_frame_start : trigger_caps;
  digital_lines : digital_lines_s
}.

Record dims_s : Type := mkDims { channels : Z; width : Z; height : Z; planes : Z }.

(** Modelled from the spec: [struct ImageShape] and [struct ImageInfo]. *)
Record ImageShape : Type := mkImageShape {
  dims : dims_s;
  strides : dims_s;
  shape_type : SampleType
}.

Record ImageInfo : Type := mkImageInfo {
  info_shape : ImageShape;
  hardware_timestamp : Z;
  hardware_frame_id : Z
}.

Inductive DeviceStatusCode : Type := Device_Ok | Device_Err.

(** ** The SDK *)

(** The names the SDK's [query] namespace builds, and plain feature names. *)
Inductive query : Type :=
| feature (name : string)
| query_info (name what : string)
| query_writeable (name : string)
| query_enumEntries (name : string).

(** The calls on the grabber that change the device or the buffer pool. *)
Inductive sdk_call : Type :=
| setFloat (name : string) (v : float)
| setInteger (name : string) (v : Z)
| setString (name : string) (v : string)
| execute (name : string)
| reallocBuffers (n : Z)
| grabber_start
| grabber_stop
| cancelPop.

(** What [ScopedBuffer::getInfo] reports about a delivered frame. [base] is
    [None] for a null pointer and the frame's bytes otherwise. *)
Record buffer_info : Type := mkBufferInfo {
  buf_timestamp_ns : Z;
  buf_height : Z;
  buf_base : option (list Z);
  buf_size : Z;
  buf_deliveredHeight : Z;
  buf_width : Z;
  buf_pixelFormat : string
}.

(** [Euresys::EGrabber], [Euresys::ScopedBuffer] and the discovery classes,
    as the adapter uses them. A result of [None] is a thrown SDK exception. *)
Class EGrabberSDK : Type := {
  Grabber : Type;
  sdk_do : Grabber -> sdk_call -> option Grabber;
  getFloat : Grabber -> query -> option double;
  getInteger : Grabber -> query -> option Z;
  getString : Grabber -> query -> option string;
  getStringList : Grabber -> query -> option (list string);
  getWidth : Grabber -> option Z;
  getHeight : Grabber -> option Z;
  (** construct a [ScopedBuffer]: wait for and take the next frame *)
  pop : Grabber -> option (buffer_info * Grabber);
  (** destroy it: hand the frame back to the pool *)
  push : Grabber -> Grabber;
  GenTL : Type;
  (** [EGrabberDiscovery(gentl).discover()] followed by [cameraCount()] *)
  discover_cameraCount : GenTL -> option Z
}.

(** ** Object representation

    [is_equal] compares two [Trigger] objects with [memcmp], which sees
    their padding bytes. An object initialised from a braced list has them
    as the implementation leaves them: the language gives them no value.
    [get] builds two such objects, the local [dflt] and the temporary it
    assigns in the [switch]; the content of their padding is a parameter of
    the model. *)
Class Representation : Type := {
  dflt_padding : N;
  temporary_padding : N
}.

(** ** Exceptions *)

(** The expressions guarded by [EXPECT] and [CHECK]. *)
Inductive expectation : Type :=
| expect_self
| expect_exposure_unit_us
| expect_px_type_lt_count
| expect_trigger_line_lt_2
| expect_trigger_edge_lt_2
| expect_trigger_enable_lt_2
| expect_nbytes_ge_size
| expect_buf_base.

Inductive exn : Type :=
| runtime_error (e : expectation)
| out_of_range
| sdk_exception.

Inductive ErrorKind : Type :=
| ValidationError
| HardwareQueryError
| HardwareCommandError
| CapacityError.

(** Modelled from the spec: the error taxonomy of the spec's section 7. The
    code throws [std::runtime_error] from every failed [EXPECT]; the kind is
    read off the expression that failed. *)
Definition error_kind (e : exn) : ErrorKind :=
  match e with
  | runtime_error expect_exposure_unit_us => HardwareQueryError
  | runtime_error expect_nbytes_ge_size => CapacityError
  | runtime_error _ => ValidationError
  | out_of_range => ValidationError
  | sdk_exception => HardwareCommandError
  end.

Inductive outcome (A : Type) : Type :=
| Ok (a : A)
| Throw (e : exn).
Arguments Ok {A} a.
Arguments Throw {A} e.

(** ** The adapter object and its methods *)

Section Adapter.

Context `{SDK : EGrabberSDK} `{REP : Representation}.

(** [struct EGCamera]. The lookup tables are constants, defined below. *)
Record EGCamera : Type := mkEGCamera {
  grabber_ : Grabber;
  last_known_settings_ : CameraProperties;
  last_known_capabilities_ : CameraPropertyMetadata;
  frame_id_ : Z
}.

Definition with_grabber (g : Grabber) (c : EGCamera) : EGCamera :=
  mkEGCamera g (last_known_settings_ c) (last_known_capabilities_ c) (frame_id_ c).
Definition with_settings (p : CameraProperties) (c : EGCamera) : EGCamera :=
  mkEGCamera (grabber_ c) p (last_known_capabilities_ c) (frame_id_ c).
Definition with_capabilities (m : CameraPropertyMetadata) (c : EGCamera) : EGCamera :=
  mkEGCamera (grabber_ c) (last_known_settings_ c) m (frame_id_ c).
Definition with_frame_id (n : Z) (c : EGCamera) : EGCamera :=
  mkEGCamera (grabber_ c) (last_known_settings_ c) (last_known_capabilities_ c) n.

(** The result of running a method: how it ended, the object and the memory
    behind the method's pointer argument as it left them, and the SDK calls
    it issued, oldest first (a call that throws is listed too). *)
Record Res (X A : Type) : Type := mkRes {
  result : outcome A;
  self' : EGCamera;
  arg' : X;
  calls : list sdk_call
}.
Arguments mkRes {X A} _ _ _ _.
Arguments result {X A} _.
Arguments self' {X A} _.
Arguments arg' {X A} _.
Arguments calls {X A} _.

(** A computation over the object and the pointee of type [X]. *)
Definition M (X A : Type) : Type := EGCamera -> X -> Res X A.

Definition ret {X A} (a : A) : M X A := fun c x => mkRes (Ok a) c x [].

Definition bind {X A B} (m : M X A) (f : A -> M X B) : M X B :=
  fun c x =>
    let r := m c x in
    match result r with
    | Ok a =>
        let r2 := f a (self' r) (arg' r) in
        mkRes (result r2) (self' r2) (arg' r2) (calls r ++ calls r2)
    | Throw e => mkRes (Throw e) (self' r) (arg' r) (calls r)
    end.

#[global] Instance M_ret {X} : MRet (M X) := fun A => @ret X A.
#[global] Instance M_bind {X} : MBind (M X) := fun A B f m => @bind X A B m f.

Definition throw {X A} (e : exn) : M X A := fun c x => mkRes (Throw e) c x [].

Definition self {X} : M X EGCamera := fun c x => mkRes (Ok c) c x [].
Definition arg {X} : M X X := fun c x => mkRes (Ok x) c x [].
Definition update_self {X} (f : EGCamera -> EGCamera) : M X unit :=
  fun c x => mkRes (Ok tt) (f c) x [].
Definition update_arg {X} (f : X -> X) : M X unit :=
  fun c x => mkRes (Ok tt) c (f x) [].

(** [EXPECT(e, ...)] and [CHECK(e)]. *)
Definition EXPECT {X} (b : bool) (e : expectation) : M X unit :=
  if b then ret tt else throw (runtime_error e).

(** A state-changing call on [grabber_]. *)
Definition grabber_call {X} (k : sdk_call) : M X unit :=
  fun c x =>
    match sdk_do (grabber_ c) k with
    | Some g => mkRes (Ok tt) (with_grabber g c) x [k]
    | None => mkRes (Throw sdk_exception) c x [k]
    end.

(** A read on [grabber_]. *)
Definition grabber_read {X A} (rd : Grabber -> option A) : M X A :=
  fun c x =>
    match rd (grabber_ c) with
    | Some a => mkRes (Ok a) c x []
    | None => mkRes (Throw sdk_exception) c x []
    end.

(** *** Lookup tables *)

Definition px_type_table_ : gmap string SampleType :=
  list_to_map
    [ ("Mono8", SampleType_u8); ("Mono10", SampleType_u10);
      ("Mono12", SampleType_u12); ("Mono14", SampleType_u14);
      ("Mono16", SampleType_u16) ]%string.

(** [px_type_inv_table_], keyed by the enumerator. *)
Definition px_type_inv_table_ (t : SampleType) : option string :=
  match t with
  | SampleType_u8 => Some "Mono8"
  | SampleType_u10 => Some "Mono10"
  | SampleType_u12 => Some "Mono12"
  | SampleType_u14 => Some "Mono14"
  | SampleType_u16 => Some "Mono16"
  | _ => None
  end%string.

Definition trig_edge_table_ : gmap string TriggerEdge :=
  list_to_map
    [ ("RisingEdge", TriggerEdge_Rising); ("FallingEdge", TriggerEdge_Falling);
      ("AnyEdge", TriggerEdge_AnyEdge); ("LevelHigh", TriggerEdge_LevelHigh);
      ("LevelLow", TriggerEdge_LevelLow) ]%string.

Inductive TrigSrc : Type := Trig_Line0 | Trig_Software | Trig_Unknown.

Definition TrigSrc_value (s : TrigSrc) : Z :=
  match s with Trig_Line0 => 0 | Trig_Software => 1 | Trig_Unknown => 2 end.

Definition trig_src_table_ : gmap string TrigSrc :=
  list_to_map [ ("Line0", Trig_Line0); ("Software", Trig_Software) ]%string.

Definition at_or {V} (table : gmap string V) (key : string) (dflt : V) : V :=
  match table !! key with
  | None => dflt
  | Some v => v
  end.

(** *** Settings *)

Definition NBUFFERS : Z := 16.

(** [template<typename T> clamp(T val, float low, float high)], with the
    conversions of [T] to and from [float] as arguments. *)
Definition clamp {T} (to_float : T -> float) (static_cast : float -> T)
    (val : T) (low high : float) : T :=
  let fval := to_float val in
  if f32.lt fval low then static_cast low
  else if f32.lt high fval then static_cast high
  else val.

Definition clamp_float : float -> float -> float -> float := clamp id id.
Definition clamp_uint8 : Z -> float -> float -> Z := clamp f32.of_int (f32.to_unsigned 8).
Definition clamp_uint32 : Z -> float -> float -> Z := clamp f32.of_int (f32.to_unsigned 32).

(** [fabsf(target_us - last_value_us) > 1e-9]: the difference and its
    absolute value are floats, the comparison is in double. *)
Definition exposure_changed (target_us last_value_us : float) : bool :=
  f32.lt f32.lit_1e_9 (f32.to_double (f32.fabsf (f32.sub target_us last_value_us))).

Definition maybe_set_exposure_time_us_ {X} (target_us last_value_us : float) : M X float :=
  if exposure_changed target_us last_value_us then
    c ← self;
    let target_us :=
      clamp_float target_us
        (low (meta_exposure_time_us (last_known_capabilities_ c)))
        (high (meta_exposure_time_us (last_known_capabilities_ c))) in
    grabber_call (setFloat "ExposureTime" target_us);;
    mret target_us
  else mret last_value_us.

Definition maybe_set_binning {X} (target last_value : Z) : M X Z :=
  if negb (target =? last_value) then
    c ← self;
    let target :=
      clamp_uint8 target
        (low (meta_binning (last_known_capabilities_ c)))
        (high (meta_binning (last_known_capabilities_ c))) in
    (if writable (meta_binning (last_known_capabilities_ c)) then
       grabber_call (setInteger "BinningHorizontal" target);;
       grabber_call (setInteger "BinningVertical" target)
     else mret tt);;
    mret target
  else mret last_value.

Definition maybe_set_px_type {X} (target last_known : SampleType) : M X SampleType :=
  EXPECT (SampleType_value target <? SampleType_value SampleTypeCount)
    expect_px_type_lt_count;;
  if negb (bool_decide (target = last_known)) then
    match px_type_inv_table_ target with
    | Some name =>
        grabber_call (setString "PixelFormat" name);;
        mret target
    | None => throw out_of_range
    end
  else mret last_known.

Definition maybe_set_offset {X} (target last : offset_s) : M X offset_s :=
  last ←
    (if negb (offset_x target =? offset_x last) then
       c ← self;
       let tx :=
         clamp_uint32 (offset_x target)
           (low (meta_offset_x (last_known_capabilities_ c)))
           (high (meta_offset_x (last_known_capabilities_ c))) in
       grabber_call (setInteger "OffsetX" tx);;
       mret (mkOffset tx (offset_y last))
     else mret last);
  if negb (offset_y target =? offset_y last) then
    c ← self;
    let ty :=
      clamp_uint32 (offset_y target)
        (low (meta_offset_y (last_known_capabilities_ c)))
        (high (meta_offset_y (last_known_capabilities_ c))) in
    grabber_call (setInteger "OffsetY" ty);;
    mret (mkOffset (offset_x last) ty)
  else mret last.

Definition maybe_set_shape {X} (target last : shape_s) : M X shape_s :=
  last ←
    (if negb (shape_x target =? shape_x last) then
       c ← self;
       let tx :=
         clamp_uint32 (shape_x target)
           (low (meta_shape_x (last_known_capabilities_ c)))
           (high (meta_shape_x (last_known_capabilities_ c))) in
       grabber_call (setInteger "Width" tx);;
       mret (mkShape tx (shape_y last))
     else mret last);
  if negb (shape_y target =? shape_y last) then
    c ← self;
    let ty :=
      clamp_uint32 (shape_y target)
        (low (meta_shape_y (last_known_capabilities_ c)))
        (high (meta_shape_y (last_known_capabilities_ c))) in
    grabber_call (setInteger "Height" ty);;
    mret (mkShape (shape_x last) ty)
  else mret last.

(** [memcmp(&lhs, &rhs, sizeof(Trigger)) == 0]: every byte of the two
    objects agrees, the padding bytes included. *)
Definition is_equal (lhs rhs : Trigger) : bool := bool_decide (lhs = rhs).

(** The three local arrays of [maybe_set_trigger], and indexing into them
    (the indices are checked before use). *)
Definition sources : list string := ["Line0"; "Software"]%string.
Definition modes : list string := ["Off"; "On"]%string.
Definition activations : list string := ["RisingEdge"; "FallingEdge"]%string.
Definition index (a : list string) (i : N) : string := nth (N.to_nat i) a EmptyString.

Definition with_frame_start (t : Trigger) (p : CameraProperties) : CameraProperties :=
  mkCameraProperties (exposure_time_us p) (binning p) (pixel_type p) (offset p) (shape p) t.
Definition with_kind (k : SignalIOKind) (t : Trigger) : Trigger :=
  mkTrigger (enable t) (line t) (padding t) k (edge t).

(** [maybe_set_trigger(Trigger& target, const Trigger& last)]; [target] is
    [properties->input_triggers.frame_start], the pointee's field. *)
Definition maybe_set_trigger (last : Trigger) : M CameraProperties unit :=
  properties ← arg;
  let target := frame_start properties in
  if is_equal target last then mret tt
  else
    EXPECT (line target <? 2)%N expect_trigger_line_lt_2;;
    EXPECT (TriggerEdge_value (edge target) <? 2) expect_trigger_edge_lt_2;;
    EXPECT (enable target <? 2)%N expect_trigger_enable_lt_2;;
    update_arg (with_frame_start (with_kind Signal_Input target));;
    grabber_call (setString "TriggerSource" (index sources (line target)));;
    grabber_call (setString "TriggerMode" (index modes (enable target)));;
    grabber_call (setString "TriggerActivation"
                    (index activations (Z.to_N (TriggerEdge_value (edge target))))).

Definition set_exposure_time_us (v : float) (p : CameraProperties) : CameraProperties :=
  mkCameraProperties v (binning p) (pixel_type p) (offset p) (shape p) (frame_start p).
Definition set_binning (v : Z) (p : CameraProperties) : CameraProperties :=
  mkCameraProperties (exposure_time_us p) v (pixel_type p) (offset p) (shape p) (frame_start p).
Definition set_pixel_type (v : SampleType) (p : CameraProperties) : CameraProperties :=
  mkCameraProperties (exposure_time_us p) (binning p) v (offset p) (shape p) (frame_start p).
Definition set_offset (v : offset_s) (p : CameraProperties) : CameraProperties :=
  mkCameraProperties (exposure_time_us p) (binning p) (pixel_type p) v (shape p) (frame_start p).
Definition set_shape (v : shape_s) (p : CameraProperties) : CameraProperties :=
  mkCameraProperties (exposure_time_us p) (binning p) (pixel_type p) (offset p) v (frame_start p).

Definition update_settings {X} (f : CameraProperties -> CameraProperties) : M X unit :=
  update_self (fun c => with_settings (f (last_known_settings_ c)) c).

(** [EGCamera::set(CameraProperties* properties)]. *)
Definition set : M CameraProperties unit :=
  properties ← arg;
  c ← self;
  v ← maybe_set_exposure_time_us_ (exposure_time_us properties)
        (exposure_time_us (last_known_settings_ c));
  update_settings (set_exposure_time_us v);;
  c ← self;
  v ← maybe_set_binning (binning properties) (binning (last_known_settings_ c));
  update_settings (set_binning v);;
  c ← self;
  v ← maybe_set_px_type (pixel_type properties) (pixel_type (last_known_settings_ c));
  update_settings (set_pixel_type v);;
  c ← self;
  v ← maybe_set_offset (offset properties) (offset (last_known_settings_ c));
  update_settings (set_offset v);;
  c ← self;
  v ← maybe_set_shape (shape properties) (shape (last_known_settings_ c));
  update_settings (set_shape v);;
  c ← self;
  maybe_set_trigger (frame_start (last_known_settings_ c));;
  grabber_call (reallocBuffers NBUFFERS).

(** *** Capabilities *)

Definition bool_of_int (z : Z) : bool := negb (z =? 0).

Definition set_meta_exposure_time_us (v : Property) (m : CameraPropertyMetadata) :=
  mkMeta v (meta_line_interval_us m) (meta_readout_direction m) (meta_binning m)
    (meta_offset_x m) (meta_offset_y m) (meta_shape_x m) (meta_shape_y m)
    (supported_pixel_types m) (triggers_frame_start m) (digital_lines m).
Definition set_meta_line_interval_us (v : Property) (m : CameraPropertyMetadata) :=
  mkMeta (meta_exposure_time_us m) v (meta_readout_direction m) (meta_binning m)
    (meta_offset_x m) (meta_offset_y m) (meta_shape_x m) (meta_shape_y m)
    (supported_pixel_types m) (triggers_frame_start m) (digital_lines m).
Definition set_meta_readout_direction (v : Property) (m : CameraPropertyMetadata) :=
  mkMeta (meta_exposure_time_us m) (meta_line_interval_us m) v (meta_binning m)
    (meta_offset_x m) (meta_offset_y m) (meta_shape_x m) (meta_shape_y m)
    (supported_pixel_types m) (triggers_frame_start m) (digital_lines m).
Definition set_meta_binning (v : Property) (m : CameraPropertyMetadata) :=
  mkMeta (meta_exposure_time_us m) (meta_line_interval_us m) (meta_readout_direction m) v
    (meta_offset_x m) (meta_offset_y m) (meta_shape_x m) (meta_shape_y m)
    (supported_pixel_types m) (triggers_frame_start m) (digital_lines m).
Definition set_meta_offset (vx vy : Property) (m : CameraPropertyMetadata) :=
  mkMeta (meta_exposure_time_us m) (meta_line_interval_us m) (meta_readout_direction m)
    (meta_binning m) vx vy (meta_shape_x m) (meta_shape_y m)
    (supported_pixel_types m) (triggers_frame_start m) (digital_lines m).
Definition set_meta_shape (vx vy : Property) (m : CameraPropertyMetadata) :=
  mkMeta (meta_exposure_time_us m) (meta_line_interval_us m) (meta_readout_direction m)
    (meta_binning m) (meta_offset_x m) (meta_offset_y m) vx vy
    (supported_pixel_types m) (triggers_frame_start m) (digital_lines m).
Definition set_supported_pixel_types (v : Z) (m : CameraPropertyMetadata) :=
  mkMeta (meta_exposure_time_us m) (meta_line_interval_us m) (meta_readout_direction m)
    (meta_binning m) (meta_offset_x m) (meta_offset_y m) (meta_shape_x m) (meta_shape_y m)
    v (triggers_frame_start m) (digital_lines m).
Definition set_triggering (t : trigger_caps) (d : digital_lines_s) (m : CameraPropertyMetadata) :=
  mkMeta (meta_exposure_time_us m) (meta_line_interval_us m) (meta_readout_direction m)
    (meta_binning m) (meta_offset_x m) (meta_offset_y m) (meta_shape_x m) (meta_shape_y m)
    (supported_pixel_types m) t d.

Definition zero : float := S754_zero false.

(** [{ .writable = false }]: the remaining members are zero. *)
Definition not_writable : Property := mkProperty false zero zero PropertyType_FixedPrecision.

Definition query_exposure_time_capabilities_ : M CameraPropertyMetadata unit :=
  unit_ ← grabber_read (fun g => getString g (query_info "ExposureTime" "Unit"));
  EXPECT (String.eqb unit_ "us") expect_exposure_unit_us;;
  w ← grabber_read (fun g => getInteger g (query_writeable "ExposureTime"));
  lo ← grabber_read (fun g => getFloat g (feature "ExposureTimeMinReg"));
  hi ← grabber_read (fun g => getFloat g (feature "ExposureTimeMaxReg"));
  update_arg (set_meta_exposure_time_us
                (mkProperty (bool_of_int w) (f32.of_double lo) (f32.of_double hi)
                   PropertyType_FloatingPrecision)).

Definition query_binning_capabilities_ : M CameraPropertyMetadata unit :=
  w ← grabber_read (fun g => getInteger g (query_writeable "BinningHorizontal"));
  update_arg (set_meta_binning
                (mkProperty (bool_of_int w) (f32.of_int 1) (f32.of_int 4)
                   PropertyType_FixedPrecision)).

(** One [{ .writable, .low, .high, .type }] initialiser of an integer
    feature with registers [name]MinReg and [name]MaxReg. *)
Definition query_integer_range {X} (name : string) : M X Property :=
  w ← grabber_read (fun g => getInteger g (query_writeable name));
  lo ← grabber_read (fun g => getInteger g (feature (name +:+ "MinReg")));
  hi ← grabber_read (fun g => getInteger g (feature (name +:+ "MaxReg")));
  mret (mkProperty (bool_of_int w) (f32.of_int lo) (f32.of_int hi)
          PropertyType_FixedPrecision).

Definition query_roi_offset_capabilities_ : M CameraPropertyMetadata unit :=
  px ← query_integer_range "OffsetX";
  py ← query_integer_range "OffsetY";
  update_arg (set_meta_offset px py).

Definition query_roi_shape_capabilities_ : M CameraPropertyMetadata unit :=
  px ← query_integer_range "Width";
  py ← query_integer_range "Height";
  update_arg (set_meta_shape px py).

(** The loop body of [query_pixel_type_capabilities_]:
    [mask |= 1ULL << at_or(px_type_table_, v, SampleType_Unknown)]. *)
Definition add_pixel_type (mask : Z) (v : string) : Z :=
  Z.lor mask
    (uint64_t (Z.shiftl 1 (SampleType_value (at_or px_type_table_ v SampleType_Unknown)))).

Definition pixel_type_mask (vs : list string) : Z := fold_left add_pixel_type vs 0.

Definition query_pixel_type_capabilities_ : M CameraPropertyMetadata unit :=
  update_arg (set_supported_pixel_types 0);;
  vs ← grabber_read (fun g => getStringList g (query_enumEntries "PixelFormat"));
  update_arg (set_supported_pixel_types (pixel_type_mask vs)).

Definition query_triggering_capabilities_ : M CameraPropertyMetadata unit :=
  update_arg (set_triggering (mkTriggerCaps 1 0)
                (mkDigitalLines 2 ["Line0"; "Software"]%string)).

(** [EGCamera::get_meta(CameraPropertyMetadata* meta)]. *)
Definition get_meta : M CameraPropertyMetadata unit :=
  query_exposure_time_capabilities_;;
  update_arg (set_meta_line_interval_us not_writable);;
  update_arg (set_meta_readout_direction not_writable);;
  query_binning_capabilities_;;
  query_roi_offset_capabilities_;;
  query_roi_shape_capabilities_;;
  query_pixel_type_capabilities_;;
  query_triggering_capabilities_.

(** *** Reading the settings back *)

(** The [dflt] trigger of [get]. *)
Definition dflt : Trigger := mkTrigger 0 0 dflt_padding Signal_Input TriggerEdge_Rising.

(** [EGCamera::get(CameraProperties* properties)]. The aggregate assigned to
    [*properties] leaves [input_triggers] zeroed, which [dflt] then
    overwrites with the same values. *)
Definition get : M CameraProperties unit :=
  e ← grabber_read (fun g => getFloat g (feature "ExposureTime"));
  b ← grabber_read (fun g => getInteger g (feature "BinningHorizontal"));
  pf ← grabber_read (fun g => getString g (feature "PixelFormat"));
  ox ← grabber_read (fun g => getInteger g (feature "OffsetX"));
  oy ← grabber_read (fun g => getInteger g (feature "OffsetY"));
  sx ← grabber_read (fun g => getInteger g (feature "Width"));
  sy ← grabber_read (fun g => getInteger g (feature "Height"));
  update_arg (fun _ =>
    mkCameraProperties (f32.of_double e) (uint8_t b)
      (at_or px_type_table_ pf SampleType_Unknown)
      (mkOffset (uint32_t ox) (uint32_t oy))
      (mkShape (uint32_t sx) (uint32_t sy))
      (mkTrigger 0 0 0 Signal_Input TriggerEdge_Rising));;
  update_arg (with_frame_start dflt);;
  s ← grabber_read (fun g => getString g (feature "TriggerSource"));
  let src := at_or trig_src_table_ s Trig_Unknown in
  match src with
  | Trig_Line0 | Trig_Software =>
      en ← grabber_read (fun g => getInteger g (feature "TriggerMode"));
      act ← grabber_read (fun g => getString g (feature "TriggerActivation"));
      update_arg (with_frame_start
                    (mkTrigger (Z.to_N (uint8_t en)) (Z.to_N (uint8_t (TrigSrc_value src)))
                       temporary_padding Signal_Input (at_or trig_edge_table_ act TriggerEdge_Unknown)))
  | Trig_Unknown => mret tt
  end;;
  properties ← arg;
  update_self (with_settings properties).

(** *** Streaming *)

(** [EGCamera::start()]. *)
Definition start {X} : M X unit :=
  update_self (with_frame_id 0);;
  grabber_call (reallocBuffers NBUFFERS);;
  grabber_call grabber_start.

(** [EGCamera::stop()]. *)
Definition stop {X} : M X unit :=
  grabber_call grabber_stop;;
  grabber_call (setString "TriggerMode" "Off");;
  grabber_call cancelPop.

(** [EGCamera::execute_trigger()]. *)
Definition execute_trigger {X} : M X unit :=
  grabber_call (execute "TriggerSoftware").

Definition int64_t (z : Z) : Z := (z + 2 ^ 63) mod 2 ^ 64 - 2 ^ 63.

(** [EGCamera::get_shape(ImageShape* shape)]. Width and height are
    [uint32_t], so is their product before it widens into the stride. *)
Definition get_shape : M ImageShape unit :=
  w ← grabber_read getWidth;
  h ← grabber_read getHeight;
  let w := uint32_t w in
  let h := uint32_t h in
  pf ← grabber_read (fun g => getString g (feature "PixelFormat"));
  update_arg (fun _ =>
    mkImageShape (mkDims 1 w h 1) (mkDims 1 1 w (uint32_t (w * h)))
      (at_or px_type_table_ pf SampleType_Unknown)).

(** The memory [get_frame] writes through [im] and [info]. *)
Record frame_out : Type := mkFrameOut { im : list Z; info : ImageInfo }.

(** [std::memcpy(im, base, size)]: the first [size] bytes of [im] become the
    first [size] bytes of [base]. *)
Definition memcpy (im base : list Z) (size : Z) : list Z :=
  take (Z.to_nat size) base ++ drop (Z.to_nat size) im.

(** [Euresys::ScopedBuffer buffer(grabber_)] around [body]: the constructor
    takes the next frame (or throws), the destructor hands it back on every
    way out of the scope. The buffer's [getInfo] reads are taken with it. *)
Definition ScopedBuffer {X A} (body : buffer_info -> M X A) : M X A :=
  fun c x =>
    match pop (grabber_ c) with
    | None => mkRes (Throw sdk_exception) c x []
    | Some (buffer, g) =>
        let r := body buffer (with_grabber g c) x in
        mkRes (result r) (with_grabber (push (grabber_ (self' r))) (self' r))
          (arg' r) (calls r)
    end.

(** [EGCamera::get_frame(void* im, size_t* nbytes, ImageInfo* info)]; the
    delivered-height diagnostic only logs and is left out. *)
Definition get_frame (nbytes : Z) : M frame_out unit :=
  ScopedBuffer (fun buffer =>
    let timestamp_ns := buffer.(buf_timestamp_ns) in
    let height := buffer.(buf_height) in
    EXPECT (buffer.(buf_size) <=? nbytes) expect_nbytes_ge_size;;
    match buffer.(buf_base) with
    | None => throw (runtime_error expect_buf_base)
    | Some base =>
        update_arg (fun o => mkFrameOut (memcpy (im o) base buffer.(buf_size)) (info o));;
        c ← self;
        update_self (with_frame_id (uint64_t (frame_id_ c + 1)));;
        update_arg (fun o =>
          mkFrameOut (im o)
            (mkImageInfo
               (mkImageShape
                  (mkDims 1 (uint32_t buffer.(buf_width)) (uint32_t height) 1)
                  (mkDims 1 1 (int64_t buffer.(buf_width))
                     (int64_t (uint64_t (buffer.(buf_width) * height))))
                  (at_or px_type_table_ buffer.(buf_pixelFormat) SampleType_Unknown))
               timestamp_ns
               (frame_id_ c)))
    end).

(** *** The entry points *)

(** What an entry point hands back: the status, the object ([None] for a
    null [self_]), the pointee and the SDK calls issued. *)
Record Ret (X : Type) : Type := mkRet {
  status : DeviceStatusCode;
  object : option EGCamera;
  pointee : X;
  issued : list sdk_call
}.
Arguments mkRet {X} _ _ _ _.
Arguments status {X} _.
Arguments object {X} _.
Arguments pointee {X} _.
Arguments issued {X} _.

(** [try { CHECK(self_); body; return Device_Ok; } catch (...) { } return
    Device_Err;] *)
Definition try_ {X} (self_ : option EGCamera) (body : M X unit) (x : X) : Ret X :=
  match self_ with
  | None => mkRet Device_Err None x []
  | Some c =>
      let r := body c x in
      mkRet (match result r with Ok _ => Device_Ok | Throw _ => Device_Err end)
        (Some (self' r)) (arg' r) (calls r)
  end.

Definition eecam_set (self_ : option EGCamera) (settings : CameraProperties) :=
  try_ self_ set settings.
Definition eecam_get (self_ : option EGCamera) (settings : CameraProperties) :=
  try_ self_ get settings.
Definition eecam_get_meta (self_ : option EGCamera) (meta : CameraPropertyMetadata) :=
  try_ self_ get_meta meta.
Definition eecam_get_shape (self_ : option EGCamera) (shape : ImageShape) :=
  try_ self_ get_shape shape.
Definition eecam_stop (self_ : option EGCamera) : Ret unit :=
  try_ self_ stop tt.
Definition eecam_execute_trigger (self_ : option EGCamera) : Ret unit :=
  try_ self_ execute_trigger tt.
Definition eecam_get_frame (self_ : option EGCamera) (nbytes : Z) (out : frame_out) :=
  try_ self_ (get_frame nbytes) out.

(** [eecam_start]: two attempts, each failed one followed by [eecam_stop]. *)
Definition eecam_start (self_ : option EGCamera) : Ret unit :=
  let a1 := try_ self_ start tt in
  match status a1 with
  | Device_Ok => a1
  | Device_Err =>
      let s1 := eecam_stop (object a1) in
      let a2 := try_ (object s1) start tt in
      match status a2 with
      | Device_Ok =>
          mkRet Device_Ok (object a2) tt (issued a1 ++ issued s1 ++ issued a2)
      | Device_Err =>
          let s2 := eecam_stop (object a2) in
          mkRet Device_Err (object s2) tt
            (issued a1 ++ issued s1 ++ issued a2 ++ issued s2)
      end
  end.

(** *** The driver *)

Record EGDriver : Type := mkEGDriver { gentl_ : GenTL }.

(** [EGDriver::device_count()]; the SDK's [int] count becomes [uint32_t]. *)
Definition device_count (d : EGDriver) : outcome Z :=
  match discover_cameraCount (gentl_ d) with
  | Some n => Ok (uint32_t n)
  | None => Throw sdk_exception
  end.

(** [eecam_device_count(Driver* self_)]. *)
Definition eecam_device_count (self_ : option EGDriver) : Z :=
  match self_ with
  | None => 0
  | Some d =>
      match device_count d with
      | Ok n => n
      | Throw _ => 0
      end
  end.

End Adapter.

Arguments mkRes {SDK X A} _ _ _ _.
Arguments result {SDK X A} _.
Arguments self' {SDK X A} _.
Arguments arg' {SDK X A} _.
Arguments calls {SDK X A} _.
Arguments mkRet {SDK X} _ _ _ _.
Arguments status {SDK X} _.
Arguments object {SDK X} _.
Arguments pointee {SDK X} _.
Arguments issued {SDK X} _.

(** ** A simulated device

    A small scriptable stand-in for the SDK, used to run the adapter on
    concrete inputs: it stores feature values, rejects the calls its
    [rejects] predicate selects, and delivers the frames of a list. *)

Module Sim.

#[local] Instance query_eq_dec : EqDecision query.
Proof. solve_decision. Defined.

Record Device : Type := mkDevice {
  rejects : sdk_call -> bool;
  floats : query -> option double;
  integers : query -> option Z;
  texts : query -> option string;
  lists : query -> option (list string);
  frames : list buffer_info
}.

Definition upd {V} (f : query -> option V) (q : query) (v : V) : query -> option V :=
  fun q' => if bool_decide (q' = q) then Some v else f q'.

(** The effect of an accepted call: the feature store is updated. *)
Definition perform (d : Device) (k : sdk_call) : Device :=
  match k with
  | setFloat name v =>
      mkDevice (rejects d) (upd (floats d) (feature name) (f32.to_double v))
        (integers d) (texts d) (lists d) (frames d)
  | setInteger name v =>
      mkDevice (rejects d) (floats d) (upd (integers d) (feature name) v)
        (texts d) (lists d) (frames d)
  | setString name v =>
      mkDevice (rejects d) (floats d) (integers d) (upd (texts d) (feature name) v)
        (lists d) (frames d)
  | _ => d
  end.

#[local] Instance sdk : EGrabberSDK := {|
  Grabber := Device;
  sdk_do d k := if rejects d k then None else Some (perform d k);
  getFloat := floats;
  getInteger := integers;
  getString := texts;
  getStringList := lists;
  getWidth d := integers d (feature "Width");
  getHeight d := integers d (feature "Height");
  pop d :=
    match frames d with
    | [] => None
    | b :: bs =>
        Some (b, mkDevice (rejects d) (floats d) (integers d) (texts d) (lists d) bs)
    end;
  push d := d;
  GenTL := option Z;
  discover_cameraCount t := t
|}.

(** Braced initialisers leave the padding zeroed. *)
#[local] Instance representation : Representation := {|
  dflt_padding := 0;
  temporary_padding := 0
|}.

(** A device in the state the adapter's constructor leaves it in:
    exposure 10000 us, binning 1, Mono8, the full 64 x 48 region, trigger
    off on Line0. *)
Definition idle (rej : sdk_call -> bool) (fs : list buffer_info) : Device :=
  mkDevice rej
    (fun q =>
       if bool_decide (q = feature "ExposureTime") then Some (f32.to_double (f32.of_int 10000))
       else if bool_decide (q = feature "ExposureTimeMinReg") then Some (f32.to_double (f32.of_int 10))
       else if bool_decide (q = feature "ExposureTimeMaxReg") then Some (f32.to_double (f32.of_int 60000))
       else None)
    (fun q =>
       match q with
       | query_writeable name => Some (if String.eqb name "BinningHorizontal" then 0 else 1)
       | feature name =>
           if String.eqb name "BinningHorizontal" then Some 1
           else if String.eqb name "OffsetX" then Some 0
           else if String.eqb name "OffsetY" then Some 0
           else if String.eqb name "Width" then Some 64
           else if String.eqb name "Height" then Some 48
           else if String.eqb name "OffsetXMinReg" then Some 0
           else if String.eqb name "OffsetYMinReg" then Some 0
           else if String.eqb name "OffsetXMaxReg" then Some 56
           else if String.eqb name "OffsetYMaxReg" then Some 40
           else if String.eqb name "WidthMinReg" then Some 8
           else if String.eqb name "HeightMinReg" then Some 8
           else if String.eqb name "WidthMaxReg" then Some 64
           else if String.eqb name "HeightMaxReg" then Some 48
           else if String.eqb name "TriggerMode" then Some 0
           else None
       | _ => None
       end)
    (fun q =>
       if bool_decide (q = feature "PixelFormat") then Some "Mono8"
       else if bool_decide (q = feature "TriggerSource") then Some "Line0"
       else if bool_decide (q = feature "TriggerActivation") then Some "RisingEdge"
       else if bool_decide (q = query_info "ExposureTime" "Unit") then Some "us"
       else None)%string
    (fun q =>
       if bool_decide (q = query_enumEntries "PixelFormat")
       then Some ["Mono8"; "Mono12"; "BayerRG8"]%string
       else None)
    fs.

Definition accept_all : sdk_call -> bool := fun _ => false.

(** The settings and capabilities the adapter caches for [idle]. *)
Definition settings0 : CameraProperties :=
  mkCameraProperties (f32.of_int 10000) 1 SampleType_u8 (mkOffset 0 0) (mkShape 64 48)
    (mkTrigger 0 0 0 Signal_Input TriggerEdge_Rising).

Definition int_range (w : bool) (lo hi : Z) : Property :=
  mkProperty w (f32.of_int lo) (f32.of_int hi) PropertyType_FixedPrecision.

Definition capabilities0 : CameraPropertyMetadata :=
  mkMeta
    (mkProperty true (f32.of_int 10) (f32.of_int 60000) PropertyType_FloatingPrecision)
    not_writable not_writable
    (int_range false 1 4)
    (int_range true 0 56) (int_range true 0 40)
    (int_range true 8 64) (int_range true 8 48)
    (pixel_type_mask ["Mono8"; "Mono12"; "BayerRG8"]%string)
    (mkTriggerCaps 1 0) (mkDigitalLines 2 ["Line0"; "Software"]%string).

Definition camera (rej : sdk_call -> bool) (fs : list buffer_info) : EGCamera :=
  mkEGCamera (idle rej fs) settings0 capabilities0 0.

End Sim.

(** ** What [set] is to do

    The reference [set] is compared with. For a camera [c] and a request [p]
    it gives, property by property, when the property counts as unchanged,
    the value it is reconciled to, and the SDK calls that takes; [planned]
    strings the calls together in the order exposure, binning, pixel type,
    offset, shape, trigger, buffers. *)

Section Plan.

Context `{SDK : EGrabberSDK} `{REP : Representation}.

Definition caps (c : EGCamera) : CameraPropertyMetadata := last_known_capabilities_ c.
Definition cached (c : EGCamera) : CameraProperties := last_known_settings_ c.

(** The properties of [CameraProperties], vectors by component. *)
Inductive property : Type :=
| P_exposure_time_us
| P_binning
| P_pixel_type
| P_offset_x
| P_offset_y
| P_shape_x
| P_shape_y
| P_frame_start.

#[global] Instance property_eq_dec : EqDecision property.
Proof. solve_decision. Defined.

Definition numeric (P : property) : bool :=
  match P with
  | P_pixel_type | P_frame_start => false
  | _ => true
  end.

(** The device features a property is written to. *)
Definition features (P : property) : list string :=
  match P with
  | P_exposure_time_us => ["ExposureTime"]
  | P_binning => ["BinningHorizontal"; "BinningVertical"]
  | P_pixel_type => ["PixelFormat"]
  | P_offset_x => ["OffsetX"]
  | P_offset_y => ["OffsetY"]
  | P_shape_x => ["Width"]
  | P_shape_y => ["Height"]
  | P_frame_start => ["TriggerSource"; "TriggerMode"; "TriggerActivation"]
  end%string.

Inductive value : Type :=
| V_float (f : float)
| V_int (z : Z)
| V_type (t : SampleType)
| V_trigger (t : Trigger).

Definition field (P : property) (s : CameraProperties) : value :=
  match P with
  | P_exposure_time_us => V_float (exposure_time_us s)
  | P_binning => V_int (binning s)
  | P_pixel_type => V_type (pixel_type s)
  | P_offset_x => V_int (offset_x (offset s))
  | P_offset_y => V_int (offset_y (offset s))
  | P_shape_x => V_int (shape_x (shape s))
  | P_shape_y => V_int (shape_y (shape s))
  | P_frame_start => V_trigger (frame_start s)
  end.

(** Desired equals cached: within the epsilon for the exposure, exactly
    elsewhere, byte for byte, padding included, for the trigger record. *)
Definition unchanged (P : property) (p s : CameraProperties) : bool :=
  match P with
  | P_exposure_time_us => negb (exposure_changed (exposure_time_us p) (exposure_time_us s))
  | P_binning => binning p =? binning s
  | P_pixel_type => bool_decide (pixel_type p = pixel_type s)
  | P_offset_x => offset_x (offset p) =? offset_x (offset s)
  | P_offset_y => offset_y (offset p) =? offset_y (offset s)
  | P_shape_x => shape_x (shape p) =? shape_x (shape s)
  | P_shape_y => shape_y (shape p) =? shape_y (shape s)
  | P_frame_start => is_equal (frame_start p) (frame_start s)
  end.

(** The capability range of a numeric property. *)
Definition range (P : property) (m : CameraPropertyMetadata) : Property :=
  match P with
  | P_exposure_time_us => meta_exposure_time_us m
  | P_binning => meta_binning m
  | P_offset_x => meta_offset_x m
  | P_offset_y => meta_offset_y m
  | P_shape_x => meta_shape_x m
  | P_shape_y => meta_shape_y m
  | _ => not_writable
  end.

(** The desired value of [P], clamped to its range where it has one. *)
Definition clamped (P : property) (m : CameraPropertyMetadata) (p : CameraProperties) : value :=
  match P with
  | P_exposure_time_us =>
      V_float (clamp_float (exposure_time_us p) (low (range P m)) (high (range P m)))
  | P_binning => V_int (clamp_uint8 (binning p) (low (range P m)) (high (range P m)))
  | P_pixel_type => V_type (pixel_type p)
  | P_offset_x =>
      V_int (clamp_uint32 (offset_x (offset p)) (low (range P m)) (high (range P m)))
  | P_offset_y =>
      V_int (clamp_uint32 (offset_y (offset p)) (low (range P m)) (high (range P m)))
  | P_shape_x =>
      V_int (clamp_uint32 (shape_x (shape p)) (low (range P m)) (high (range P m)))
  | P_shape_y =>
      V_int (clamp_uint32 (shape_y (shape p)) (low (range P m)) (high (range P m)))
  | P_frame_start => V_trigger (frame_start p)
  end.

(** The calls that write the value [v] of [P] to the device. *)
Definition writes (P : property) (m : CameraPropertyMetadata) (v : value) : list sdk_call :=
  match P, v with
  | P_exposure_time_us, V_float f => [setFloat "ExposureTime" f]
  | P_binning, V_int z =>
      if writable (meta_binning m)
      then [setInteger "BinningHorizontal" z; setInteger "BinningVertical" z]
      else []
  | P_pixel_type, V_type t =>
      match px_type_inv_table_ t with
      | Some name => [setString "PixelFormat" name]
      | None => []
      end
  | P_offset_x, V_int z => [setInteger "OffsetX" z]
  | P_offset_y, V_int z => [setInteger "OffsetY" z]
  | P_shape_x, V_int z => [setInteger "Width" z]
  | P_shape_y, V_int z => [setInteger "Height" z]
  | P_frame_start, V_trigger t =>
      [setString "TriggerSource" (index sources (line t));
       setString "TriggerMode" (index modes (enable t));
       setString "TriggerActivation"
         (index activations (Z.to_N (TriggerEdge_value (edge t))))]
  | _, _ => []
  end.

(** What the trigger update demands of an incoming record. *)
Definition trigger_valid (t : Trigger) : bool :=
  (line t <? 2)%N && (TriggerEdge_value (edge t) <? 2) && (enable t <? 2)%N.

(** The same in the spec's words: line not in {0,1}, or edge not in
    {Rising, Falling}, or enable not in {0,1}. *)
Definition invalid_trigger (t : Trigger) : Prop :=
  (line t <> 0 /\ line t <> 1)%N
  \/ (edge t <> TriggerEdge_Rising /\ edge t <> TriggerEdge_Falling)
  \/ (enable t <> 0 /\ enable t <> 1)%N.

(** What a property may be set to at all. *)
Definition acceptable (P : property) (p : CameraProperties) : bool :=
  match P with
  | P_pixel_type => SampleType_value (pixel_type p) <? SampleType_value SampleTypeCount
  | P_frame_start => trigger_valid (frame_start p)
  | _ => true
  end.

Definition plan_of (P : property) (c : EGCamera) (p : CameraProperties) : list sdk_call :=
  if unchanged P p (cached c) then []
  else if acceptable P p then writes P (caps c) (clamped P (caps c) p)
  else [].

Definition fields_plan (c : EGCamera) (p : CameraProperties) : list sdk_call :=
  plan_of P_exposure_time_us c p ++ plan_of P_binning c p ++ plan_of P_pixel_type c p
  ++ (plan_of P_offset_x c p ++ plan_of P_offset_y c p)
  ++ (plan_of P_shape_x c p ++ plan_of P_shape_y c p)
  ++ plan_of P_frame_start c p.

Definition planned (c : EGCamera) (p : CameraProperties) : list sdk_call :=
  fields_plan c p ++ [reallocBuffers NBUFFERS].

Definition reconcile (P : property) (c : EGCamera) (p : CameraProperties) : value :=
  if unchanged P p (cached c) then field P (cached c) else clamped P (caps c) p.

(** The feature a call names, if it names one. *)
Definition call_name (k : sdk_call) : option string :=
  match k with
  | setFloat name _ | setInteger name _ | setString name _ | execute name => Some name
  | _ => None
  end.

Definition named_in (names : list string) (k : sdk_call) : bool :=
  match call_name k with
  | Some n => bool_decide (n ∈ names)
  | None => false
  end.

(** The calls of [ks] on the features [names]. *)
Definition calls_on (names : list string) (ks : list sdk_call) : list sdk_call :=
  List.filter (named_in names) ks.

(** Whether [ks] reallocates the buffer pool to the adapter's count. *)
Definition reallocates (ks : list sdk_call) : bool :=
  existsb (fun k => match k with
                    | reallocBuffers n => n =? NBUFFERS
                    | _ => false
                    end) ks.

(** [r], with the calls [pre] issued before it. *)
Definition after {X A} (pre : list sdk_call) (r : Res X A) : Res X A :=
  mkRes (result r) (self' r) (arg' r) (pre ++ calls r).

(** A step that only talks to the grabber: it leaves the pointee and every
    member but [grabber_] alone and issues a prefix of [plan]; when it
    returns it has issued all of [plan] and returns [v]; when it throws, an
    SDK call it issued was rejected or [extra] holds of the exception. *)
Definition runs_as {X V} (r : Res X V) (c : EGCamera) (x : X)
    (plan : list sdk_call) (v : V) (extra : exn -> Prop) : Prop :=
  arg' r = x
  /\ (exists g, self' r = with_grabber g c)
  /\ calls r `prefix_of` plan
  /\ (forall e, result r = Throw e -> (e = sdk_exception /\ calls r <> []) \/ extra e)
  /\ (forall a, result r = Ok a -> a = v /\ calls r = plan).

Definition never (e : exn) : Prop := False.

(** The two ways [maybe_set_px_type] throws on its own account. *)
Definition px_type_throws (t l : SampleType) (e : exn) : Prop :=
  (e = runtime_error expect_px_type_lt_count
   /\ (SampleType_value t <? SampleType_value SampleTypeCount) = false)
  \/ (e = out_of_range /\ bool_decide (t = l) = false /\ px_type_inv_table_ t = None).

(** How the trigger update throws on its own account. *)
Definition trigger_throws (t last : Trigger) (e : exn) : Prop :=
  (e = runtime_error expect_trigger_line_lt_2
   \/ e = runtime_error expect_trigger_edge_lt_2
   \/ e = runtime_error expect_trigger_enable_lt_2)
  /\ is_equal t last = false /\ trigger_valid t = false.

(** When and how [set] throws: an SDK call it issued was rejected, or the
    pixel type or the trigger record was refused. *)
Definition set_throws (c : EGCamera) (p : CameraProperties) (r : Res CameraProperties unit)
    (e : exn) : Prop :=
  (e = sdk_exception /\ calls r <> [])
  \/ px_type_throws (pixel_type p) (pixel_type (cached c)) e
  \/ trigger_throws (frame_start p) (frame_start (cached c)) e.

Definition set_facts (c : EGCamera) (p : CameraProperties)
    (r : Res CameraProperties unit) : Prop :=
  (exists g s, self' r = mkEGCamera g s (caps c) (frame_id_ c)
               /\ frame_start s = frame_start (cached c))
  /\ calls r `prefix_of` planned c p
  /\ (result r = Ok tt ->
        calls r = planned c p
        /\ forall P, P <> P_frame_start -> field P (cached (self' r)) = reconcile P c p)
  /\ (forall e, result r = Throw e ->
        (calls r `prefix_of` fields_plan c p /\ set_throws c p r e)
        \/ (e = sdk_exception /\ calls r = planned c p))
  /\ (is_equal (frame_start p) (frame_start (cached c)) = false ->
      trigger_valid (frame_start p) = false ->
      exists e, result r = Throw e /\ calls r `prefix_of` fields_plan c p
                /\ set_throws c p r e).

(** The float [clamp] compares with the bounds. *)
Definition compared (P : property) (p : CameraProperties) : float :=
  match P with
  | P_exposure_time_us => exposure_time_us p
  | P_binning => f32.of_int (binning p)
  | P_offset_x => f32.of_int (offset_x (offset p))
  | P_offset_y => f32.of_int (offset_y (offset p))
  | P_shape_x => f32.of_int (shape_x (shape p))
  | P_shape_y => f32.of_int (shape_y (shape p))
  | _ => zero
  end.

(** The desired value lies outside the range, as [clamp] judges it. *)
Definition outside (P : property) (m : CameraPropertyMetadata) (p : CameraProperties) : bool :=
  f32.lt (compared P p) (low (range P m)) || f32.lt (high (range P m)) (compared P p).

(** A bound of an integer property is a value of the property's type. *)
Definition integral (w : Z) (b : float) : Prop := f32.of_int (f32.to_unsigned w b) = b.

Definition bounds_integral (P : property) (m : CameraPropertyMetadata) : Prop :=
  match P with
  | P_binning => integral 8 (low (range P m)) /\ integral 8 (high (range P m))
  | P_offset_x | P_offset_y | P_shape_x | P_shape_y =>
      integral 32 (low (range P m)) /\ integral 32 (high (range P m))
  | _ => True
  end.

(** *** Sequences of operations *)

Inductive op : Type :=
| op_set (p : CameraProperties)
| op_get (p : CameraProperties)
| op_get_meta (m : CameraPropertyMetadata)
| op_get_shape (s : ImageShape)
| op_start
| op_stop
| op_execute_trigger
| op_get_frame (nbytes : Z) (out : frame_out).

(** What a caller observes of the frame counter. *)
Inductive event : Type :=
| ev_start
| ev_frame (id : Z)
| ev_other.

Definition run_op (o : op) (c : EGCamera) : EGCamera * event :=
  match o with
  | op_set p => (self' (set c p), ev_other)
  | op_get p => (self' (get c p), ev_other)
  | op_get_meta m => (self' (get_meta c m), ev_other)
  | op_get_shape s => (self' (get_shape c s), ev_other)
  | op_start => (self' (start c tt), ev_start)
  | op_stop => (self' (stop c tt), ev_other)
  | op_execute_trigger => (self' (execute_trigger c tt), ev_other)
  | op_get_frame n out =>
      let r := get_frame n c out in
      (self' r,
       match result r with
       | Ok _ => ev_frame (hardware_frame_id (info (arg' r)))
       | Throw _ => ev_other
       end)
  end.

Fixpoint run (os : list op) (c : EGCamera) : list event :=
  match os with
  | [] => []
  | o :: os => snd (run_op o c) :: run os (fst (run_op o c))
  end.

(** The frame ids the spec promises: 0 after a start, one more with each
    frame delivered, nothing else moves the count. *)
Fixpoint frame_ids_from (next : Z) (evs : list event) : Prop :=
  match evs with
  | [] => True
  | ev_start :: evs => frame_ids_from 0 evs
  | ev_frame id :: evs => id = next /\ frame_ids_from (next + 1) evs
  | ev_other :: evs => frame_ids_from next evs
  end.

Definition keeps_frame_id {X A} (m : M X A) : Prop :=
  forall c x, frame_id_ (self' (m c x)) = frame_id_ c.

(** The strings the adapter models. *)
Definition modelled (v : string) : bool :=
  bool_decide (v ∈ ["Mono8"; "Mono10"; "Mono12"; "Mono14"; "Mono16"]%string).


End Plan.

(** ** Concrete runs

    A camera over the simulated device, and requests against it. *)

Module Scenario.

#[local] Existing Instance Sim.sdk.
#[local] Existing Instance Sim.representation.

(** The camera as its constructor leaves it, no frame pending. *)
Definition cam : EGCamera := Sim.camera Sim.accept_all [].

(** Exposure below its range, binning above it (and not writable), a new
    pixel type, an offset past its range, a height below its range; width
    and trigger as cached. *)
Definition request : CameraProperties :=
  mkCameraProperties (f32.of_int 5) 9 SampleType_u12 (mkOffset 100 3) (mkShape 64 2)
    (mkTrigger 0 0 0 Signal_Input TriggerEdge_Rising).

(** The cached settings, but for a trigger on line 2. *)
Definition bad_trigger : CameraProperties :=
  mkCameraProperties (f32.of_int 10000) 1 SampleType_u8 (mkOffset 0 0) (mkShape 64 48)
    (mkTrigger 1 2 0 Signal_Input TriggerEdge_Rising).

(** A 4 x 2 Mono8 frame of eight bytes. *)
Definition frame (t : Z) : buffer_info :=
  mkBufferInfo t 2 (Some [1; 2; 3; 4; 5; 6; 7; 8]) 8 2 4 "Mono8".

Definition streaming : EGCamera :=
  Sim.camera Sim.accept_all [frame 100; frame 200; frame 300; frame 400].

Definition no_info : ImageInfo :=
  mkImageInfo (mkImageShape (mkDims 0 0 0 0) (mkDims 0 0 0 0) SampleType_Unknown) 0 0.

(** A caller's buffer of eight bytes. *)
Definition out : frame_out := mkFrameOut [0; 0; 0; 0; 0; 0; 0; 0] no_info.

Definition blank_meta : CameraPropertyMetadata :=
  mkMeta not_writable not_writable not_writable not_writable not_writable
    not_writable not_writable not_writable 0 (mkTriggerCaps 0 0) (mkDigitalLines 0 []).

(** A frame refused for capacity, a start, two frames, a stop and a
    reconfiguration, a last frame. *)
Definition session : list op :=
  [op_get_frame 7 out; op_start; op_get_frame 8 out; op_get_frame 8 out;
   op_stop; op_set request; op_get_frame 8 out].

(** A driver whose discovery throws. *)
Definition broken_driver : EGDriver := mkEGDriver None.

(** The cached settings, with other bytes in the padding of the trigger. *)
Definition padded : CameraProperties :=
  with_frame_start (mkTrigger 0 0 52428 Signal_Input TriggerEdge_Rising) Sim.settings0.



End Scenario.

(** ** What [set] writes, against the capability ranges *)

Section Written.

Context `{SDK : EGrabberSDK} `{REP : Representation}.

(** The number a call hands to the device, as a [float]: the exposure as it
    is, an integer converted the way [clamp] converts it. *)
Definition carried (k : sdk_call) : option float :=
  match k with
  | setFloat _ v => Some v
  | setInteger _ v => Some (f32.of_int v)
  | _ => None
  end.

(** Neither below [low] nor above [high], by the comparisons [clamp] makes. *)
Definition within (r : Property) (f : float) : bool :=
  negb (f32.lt f (low r)) && negb (f32.lt (high r) f).

(** The range is not inverted. *)
Definition ordered (r : Property) : Prop := f32.lt (high r) (low r) = false.

End Written.

(** ** The stages of [set] *)

Section Stages.

Context `{SDK : EGrabberSDK} `{REP : Representation}.

(** The field groups of [set] in the order it goes through them: one per
    assignment to [last_known_settings_], then the trigger (5) and the
    reallocation (6); 7 stands for the return. *)
Definition stage (P : property) : nat :=
  match P with
  | P_exposure_time_us => 0
  | P_binning => 1
  | P_pixel_type => 2
  | P_offset_x | P_offset_y => 3
  | P_shape_x | P_shape_y => 4
  | P_frame_start => 5
  end.

Definition stage_plan (k : nat) (c : EGCamera) (p : CameraProperties) : list sdk_call :=
  match k with
  | 0 => plan_of P_exposure_time_us c p
  | 1 => plan_of P_binning c p
  | 2 => plan_of P_pixel_type c p
  | 3 => plan_of P_offset_x c p ++ plan_of P_offset_y c p
  | 4 => plan_of P_shape_x c p ++ plan_of P_shape_y c p
  | 5 => plan_of P_frame_start c p
  | 6 => [reallocBuffers NBUFFERS]
  | _ => []
  end%nat.

(** The calls of the stages before [k]. *)
Fixpoint plans_upto (k : nat) (c : EGCamera) (p : CameraProperties) : list sdk_call :=
  match k with
  | O => []
  | S k' => plans_upto k' c p ++ stage_plan k' c p
  end.

(** What [maybe_set_px_type] lets through: a value below [SampleTypeCount]
    that is the cached one or has a name in [px_type_inv_table_]. *)
Definition accepts_px_type (t l : SampleType) : bool :=
  (SampleType_value t <? SampleType_value SampleTypeCount)
  && (bool_decide (t = l)
      || match px_type_inv_table_ t with Some _ => true | None => false end).

(** The request as [maybe_set_trigger] leaves it once the record has passed
    the checks: [kind] forced to [Signal_Input]. *)
Definition forced (p : CameraProperties) : CameraProperties :=
  with_frame_start (with_kind Signal_Input (frame_start p)) p.

(** [set] got as far as stage [k] on camera [c] with request [p], and [r]
    is what it left: the groups before [k] are cached as reconciled, the
    others as they were, the trigger never; the calls are those of the
    stages before [k] and a prefix of stage [k]'s; the request has [kind]
    forced when the trigger update got past its checks. *)
Definition stopped_at (k : nat) (c : EGCamera) (p : CameraProperties)
    (r : Res CameraProperties unit) : Prop :=
  (exists g s,
      self' r = mkEGCamera g s (caps c) (frame_id_ c)
      /\ frame_start s = frame_start (cached c)
      /\ forall P, P <> P_frame_start ->
           field P s = if (stage P <? k)%nat then reconcile P c p else field P (cached c))
  /\ (exists ks, calls r = plans_upto k c p ++ ks /\ ks `prefix_of` stage_plan k c p
        /\ match result r with
           | Ok _ => k = 7%nat
           | Throw e =>
               (k < 7)%nat
               /\ ((e = sdk_exception /\ ks <> [])
                   \/ (k = 2%nat /\ ks = []
                       /\ px_type_throws (pixel_type p) (pixel_type (cached c)) e)
                   \/ (k = 5%nat /\ ks = []
                       /\ trigger_throws (frame_start p) (frame_start (cached c)) e))
           end)
  /\ ((2 < k)%nat -> accepts_px_type (pixel_type p) (pixel_type (cached c)) = true)
  /\ ((5 < k)%nat -> acceptable P_frame_start p = true
                     \/ unchanged P_frame_start p (cached c) = true)
  /\ arg' r = if (5 <=? k)%nat && negb (unchanged P_frame_start p (cached c))
                 && acceptable P_frame_start p
              then forced p else p.

End Stages.

(** ** Computations that only read the device *)

Section Reads.

Context `{SDK : EGrabberSDK} `{REP : Representation}.

(** On camera [c], [m] ends as [o] whatever the pointee, leaving the object
    and the pointee alone and issuing no call. *)
Definition answers {X A} (m : M X A) (c : EGCamera) (o : outcome A) : Prop :=
  forall x, m c x = mkRes o c x [].

(** On camera [c], [m] ends as [o] whatever the pointee, leaving the object
    alone, issuing no call and turning the pointee [x] into [f x]. *)
Definition fills {X} (m : M X unit) (c : EGCamera) (o : outcome unit) (f : X -> X) : Prop :=
  forall x, m c x = mkRes o c (f x) [].

End Reads.

(** ** Streaming: what [start] and [stop] issue *)

Section Streaming.

Context `{SDK : EGrabberSDK} `{REP : Representation}.

(** The calls of [EGCamera::start] and of [EGCamera::stop], in order. *)
Definition start_calls : list sdk_call := [reallocBuffers NBUFFERS; grabber_start].
Definition stop_calls : list sdk_call :=
  [grabber_stop; setString "TriggerMode" "Off"; cancelPop].

Definition is_start (k : sdk_call) : bool :=
  match k with grabber_start => true | _ => false end.

(** How often [ks] asks the grabber to start. *)
Definition starts (ks : list sdk_call) : nat := length (List.filter is_start ks).

(** The calls of [ks] issued in order on the grabber [g], up to and
    including the first one the SDK rejects. *)
Fixpoint attempted (g : Grabber) (ks : list sdk_call) : list sdk_call :=
  match ks with
  | [] => []
  | k :: ks' =>
      k :: match sdk_do g k with
           | Some g' => attempted g' ks'
           | None => []
           end
  end.

(** The SDK accepts every call of [ks], issued in order on [g]. *)
Fixpoint accepts (g : Grabber) (ks : list sdk_call) : bool :=
  match ks with
  | [] => true
  | k :: ks' =>
      match sdk_do g k with
      | Some g' => accepts g' ks'
      | None => false
      end
  end.

End Streaming.

(** ** The driver: constructing, opening, describing and closing cameras *)

(** [Euresys::EGrabberDiscovery] and the [EGrabber] constructor, as the
    driver uses them. A result of [None] is a thrown SDK exception. *)
Class EGrabberDiscovery `{SDK : EGrabberSDK} : Type := {
  Discovery : Type;
  CameraInfo : Type;
  (** [EGrabberDiscovery discovery(gentl); discovery.discover();] *)
  discover : GenTL -> option Discovery;
  (** [discovery.cameras(i)], [i] an [int] *)
  cameras : Discovery -> Z -> option CameraInfo;
  (** [EGrabber<>(info)] *)
  EGrabber_new : CameraInfo -> option Grabber
}.

(** Modelled from the spec: [enum DeviceKind] and [struct DeviceIdentifier]
    are declared in device/props/device.h, which is not among the sources.
    The spec gives an identifier of name and kind; the code assigns
    [device_id] (a [uint8_t]) and [kind] (here [device_kind], [kind] being
    the trigger's) and prints into the character array [name].
    [DeviceKind_None] stands for the kinds other than a camera. *)
Inductive DeviceKind : Type := DeviceKind_None | DeviceKind_Camera.

Record DeviceIdentifier : Type := mkDeviceIdentifier {
  device_id : Z;
  device_kind : DeviceKind;
  name : string
}.

(** The expressions guarded by [EXPECT] and [CHECK] in the driver. *)
Inductive driver_expectation : Type :=
| expect_index_lt_256
| expect_out
| expect_device_id_lt_uint_max
| expect_in.

(** What the driver's methods throw: their own [std::runtime_error], the
    SDK's exception from discovery, from opening a grabber or from reading
    it, or what the camera's constructor threw. *)
Inductive driver_exn : Type :=
| driver_runtime_error (e : driver_expectation)
| driver_sdk_exception
| camera_exception (e : exn).

Inductive attempt (A : Type) : Type :=
| Done (a : A)
| Failed (e : driver_exn).
Arguments Done {A} a.
Arguments Failed {A} e.

(** [(int)z] for a 64-bit unsigned [z], [int] of 32 bits. *)
Definition int_ (z : Z) : Z := (z + 2 ^ 31) mod 2 ^ 32 - 2 ^ 31.

(** [s.c_str()] as [printf] reads it: up to the first NUL. *)
Fixpoint c_str (s : string) : string :=
  match s with
  | EmptyString => EmptyString
  | String a s' => if Ascii.eqb a Ascii.zero then EmptyString else String a (c_str s')
  end.

(** [snprintf(buf, size, "%s %s %s", a, b, c)] into a zeroed [buf], read
    back as a C string: the first [size - 1] bytes of the formatted text. *)
Definition snprintf (size : nat) (a b c : string) : string :=
  String.substring 0 (size - 1) (c_str a +:+ " " +:+ c_str b +:+ " " +:+ c_str c).

Section Driver.

Context `{DSDK : EGrabberDiscovery} `{REP : Representation}.

(** [last_known_settings_{}]: value-initialised. *)
Definition zeroed_settings : CameraProperties :=
  mkCameraProperties zero 0 SampleType_u8 (mkOffset 0 0) (mkShape 0 0)
    (mkTrigger 0 0 0 Signal_Input TriggerEdge_Rising).

(** A method called on the member [last_known_settings_] itself,
    [m(&last_known_settings_)]: what it writes through the pointer it writes
    to the member. ([get], the one method so called, reads the object's
    [grabber_] only.) *)
Definition on_settings {X} (m : M CameraProperties unit) : M X unit :=
  fun c x =>
    let r := m c (last_known_settings_ c) in
    mkRes (result r) (with_settings (arg' r) (self' r)) x (calls r).

(** The same for [last_known_capabilities_]. *)
Definition on_capabilities {X} (m : M CameraPropertyMetadata unit) : M X unit :=
  fun c x =>
    let r := m c (last_known_capabilities_ c) in
    mkRes (result r) (with_capabilities (arg' r) (self' r)) x (calls r).

(** The body of [EGCamera::EGCamera]. *)
Definition EGCamera_body : M unit unit :=
  grabber_call grabber_stop;;
  grabber_call (execute "AcquisitionStop");;
  grabber_call (setString "TriggerMode" "Off");;
  on_settings get;;
  on_capabilities get_meta.

(** [EGCamera::EGCamera(info)]: the members in declaration order, then the
    body. [last_known_capabilities_] has no initialiser; [indeterminate] is
    what it happens to hold. The result is the object, or the exception
    that leaves none, and the calls issued on the grabber. *)
Definition EGCamera_new (info : CameraInfo) (indeterminate : CameraPropertyMetadata)
    : outcome EGCamera * list sdk_call :=
  match EGrabber_new info with
  | None => (Throw sdk_exception, [])
  | Some g =>
      let r := EGCamera_body (mkEGCamera g zeroed_settings indeterminate 0) tt in
      (match result r with Ok _ => Ok (self' r) | Throw e => Throw e end, calls r)
  end.

(** [try { body } catch (...) { }] *)
Definition swallow {X} (body : M X unit) : M X unit :=
  fun c x => let r := body c x in mkRes (Ok tt) (self' r) (arg' r) (calls r).

(** [EGCamera::~EGCamera]. *)
Definition EGCamera_delete : M unit unit :=
  swallow (stop;;
           grabber_call (execute "AcquisitionStop");;
           grabber_call (setString "TriggerMode" "Off")).

(** [EGDriver::describe(identifier, i)]; [sizeof_name] is
    [sizeof(identifier->name)]. The local grabber is closed on the way
    out. *)
Definition describe (sizeof_name : nat) (d : EGDriver) (i : Z) : attempt DeviceIdentifier :=
  match discover (gentl_ d) with
  | None => Failed driver_sdk_exception
  | Some discovery =>
      if negb (i <? 2 ^ 8) then Failed (driver_runtime_error expect_index_lt_256)
      else
        match cameras discovery (int_ i) with
        | None => Failed driver_sdk_exception
        | Some info =>
            match EGrabber_new info with
            | None => Failed driver_sdk_exception
            | Some grabber =>
                match getString grabber (feature "DeviceVendorName") with
                | None => Failed driver_sdk_exception
                | Some vendor_name =>
                    match getString grabber (feature "DeviceModelName") with
                    | None => Failed driver_sdk_exception
                    | Some device_name =>
                        match getString grabber (feature "DeviceSerialNumber") with
                        | None => Failed driver_sdk_exception
                        | Some device_sn =>
                            Done (mkDeviceIdentifier (uint8_t i) DeviceKind_Camera
                                    (snprintf sizeof_name vendor_name device_name device_sn))
                        end
                    end
                end
            end
        end
  end.

(** [EGDriver::open(device_id, out)]: [out] is [None] for a null pointer
    and the pointer's target otherwise; the result is the new target. *)
Definition open (d : EGDriver) (device_id : Z) (out : option (option EGCamera))
    (indeterminate : CameraPropertyMetadata) : attempt EGCamera * list sdk_call :=
  match out with
  | None => (Failed (driver_runtime_error expect_out), [])
  | Some _ =>
      if negb (device_id <? 2 ^ (8 * 4) - 1)
      then (Failed (driver_runtime_error expect_device_id_lt_uint_max), [])
      else
        match discover (gentl_ d) with
        | None => (Failed driver_sdk_exception, [])
        | Some discovery =>
            match cameras discovery (int_ device_id) with
            | None => (Failed driver_sdk_exception, [])
            | Some info =>
                match EGCamera_new info indeterminate with
                | (Ok c, ks) => (Done c, ks)
                | (Throw e, ks) => (Failed (camera_exception e), ks)
                end
            end
        end
  end.

(** [EGDriver::close(in)]: the calls the camera's destructor issues. *)
Definition close (in_ : option EGCamera) : attempt (list sdk_call) :=
  match in_ with
  | None => Failed (driver_runtime_error expect_in)
  | Some camera => Done (calls (EGCamera_delete camera tt))
  end.

(** [eecam_describe(self_, identifier, i)]: the status and [*identifier]. *)
Definition eecam_describe (sizeof_name : nat) (self_ : option EGDriver)
    (identifier : DeviceIdentifier) (i : Z) : DeviceStatusCode * DeviceIdentifier :=
  match self_ with
  | None => (Device_Err, identifier)
  | Some d =>
      match describe sizeof_name d i with
      | Done id => (Device_Ok, id)
      | Failed _ => (Device_Err, identifier)
      end
  end.

(** What [eecam_open] leaves: the status, the target of [out] and the calls
    issued on the new grabber. *)
Record Opened : Type := mkOpened {
  open_status : DeviceStatusCode;
  open_out : option (option EGCamera);
  open_issued : list sdk_call
}.

(** [eecam_open(self_, device_id, out)]. *)
Definition eecam_open (self_ : option EGDriver) (device_id : Z)
    (out : option (option EGCamera)) (indeterminate : CameraPropertyMetadata) : Opened :=
  match self_ with
  | None => mkOpened Device_Err out []
  | Some d =>
      match open d device_id out indeterminate with
      | (Done c, ks) => mkOpened Device_Ok (Some (Some c)) ks
      | (Failed _, ks) => mkOpened Device_Err out ks
      end
  end.

(** [eecam_close(self_, in)]: the status and the calls issued. *)
Definition eecam_close (self_ : option EGDriver) (in_ : option EGCamera)
    : DeviceStatusCode * list sdk_call :=
  match self_ with
  | None => (Device_Err, [])
  | Some _ =>
      match close in_ with
      | Done ks => (Device_Ok, ks)
      | Failed _ => (Device_Err, [])
      end
  end.

(** The calls of the constructor's body and of the destructor. *)
Definition init_calls : list sdk_call :=
  [grabber_stop; execute "AcquisitionStop"; setString "TriggerMode" "Off"].
Definition delete_calls : list sdk_call :=
  stop_calls ++ [execute "AcquisitionStop"; setString "TriggerMode" "Off"].

End Driver.

(** ** A simulated driver, and more concrete runs *)

Module SimDriver.

#[local] Existing Instance Sim.sdk.
#[local] Existing Instance Sim.representation.

(** A device that reports its vendor, model and serial number. *)
Definition named (d : Sim.Device) : Sim.Device :=
  Sim.perform
    (Sim.perform (Sim.perform d (setString "DeviceVendorName" "Vieworks"))
       (setString "DeviceModelName" "VP-151MX"))
    (setString "DeviceSerialNumber" "0042").

(** Discovery finds as many idle cameras as the transport layer counts and
    none of a negative index; a camera's info is the device itself. *)
#[local] Instance discovery : EGrabberDiscovery := {|
  Discovery := list Sim.Device;
  CameraInfo := Sim.Device;
  discover t :=
    match t with
    | Some n => Some (repeat (named (Sim.idle Sim.accept_all [])) (Z.to_nat n))
    | None => None
    end;
  cameras l i := if i <? 0 then None else l !! Z.to_nat i;
  EGrabber_new info := Some info
|}.

(** A driver that finds two cameras. *)
Definition driver : EGDriver := mkEGDriver (Some 2).

Definition no_identifier : DeviceIdentifier :=
  mkDeviceIdentifier 0 DeviceKind_None EmptyString.

(** A device whose exposure unit is not microseconds. *)
Definition in_milliseconds : EGCamera :=
  mkEGCamera
    (Sim.mkDevice Sim.accept_all (Sim.floats (Sim.idle Sim.accept_all []))
       (Sim.integers (Sim.idle Sim.accept_all []))
       (Sim.upd (Sim.texts (Sim.idle Sim.accept_all []))
          (query_info "ExposureTime" "Unit") "ms")
       (Sim.lists (Sim.idle Sim.accept_all [])) [])
    Sim.settings0 Sim.capabilities0 0.

(** Devices that reject the grabber's stop, the grabber's start, and the
    write of OffsetY. *)
Definition rejects_stop (k : sdk_call) : bool :=
  match k with grabber_stop => true | _ => false end.
Definition rejects_start (k : sdk_call) : bool :=
  match k with grabber_start => true | _ => false end.
Definition rejects_offset_y (k : sdk_call) : bool :=
  match k with setInteger name _ => String.eqb name "OffsetY" | _ => false end.

(** A 4 x 2 region on the device, as the frames of [Scenario] have it. *)
Definition small (fs : list buffer_info) : EGCamera :=
  mkEGCamera
    (Sim.perform (Sim.perform (Sim.idle Sim.accept_all fs) (setInteger "Width" 4))
       (setInteger "Height" 2))
    Sim.settings0 Sim.capabilities0 0.

(** The cached settings with: a NaN exposure; a pixel type without a
    PixelFormat name; the software trigger enabled on the falling edge;
    both offsets moved. *)
Definition nan_exposure : CameraProperties :=
  mkCameraProperties S754_nan 1 SampleType_u8 (mkOffset 0 0) (mkShape 64 48)
    (mkTrigger 0 0 0 Signal_Input TriggerEdge_Rising).
Definition as_f32 : CameraProperties :=
  mkCameraProperties (f32.of_int 10000) 1 SampleType_f32 (mkOffset 8 0) (mkShape 64 48)
    (mkTrigger 0 0 0 Signal_Input TriggerEdge_Rising).
Definition software_trigger : CameraProperties :=
  mkCameraProperties (f32.of_int 10000) 1 SampleType_u8 (mkOffset 0 0) (mkShape 64 48)
    (mkTrigger 1 1 0 Signal_Output TriggerEdge_Falling).
Definition moved : CameraProperties :=
  mkCameraProperties (f32.of_int 10000) 1 SampleType_u8 (mkOffset 8 16) (mkShape 64 48)
    (mkTrigger 0 0 0 Signal_Input TriggerEdge_Rising).

End SimDriver.

(** A grabber that was not shut down properly: it refuses to start until it
    has been stopped. Its state says whether it has been. *)

Module Unsettled.

#[local] Instance sdk : EGrabberSDK := {|
  Grabber := bool;
  sdk_do stopped k :=
    match k with
    | grabber_start => if stopped then Some stopped else None
    | grabber_stop => Some true
    | _ => Some stopped
    end;
  getFloat _ _ := None;
  getInteger _ _ := None;
  getString _ _ := None;
  getStringList _ _ := None;
  getWidth _ := None;
  getHeight _ := None;
  pop _ := None;
  push stopped := stopped;
  GenTL := unit;
  discover_cameraCount _ := None
|}.

(** A camera on it, some frames into an earlier run. *)
Definition cam : EGCamera := mkEGCamera false Sim.settings0 Sim.capabilities0 7.

End Unsettled.

(** ** The object after a sequence of operations *)

Section Lifetime.

Context `{SDK : EGrabberSDK} `{REP : Representation}.

(** The camera after the operations [os], run one after another. *)
Definition after_ops (os : list op) (c : EGCamera) : EGCamera :=
  fold_left (fun c o => fst (run_op o c)) os c.

End Lifetime.

(** ** Properties *)

Section Properties.

Context `{SDK : EGrabberSDK} `{REP : Representation}.

(** *** Running computations *)


Lemma after_nil {X A} (r : Res X A) : after [] r = r.
Proof. destruct r; reflexivity. Qed.

Lemma bind_after {X A B} (m : M X A) (f : A -> M X B) (c : EGCamera) (x : X) :
  (m ≫= f) c x =
  match result (m c x) with
  | Ok a => after (calls (m c x)) (f a (self' (m c x)) (arg' (m c x)))
  | Throw e => mkRes (Throw e) (self' (m c x)) (arg' (m c x)) (calls (m c x))
  end.
Proof. reflexivity. Qed.

Lemma bind_assoc {X A B C} (m : M X A) (f : A -> M X B) (g : B -> M X C) c x :
  ((m ≫= f) ≫= g) c x = (m ≫= (fun a => f a ≫= g)) c x.
Proof.
  rewrite !bind_after. destruct (result (m c x)) as [a|e] eqn:E; [|reflexivity].
  cbn [after result self' arg' calls]. rewrite bind_after.
  destruct (result (f a _ _)); unfold after; cbn [result self' arg' calls];
    rewrite ?app_assoc; reflexivity.
Qed.

Lemma arg_bind {X B} (f : X -> M X B) c x : (arg ≫= f) c x = f x c x.
Proof. rewrite bind_after. apply after_nil. Qed.

Lemma self_bind {X B} (f : EGCamera -> M X B) c x : (self ≫= f) c x = f c c x.
Proof. rewrite bind_after. apply after_nil. Qed.

Lemma update_settings_bind {X B} g (f : unit -> M X B) c x :
  (update_settings g ≫= f) c x = f tt (with_settings (g (last_known_settings_ c)) c) x.
Proof. rewrite bind_after. apply after_nil. Qed.

Lemma update_self_bind {X B} g (f : unit -> M X B) c x :
  (update_self g ≫= f) c x = f tt (g c) x.
Proof. rewrite bind_after. apply after_nil. Qed.

Lemma update_arg_bind {X B} g (f : unit -> M X B) c x :
  (update_arg g ≫= f) c x = f tt c (g x).
Proof. rewrite bind_after. apply after_nil. Qed.

Lemma ret_bind {X A B} (a : A) (f : A -> M X B) c x :
  ((mret a : M X A) ≫= f) c x = f a c x.
Proof. rewrite bind_after. apply after_nil. Qed.

Lemma EXPECT_bind {X B} (b : bool) (e : expectation) (f : unit -> M X B) c x :
  (EXPECT b e ≫= f) c x =
  if b then f tt c x else mkRes (Throw (runtime_error e)) c x [].
Proof. rewrite bind_after. destruct b; [apply after_nil|reflexivity]. Qed.

Lemma grabber_call_bind {X B} (k : sdk_call) (f : unit -> M X B) c x :
  (grabber_call k ≫= f) c x =
  match sdk_do (grabber_ c) k with
  | Some g => after [k] (f tt (with_grabber g c) x)
  | None => mkRes (Throw sdk_exception) c x [k]
  end.
Proof.
  rewrite bind_after. unfold grabber_call.
  destruct (sdk_do (grabber_ c) k); reflexivity.
Qed.

Lemma grabber_read_bind {X A B} (rd : Grabber -> option A) (f : A -> M X B) c x :
  (grabber_read rd ≫= f) c x =
  match rd (grabber_ c) with
  | Some a => f a c x
  | None => mkRes (Throw sdk_exception) c x []
  end.
Proof.
  rewrite bind_after. unfold grabber_read.
  destruct (rd (grabber_ c)); [apply after_nil|reflexivity].
Qed.

Lemma grabber_call_eq {X} (k : sdk_call) (c : EGCamera) (x : X) :
  grabber_call k c x =
  match sdk_do (grabber_ c) k with
  | Some g => mkRes (Ok tt) (with_grabber g c) x [k]
  | None => mkRes (Throw sdk_exception) c x [k]
  end.
Proof. reflexivity. Qed.

Lemma grabber_read_eq {X A} (rd : Grabber -> option A) (c : EGCamera) (x : X) :
  grabber_read rd c x =
  match rd (grabber_ c) with
  | Some a => mkRes (Ok a) c x []
  | None => mkRes (Throw sdk_exception) c x []
  end.
Proof. reflexivity. Qed.

Lemma ret_eq {X A} (a : A) (c : EGCamera) (x : X) :
  (mret a : M X A) c x = mkRes (Ok a) c x [].
Proof. reflexivity. Qed.

Lemma throw_eq {X A} (e : exn) (c : EGCamera) (x : X) :
  @throw _ X A e c x = mkRes (Throw e) c x [].
Proof. reflexivity. Qed.

Lemma update_arg_eq {X} (g : X -> X) (c : EGCamera) (x : X) :
  update_arg g c x = mkRes (Ok tt) c (g x) [].
Proof. reflexivity. Qed.

Lemma update_self_eq {X} (g : EGCamera -> EGCamera) (c : EGCamera) (x : X) :
  update_self g c x = mkRes (Ok tt) (g c) x [].
Proof. reflexivity. Qed.

Lemma EXPECT_eq {X} (b : bool) (e : expectation) (c : EGCamera) (x : X) :
  EXPECT b e c x = if b then mkRes (Ok tt) c x [] else mkRes (Throw (runtime_error e)) c x [].
Proof. destruct b; reflexivity. Qed.

Lemma with_grabber_id (c : EGCamera) : c = with_grabber (grabber_ c) c.
Proof. destruct c; reflexivity. Qed.

Lemma app_not_nil_r {A} (l1 l2 : list A) : l2 <> [] -> l1 ++ l2 <> [].
Proof. destruct l1, l2; cbn; congruence. Qed.

(** Symbolic execution, one bind at a time. *)
Ltac exec :=
  repeat first
    [ rewrite bind_assoc | rewrite arg_bind | rewrite self_bind
    | rewrite update_settings_bind | rewrite update_arg_bind | rewrite update_self_bind
    | rewrite ret_bind | rewrite EXPECT_bind | rewrite grabber_call_bind
    | rewrite grabber_read_bind | rewrite grabber_call_eq | rewrite grabber_read_eq
    | rewrite ret_eq | rewrite throw_eq | rewrite update_arg_eq | rewrite update_self_eq
    | rewrite EXPECT_eq ];
  cbv beta.

Ltac settle :=
  unfold with_grabber, with_settings, with_frame_id, caps, cached;
  cbn [after result self' arg' calls grabber_ app
       last_known_settings_ last_known_capabilities_ frame_id_
       exposure_time_us binning pixel_type offset shape frame_start
       set_exposure_time_us set_binning set_pixel_type set_offset set_shape
       offset_x offset_y shape_x shape_y andb negb].

Ltac walk :=
  repeat (exec; settle;
          try match goal with
              | |- context [match sdk_do ?d ?k with _ => _ end] =>
                  destruct (sdk_do d k) as [?g|] eqn:?
              end).

Ltac runs_tac :=
  repeat match goal with
  | |- _ /\ _ => split
  | |- forall _, _ => intro
  | H : Ok _ = Ok _ |- _ => injection H as H; subst
  | H : Throw _ = Throw _ |- _ => injection H as H; subst
  | H : Throw _ = Ok _ |- _ => discriminate H
  | H : Ok _ = Throw _ |- _ => discriminate H
  | |- exists g, ?c = with_grabber g ?c => exists (grabber_ c); apply with_grabber_id
  | |- exists g, ?c = mkEGCamera g _ _ _ => exists (grabber_ c); destruct c; reflexivity
  | |- exists g, _ = with_grabber g _ => eexists; reflexivity
  | |- exists g, _ = mkEGCamera g _ _ _ => eexists; reflexivity
  | |- [] `prefix_of` _ => apply prefix_nil
  | |- _ `prefix_of` _ => eexists; reflexivity
  | |- (sdk_exception = sdk_exception /\ _) \/ _ => left; split; [reflexivity|discriminate]
  | |- _ => reflexivity
  | |- _ => congruence
  end.

(** *** The fields of [set], one by one *)



Lemma exposure_step {X} (t l : float) (c : EGCamera) (x : X) :
  let v := clamp_float t (low (meta_exposure_time_us (caps c)))
             (high (meta_exposure_time_us (caps c))) in
  runs_as (maybe_set_exposure_time_us_ t l c x) c x
    (if negb (exposure_changed t l) then [] else [setFloat "ExposureTime" v])
    (if negb (exposure_changed t l) then l else v) never.
Proof.
  intros v. subst v. unfold maybe_set_exposure_time_us_, runs_as, caps.
  destruct (exposure_changed t l); walk; runs_tac.
Qed.

Lemma binning_step {X} (t l : Z) (c : EGCamera) (x : X) :
  let v := clamp_uint8 t (low (meta_binning (caps c))) (high (meta_binning (caps c))) in
  runs_as (maybe_set_binning t l c x) c x
    (if t =? l then []
     else if writable (meta_binning (caps c))
          then [setInteger "BinningHorizontal" v; setInteger "BinningVertical" v]
          else [])
    (if t =? l then l else v) never.
Proof.
  intros v. subst v. unfold maybe_set_binning, runs_as, caps.
  destruct (t =? l); walk; [runs_tac|].
  destruct (writable (meta_binning (last_known_capabilities_ c))); walk; runs_tac.
Qed.


Lemma px_type_step {X} (t l : SampleType) (c : EGCamera) (x : X) :
  runs_as (maybe_set_px_type t l c x) c x
    (if bool_decide (t = l) then []
     else if SampleType_value t <? SampleType_value SampleTypeCount
          then match px_type_inv_table_ t with
               | Some name => [setString "PixelFormat" name]
               | None => []
               end
          else [])
    t (px_type_throws t l).
Proof.
  unfold maybe_set_px_type, runs_as, px_type_throws.
  exec.
  destruct (SampleType_value t <? SampleType_value SampleTypeCount) eqn:Ec; settle.
  - destruct (bool_decide_reflect (t = l)) as [->|Hne]; walk; [runs_tac|].
    destruct (px_type_inv_table_ t) eqn:Ei; walk; runs_tac.
    right. right. auto.
  - destruct (bool_decide (t = l)); runs_tac; right; left; auto.
Qed.

Lemma offset_step {X} (t l : offset_s) (c : EGCamera) (x : X) :
  let vx := clamp_uint32 (offset_x t) (low (meta_offset_x (caps c)))
              (high (meta_offset_x (caps c))) in
  let vy := clamp_uint32 (offset_y t) (low (meta_offset_y (caps c)))
              (high (meta_offset_y (caps c))) in
  runs_as (maybe_set_offset t l c x) c x
    ((if offset_x t =? offset_x l then [] else [setInteger "OffsetX" vx])
     ++ (if offset_y t =? offset_y l then [] else [setInteger "OffsetY" vy]))
    (mkOffset (if offset_x t =? offset_x l then offset_x l else vx)
       (if offset_y t =? offset_y l then offset_y l else vy)) never.
Proof.
  intros vx vy. subst vx vy. unfold maybe_set_offset, runs_as, caps.
  destruct l as [lx ly]. cbn [offset_x offset_y]. rewrite bind_after.
  destruct (offset_x t =? lx) eqn:Ex; destruct (offset_y t =? ly) eqn:Ey;
    walk; rewrite ?Ey; walk; runs_tac.
Qed.

Lemma shape_step {X} (t l : shape_s) (c : EGCamera) (x : X) :
  let vx := clamp_uint32 (shape_x t) (low (meta_shape_x (caps c)))
              (high (meta_shape_x (caps c))) in
  let vy := clamp_uint32 (shape_y t) (low (meta_shape_y (caps c)))
              (high (meta_shape_y (caps c))) in
  runs_as (maybe_set_shape t l c x) c x
    ((if shape_x t =? shape_x l then [] else [setInteger "Width" vx])
     ++ (if shape_y t =? shape_y l then [] else [setInteger "Height" vy]))
    (mkShape (if shape_x t =? shape_x l then shape_x l else vx)
       (if shape_y t =? shape_y l then shape_y l else vy)) never.
Proof.
  intros vx vy. subst vx vy. unfold maybe_set_shape, runs_as, caps.
  destruct l as [lx ly]. cbn [shape_x shape_y]. rewrite bind_after.
  destruct (shape_x t =? lx) eqn:Ex; destruct (shape_y t =? ly) eqn:Ey;
    walk; rewrite ?Ey; walk; runs_tac.
Qed.


Lemma trigger_step (last : Trigger) (c : EGCamera) (p : CameraProperties) :
  let r := maybe_set_trigger last c p in
  let t := frame_start p in
  let plan :=
    if is_equal t last then []
    else if trigger_valid t then
      [setString "TriggerSource" (index sources (line t));
       setString "TriggerMode" (index modes (enable t));
       setString "TriggerActivation"
         (index activations (Z.to_N (TriggerEdge_value (edge t))))]
    else [] in
  (exists g, self' r = with_grabber g c)
  /\ calls r `prefix_of` plan
  /\ (forall e, result r = Throw e ->
        (e = sdk_exception /\ calls r <> []) \/ trigger_throws t last e)
  /\ (forall a, result r = Ok a ->
        calls r = plan /\ (is_equal t last = true \/ trigger_valid t = true)).
Proof.
  intros r t plan. subst r plan. unfold maybe_set_trigger, trigger_throws, trigger_valid.
  rewrite arg_bind. fold t.
  destruct (is_equal t last); [walk; runs_tac; eauto|].
  exec.
  destruct (line t <? 2)%N; settle; [|runs_tac; right; split; [tauto|split; reflexivity]].
  destruct (TriggerEdge_value (edge t) <? 2); settle; [|runs_tac; right; split; [tauto|split; reflexivity]].
  destruct (enable t <? 2)%N; settle; [|runs_tac; right; split; [tauto|split; reflexivity]].
  walk; runs_tac; eauto.
Qed.

(** An invalid record that differs from the cached one is refused before
    anything is written or changed. *)
Lemma trigger_refused (last : Trigger) (c : EGCamera) (p : CameraProperties) :
  is_equal (frame_start p) last = false ->
  trigger_valid (frame_start p) = false ->
  exists E,
    (E = expect_trigger_line_lt_2 \/ E = expect_trigger_edge_lt_2
     \/ E = expect_trigger_enable_lt_2)
    /\ maybe_set_trigger last c p = mkRes (Throw (runtime_error E)) c p [].
Proof.
  intros Hne Hv. unfold maybe_set_trigger, trigger_valid in *.
  rewrite arg_bind, Hne. exec.
  destruct (line (frame_start p) <? 2)%N; [|eauto].
  destruct (TriggerEdge_value (edge (frame_start p)) <? 2); [|eauto].
  destruct (enable (frame_start p) <? 2)%N; [discriminate|eauto 6].
Qed.

(** *** [set] against its plan *)



Lemma facts_throw c p e g s x ks :
  frame_start s = frame_start (cached c) ->
  ks `prefix_of` fields_plan c p ->
  set_throws c p (mkRes (Throw e) (mkEGCamera g s (caps c) (frame_id_ c)) x ks) e ->
  set_facts c p (mkRes (Throw e) (mkEGCamera g s (caps c) (frame_id_ c)) x ks).
Proof.
  intros Hs Hp He. unfold set_facts; cbn [result self' arg' calls].
  split; [eauto|]. split; [|split; [discriminate|split]].
  - unfold planned. apply prefix_app_r, Hp.
  - intros e' [= <-]. left. auto.
  - eauto.
Qed.

Ltac field_throw Hs Ha Hp Ht :=
  rewrite Hs, Ha; settle; apply facts_throw;
  [ reflexivity
  | unfold fields_plan; repeat apply prefix_app; first [apply prefix_app_r | idtac]; exact Hp
  | unfold set_throws; cbn [calls];
    destruct (Ht _ eq_refl) as [[-> Hne] | Hx];
    [ left; split; [reflexivity | repeat apply app_not_nil_r; exact Hne]
    | first [ right; left; exact Hx | right; right; exact Hx | destruct Hx ] ] ].

Ltac field_ok Hs Ha Ho Hv pl :=
  let Hc := fresh "Hc" in
  destruct (Ho _ eq_refl) as [Hv Hc]; rewrite Hs, Ha, Hc;
  match type of Hc with _ = ?e => set (pl := e) in * end;
  clear Hc Hs Ha;
  rewrite update_settings_bind, self_bind, bind_after; settle.

Lemma set_refines (c : EGCamera) (p : CameraProperties) : set_facts c p (set c p).
Proof.
  unfold set. rewrite arg_bind, self_bind, bind_after.
  destruct (exposure_step (exposure_time_us p) (exposure_time_us (last_known_settings_ c)) c p)
    as (Ha & [g1 Hs] & Hp & Ht & Ho).
  destruct (result (maybe_set_exposure_time_us_ _ _ _ _)) as [v1|e] eqn:E1;
    [|field_throw Hs Ha Hp Ht].
  field_ok Hs Ha Ho Hv1 pl1. clear Hp Ht Ho E1.
  match goal with |- context [maybe_set_binning ?t ?l ?c ?x] =>
    destruct (binning_step t l c x) as (Ha & [g2 Hs] & Hp & Ht & Ho) end.
  destruct (result (maybe_set_binning _ _ _ _)) as [v2|e] eqn:E2;
    [|field_throw Hs Ha Hp Ht].
  field_ok Hs Ha Ho Hv2 pl2. clear Hp Ht Ho E2.
  match goal with |- context [maybe_set_px_type ?t ?l ?c ?x] =>
    destruct (px_type_step t l c x) as (Ha & [g3 Hs] & Hp & Ht & Ho) end.
  destruct (result (maybe_set_px_type _ _ _ _)) as [v3|e] eqn:E3;
    [|field_throw Hs Ha Hp Ht].
  field_ok Hs Ha Ho Hv3 pl3. clear Hp Ht Ho E3.
  match goal with |- context [maybe_set_offset ?t ?l ?c ?x] =>
    destruct (offset_step t l c x) as (Ha & [g4 Hs] & Hp & Ht & Ho) end.
  destruct (result (maybe_set_offset _ _ _ _)) as [v4|e] eqn:E4;
    [|field_throw Hs Ha Hp Ht].
  field_ok Hs Ha Ho Hv4 pl4. clear Hp Ht Ho E4.
  match goal with |- context [maybe_set_shape ?t ?l ?c ?x] =>
    destruct (shape_step t l c x) as (Ha & [g5 Hs] & Hp & Ht & Ho) end.
  destruct (result (maybe_set_shape _ _ _ _)) as [v5|e] eqn:E5;
    [|field_throw Hs Ha Hp Ht].
  field_ok Hs Ha Ho Hv5 pl5. clear Hp Ht Ho E5.
  match goal with |- context [maybe_set_trigger ?l ?c ?x] =>
    destruct (trigger_step l c x) as ([g6 Hs] & Hp & Ht & Ho) end.
  destruct (result (maybe_set_trigger _ _ _)) as [[]|e] eqn:E6.
  2:{ rewrite Hs. settle. apply facts_throw;
        [ reflexivity
        | unfold fields_plan; repeat apply prefix_app; exact Hp
        | unfold set_throws; cbn [calls];
          destruct (Ht _ eq_refl) as [[-> Hne] | Hx];
          [ left; split; [reflexivity | repeat apply app_not_nil_r; exact Hne]
          | right; right; exact Hx ] ]. }
  destruct (Ho _ eq_refl) as [Hc6 Hv]. rewrite Hs, Hc6.
  change (is_equal (frame_start p) (frame_start (cached c)) = true
          \/ trigger_valid (frame_start p) = true) in Hv.
  match type of Hc6 with _ = ?e => set (pl6 := e) in * end.
  clear Hs Hp Ht Ho Hc6 E6.
  rewrite grabber_call_eq. settle.
  assert (Hcalls : pl1 ++ pl2 ++ pl3 ++ pl4 ++ pl5 ++ pl6 ++ [reallocBuffers NBUFFERS]
                   = planned c p).
  { unfold planned, fields_plan.
    transitivity ((pl1 ++ pl2 ++ pl3 ++ pl4 ++ pl5 ++ pl6) ++ [reallocBuffers NBUFFERS]);
      [rewrite <- !app_assoc; reflexivity|].
    reflexivity. }
  assert (Hfields : forall g P, P <> P_frame_start ->
            field P (cached (mkEGCamera g
              (set_shape v5 (set_offset v4 (set_pixel_type v3
                 (set_binning v2 (set_exposure_time_us v1 (last_known_settings_ c))))))
              (last_known_capabilities_ c) (frame_id_ c)))
            = reconcile P c p).
  { intros g P HP. subst v1 v2 v3 v4 v5.
    unfold reconcile, unchanged, clamped, field, range, cached, caps.
    destruct P; try congruence;
      cbn [last_known_settings_ exposure_time_us binning pixel_type offset shape
           offset_x offset_y shape_x shape_y
           set_exposure_time_us set_binning set_pixel_type set_offset set_shape];
      repeat match goal with |- context [if ?b then _ else _] => destruct b eqn:? end;
      try reflexivity.
    apply bool_decide_eq_true in Heqb. congruence. }
  clearbody pl1 pl2 pl3 pl4 pl5 pl6.
  destruct (sdk_do g6 (reallocBuffers NBUFFERS)) as [g7|] eqn:E7; settle;
    unfold set_facts, after; cbn [result self' arg' calls].
  - split; [eexists _, _; split; reflexivity|].
    split; [exists []; rewrite app_nil_r; symmetry; exact Hcalls|].
    split; [intros _; split; [exact Hcalls|apply Hfields]|].
    split; [discriminate|].
    intros H1 H2. destruct Hv; congruence.
  - split; [eexists _, _; split; reflexivity|].
    split; [exists []; rewrite app_nil_r; symmetry; exact Hcalls|].
    split; [discriminate|].
    split; [intros e [= <-]; right; split; [reflexivity|exact Hcalls]|].
    intros H1 H2. destruct Hv; congruence.
Qed.

(** *** Calls by feature *)

Lemma calls_on_app names l1 l2 :
  calls_on names (l1 ++ l2) = calls_on names l1 ++ calls_on names l2.
Proof. apply List.filter_app. Qed.

Lemma calls_on_prefix names l1 l2 :
  l1 `prefix_of` l2 -> calls_on names l1 `prefix_of` calls_on names l2.
Proof. intros [k ->]. rewrite calls_on_app. eexists; reflexivity. Qed.

Lemma prefix_of_nil {A} (l : list A) : l `prefix_of` [] -> l = [].
Proof. intros [k Hk]. destruct l; [reflexivity|discriminate]. Qed.

Lemma filter_same F N (l : list sdk_call) :
  forallb (named_in F) l = true ->
  forallb (fun n => bool_decide (n ∈ N)) F = true ->
  calls_on N l = l.
Proof.
  intros Hl HF. unfold calls_on. induction l as [|k l IH]; [reflexivity|].
  cbn in Hl. apply andb_prop in Hl as [Hk Hl]. cbn. rewrite (IH Hl).
  assert (named_in N k = true) as ->; [|reflexivity].
  unfold named_in in *. destruct (call_name k) as [n|]; [|discriminate].
  apply bool_decide_eq_true in Hk. rewrite forallb_forall in HF.
  apply HF. apply list_elem_of_In. exact Hk.
Qed.

Lemma filter_other F N (l : list sdk_call) :
  forallb (named_in F) l = true ->
  forallb (fun n => negb (bool_decide (n ∈ N))) F = true ->
  calls_on N l = [].
Proof.
  intros Hl HF. unfold calls_on. induction l as [|k l IH]; [reflexivity|].
  cbn in Hl. apply andb_prop in Hl as [Hk Hl]. cbn. rewrite (IH Hl).
  assert (named_in N k = false) as ->; [|reflexivity].
  unfold named_in in *. destruct (call_name k) as [n|]; [|discriminate].
  apply bool_decide_eq_true in Hk. rewrite forallb_forall in HF.
  apply negb_true_iff. apply HF. apply list_elem_of_In. exact Hk.
Qed.

Lemma plan_names Q c p : forallb (named_in (features Q)) (plan_of Q c p) = true.
Proof.
  unfold plan_of. destruct (unchanged Q p (cached c)); [reflexivity|].
  destruct (acceptable Q p); [|reflexivity].
  destruct Q; cbn [writes clamped]; try reflexivity.
  - destruct (writable _); reflexivity.
  - destruct (px_type_inv_table_ _); reflexivity.
Qed.

Lemma calls_on_plan_same P c p : calls_on (features P) (plan_of P c p) = plan_of P c p.
Proof.
  apply (filter_same (features P)); [apply plan_names|]. destruct P; reflexivity.
Qed.

Lemma calls_on_plan_other P Q c p :
  P <> Q -> calls_on (features P) (plan_of Q c p) = [].
Proof.
  intros Hne. apply (filter_other (features Q)); [apply plan_names|].
  destruct P, Q; try reflexivity; congruence.
Qed.

Lemma calls_on_fields P c p : calls_on (features P) (fields_plan c p) = plan_of P c p.
Proof.
  unfold fields_plan. rewrite !calls_on_app.
  destruct P;
    repeat match goal with
    | |- context [calls_on (features ?P) (plan_of ?P c p)] => rewrite (calls_on_plan_same P)
    | |- context [calls_on (features ?P) (plan_of ?Q c p)] =>
        rewrite (calls_on_plan_other P Q) by discriminate
    end; cbn [app]; rewrite ?app_nil_r; reflexivity.
Qed.

Lemma calls_on_planned P c p : calls_on (features P) (planned c p) = plan_of P c p.
Proof.
  unfold planned. rewrite calls_on_app, calls_on_fields.
  destruct P; cbn; apply app_nil_r.
Qed.

Lemma set_calls_on P c p :
  calls_on (features P) (calls (set c p)) `prefix_of` plan_of P c p.
Proof.
  rewrite <- calls_on_planned. apply calls_on_prefix.
  apply (set_refines c p).
Qed.

(** C2: for every property [P] of [CameraProperties], the frame-start
    trigger included, if the desired value of [P] equals the cached one (the
    exposure within the 1e-9 epsilon, the trigger as [memcmp] compares the
    two objects, padding bytes included, the others exactly), [set] issues
    no SDK call on the features of [P], however the call ends. *)
Theorem set_skips_unchanged_property (c : EGCamera) (p : CameraProperties) (P : property) :
  unchanged P p (cached c) = true ->
  calls_on (features P) (calls (set c p)) = [].
Proof.
  intros Hu. apply prefix_of_nil. pose proof (set_calls_on P c p) as H.
  unfold plan_of in H. rewrite Hu in H. exact H.
Qed.





Lemma lt_irrefl (x : float) : f32.lt x x = false.
Proof.
  unfold f32.lt, SFltb. destruct x as [s|s| |s m e]; try destruct s; cbn; try reflexivity.
  all: rewrite Z.compare_refl, Pos.compare_cont_refl; reflexivity.
Qed.



Lemma clamped_in_range (P : property) (m : CameraPropertyMetadata) (p : CameraProperties) :
  outside P m p = false -> clamped P m p = field P p.
Proof.
  unfold outside. intros H. apply orb_false_elim in H as [H1 H2].
  destruct P; cbn [clamped field compared] in *; try reflexivity;
    unfold clamp_float, clamp_uint8, clamp_uint32, clamp; cbv zeta;
    unfold id in *; rewrite H1, H2; reflexivity.
Qed.

Lemma plan_of_changed P c p :
  numeric P = true -> unchanged P p (cached c) = false ->
  plan_of P c p = writes P (caps c) (clamped P (caps c) p).
Proof.
  intros Hn Hu. unfold plan_of. rewrite Hu. destruct P; try discriminate; reflexivity.
Qed.


(** C8: when the desired binning differs from the cached binning and the
    capability cache marks binning not writable, [set] issues no call on
    BinningHorizontal or BinningVertical, and when it returns the cached
    binning is the clamped target all the same. *)
Theorem set_caches_unwritable_binning (c : EGCamera) (p : CameraProperties) :
  binning p <> binning (cached c) ->
  writable (meta_binning (caps c)) = false ->
  let r := set c p in
  calls_on (features P_binning) (calls r) = []
  /\ (result r = Ok tt ->
        binning (cached (self' r))
        = clamp_uint8 (binning p) (low (meta_binning (caps c))) (high (meta_binning (caps c)))).
Proof.
  intros Hne Hw r. subst r.
  assert (Hu : unchanged P_binning p (cached c) = false).
  { cbn. apply Z.eqb_neq. exact Hne. }
  split.
  - apply prefix_of_nil. pose proof (set_calls_on P_binning c p) as Hp.
    rewrite (plan_of_changed P_binning c p eq_refl Hu) in Hp.
    cbn [writes clamped] in Hp. rewrite Hw in Hp. exact Hp.
  - intros Hok. destruct (set_refines c p) as (_ & _ & Hk & _).
    destruct (Hk Hok) as [_ Hf]. specialize (Hf P_binning).
    unfold reconcile in Hf. rewrite Hu in Hf. cbn [field clamped range] in Hf.
    assert (H : P_binning <> P_frame_start) by discriminate.
    specialize (Hf H). injection Hf as Hf. exact Hf.
Qed.

Lemma invalid_trigger_spec (t : Trigger) : invalid_trigger t <-> trigger_valid t = false.
Proof.
  unfold invalid_trigger, trigger_valid. split.
  - intros [[H1 H2] | [[H1 H2] | [H1 H2]]].
    + assert ((line t <? 2)%N = false) as -> by (apply N.ltb_ge; lia). reflexivity.
    + assert ((TriggerEdge_value (edge t) <? 2) = false) as ->
        by (destruct (edge t); try congruence; reflexivity).
      rewrite andb_false_r. reflexivity.
    + assert ((enable t <? 2)%N = false) as -> by (apply N.ltb_ge; lia).
      rewrite andb_false_r. reflexivity.
  - intros H. destruct (line t <? 2)%N eqn:E1;
      [|left; apply N.ltb_ge in E1; lia].
    destruct (TriggerEdge_value (edge t) <? 2) eqn:E2;
      [|right; left; destruct (edge t); cbn in E2; try discriminate; split; discriminate].
    cbn in H. right; right. apply N.ltb_ge in H. lia.
Qed.

Lemma is_equal_false (t last : Trigger) : t <> last -> is_equal t last = false.
Proof. intros H. unfold is_equal. apply bool_decide_eq_false. exact H. Qed.

Lemma throws_validation c p r e :
  set_throws c p r e -> error_kind e = ValidationError \/ (e = sdk_exception /\ calls r <> []).
Proof.
  intros [[-> H] | [[[-> _] | [-> _]] | [[-> | [-> | ->]] _]]]; auto.
Qed.

(** C3: for a trigger record that differs from the cached one and is
    invalid (line not in {0,1}, or edge not Rising or Falling, or enable not
    in {0,1}): [set] throws, and what it throws is a ValidationError unless
    the SDK had already rejected a call for an earlier field; the cached
    trigger record is unchanged; no call on TriggerSource, TriggerMode or
    TriggerActivation is issued; the trigger update itself throws the failed
    expectation, a ValidationError, before it touches anything. *)
Theorem set_refuses_invalid_trigger (c : EGCamera) (p : CameraProperties) :
  frame_start p <> frame_start (cached c) ->
  invalid_trigger (frame_start p) ->
  let r := set c p in
  (exists e, result r = Throw e
             /\ (error_kind e = ValidationError \/ (e = sdk_exception /\ calls r <> [])))
  /\ frame_start (cached (self' r)) = frame_start (cached c)
  /\ calls_on (features P_frame_start) (calls r) = []
  /\ (exists E, maybe_set_trigger (frame_start (cached c)) c p
                = mkRes (Throw (runtime_error E)) c p []
                /\ error_kind (runtime_error E) = ValidationError).
Proof.
  intros Hne Hinv r. subst r.
  apply is_equal_false in Hne. apply invalid_trigger_spec in Hinv.
  destruct (set_refines c p) as ((g & s & Hs & Hfs) & _ & _ & _ & Hbad).
  destruct (Hbad Hne Hinv) as (e & He & _ & Ht).
  split; [|split; [|split]].
  - exists e. split; [exact He|]. eapply throws_validation, Ht.
  - rewrite Hs. exact Hfs.
  - apply prefix_of_nil. pose proof (set_calls_on P_frame_start c p) as H.
    unfold plan_of in H. cbn [unchanged acceptable] in H. rewrite Hne, Hinv in H. exact H.
  - destruct (trigger_refused (frame_start (cached c)) c p Hne Hinv) as (E & HE & Hrun).
    exists E. split; [exact Hrun|]. destruct HE as [-> | [-> | ->]]; reflexivity.
Qed.

Lemma reallocates_app l1 l2 : reallocates (l1 ++ l2) = reallocates l1 || reallocates l2.
Proof. apply existsb_app. Qed.

Lemma named_not_realloc F l : forallb (named_in F) l = true -> reallocates l = false.
Proof.
  unfold reallocates. induction l as [|k l IH]; [reflexivity|].
  cbn. intros H. apply andb_prop in H as [Hk Hl]. rewrite (IH Hl).
  destruct k; try discriminate; reflexivity.
Qed.

Lemma fields_plan_no_realloc c p : reallocates (fields_plan c p) = false.
Proof.
  unfold fields_plan. rewrite !reallocates_app.
  rewrite !(named_not_realloc _ _ (plan_names _ c p)). reflexivity.
Qed.

Lemma prefix_no_realloc l1 l2 :
  l1 `prefix_of` l2 -> reallocates l2 = false -> reallocates l1 = false.
Proof.
  intros [k ->]. rewrite reallocates_app. intros H. apply orb_false_elim in H. tauto.
Qed.

(** C7, amended: the six fields issue no reallocation; when [set]
    returns, its calls are those of the fields followed by
    [reallocBuffers(NBUFFERS)]; when [set] throws it has not reallocated,
    unless what threw is that last reallocation itself; and when no field
    changed (and the pixel type is one that can be set) the reallocation is
    the one call issued. *)
Theorem set_reallocates_after_fields (c : EGCamera) (p : CameraProperties) :
  let r := set c p in
  reallocates (fields_plan c p) = false
  /\ (result r = Ok tt -> calls r = fields_plan c p ++ [reallocBuffers NBUFFERS])
  /\ (forall e, result r = Throw e ->
        reallocates (calls r) = false
        \/ (e = sdk_exception /\ calls r = fields_plan c p ++ [reallocBuffers NBUFFERS]))
  /\ ((forall P, unchanged P p (cached c) = true) ->
      acceptable P_pixel_type p = true ->
      calls r = [reallocBuffers NBUFFERS]).
Proof.
  intros r. subst r.
  destruct (set_refines c p) as (_ & Hpre & Hok & Hthrow & _).
  split; [apply fields_plan_no_realloc|]. split; [|split].
  - intros H. apply Hok, H.
  - intros e He. destruct (Hthrow e He) as [[Hp _] | [-> Hc]].
    + left. eapply prefix_no_realloc; [exact Hp|apply fields_plan_no_realloc].
    + right. split; [reflexivity|exact Hc].
  - intros Hall Hacc.
    assert (Hnil : fields_plan c p = []).
    { unfold fields_plan, plan_of. rewrite !Hall. reflexivity. }
    destruct (result (set c p)) as [[]|e] eqn:E.
    + rewrite (proj1 (Hok eq_refl)). unfold planned. rewrite Hnil. reflexivity.
    + destruct (Hthrow e eq_refl) as [[Hp Ht] | [-> Hc]].
      * rewrite Hnil in Hp. apply prefix_of_nil in Hp.
        destruct Ht as [[_ H] | [[[_ H] | [_ [H _]]] | [_ [H _]]]].
        -- congruence.
        -- unfold acceptable in Hacc. congruence.
        -- pose proof (Hall P_pixel_type) as H'. unfold unchanged in H'. congruence.
        -- pose proof (Hall P_frame_start) as H'. unfold unchanged in H'. congruence.
      * rewrite Hc. unfold planned. rewrite Hnil. reflexivity.
Qed.




Lemma keeps_bind {X A B} (m : M X A) (f : A -> M X B) :
  keeps_frame_id m -> (forall a, keeps_frame_id (f a)) -> keeps_frame_id (m ≫= f).
Proof.
  intros Hm Hf c x. rewrite bind_after. specialize (Hm c x).
  destruct (result (m c x)); cbn [after self']; [rewrite Hf|]; exact Hm.
Qed.

Lemma keeps_ret {X A} (a : A) : keeps_frame_id (mret a : M X A).
Proof. intros c x. reflexivity. Qed.
Lemma keeps_throw {X A} (e : exn) : keeps_frame_id (@throw _ X A e).
Proof. intros c x. reflexivity. Qed.
Lemma keeps_arg {X} : keeps_frame_id (@arg _ X).
Proof. intros c x. reflexivity. Qed.
Lemma keeps_self {X} : keeps_frame_id (@self _ X).
Proof. intros c x. reflexivity. Qed.
Lemma keeps_update_arg {X} (g : X -> X) : keeps_frame_id (update_arg g).
Proof. intros c x. reflexivity. Qed.
Lemma keeps_with_settings {X} (p : CameraProperties) :
  keeps_frame_id (@update_self _ X (with_settings p)).
Proof. intros c x. reflexivity. Qed.
Lemma keeps_EXPECT {X} b e : keeps_frame_id (@EXPECT _ X b e).
Proof. intros c x. destruct b; reflexivity. Qed.
Lemma keeps_grabber_call {X} k : keeps_frame_id (@grabber_call _ X k).
Proof. intros c x. unfold grabber_call. destruct (sdk_do _ _); reflexivity. Qed.
Lemma keeps_grabber_read {X A} (rd : Grabber -> option A) : keeps_frame_id (@grabber_read _ X A rd).
Proof. intros c x. unfold grabber_read. destruct (rd _); reflexivity. Qed.

Ltac keeps :=
  repeat first
    [ apply keeps_bind | apply keeps_ret | apply keeps_throw | apply keeps_arg
    | apply keeps_self | apply keeps_update_arg | apply keeps_with_settings
    | apply keeps_EXPECT | apply keeps_grabber_call | apply keeps_grabber_read
    | match goal with |- forall _, _ => intro end | progress cbv zeta
    | match goal with
      | |- keeps_frame_id (match ?x with _ => _ end) => destruct x
      end ].

Lemma get_keeps_frame_id : keeps_frame_id get.
Proof. unfold get. keeps. Qed.

Lemma get_meta_keeps_frame_id : keeps_frame_id get_meta.
Proof.
  unfold get_meta, query_exposure_time_capabilities_, query_binning_capabilities_,
    query_roi_offset_capabilities_, query_roi_shape_capabilities_,
    query_pixel_type_capabilities_, query_triggering_capabilities_, query_integer_range.
  keeps.
Qed.

Lemma get_shape_keeps_frame_id : keeps_frame_id get_shape.
Proof. unfold get_shape. keeps. Qed.

Lemma stop_keeps_frame_id {X} : keeps_frame_id (@stop _ X).
Proof. unfold stop. keeps. Qed.

Lemma execute_trigger_keeps_frame_id {X} : keeps_frame_id (@execute_trigger _ X).
Proof. unfold execute_trigger. keeps. Qed.

Lemma set_keeps_frame_id : keeps_frame_id set.
Proof.
  intros c p. destruct (set_refines c p) as ((g & s & -> & _) & _). reflexivity.
Qed.

Lemma start_resets_frame_id {X} (c : EGCamera) (x : X) : frame_id_ (self' (start c x)) = 0.
Proof.
  unfold start. rewrite update_self_bind.
  assert (H : keeps_frame_id
            (grabber_call (reallocBuffers NBUFFERS) ≫= fun _ : unit =>
             (grabber_call grabber_start : M X unit))) by keeps.
  rewrite H. reflexivity.
Qed.

Lemma get_frame_counter (nbytes : Z) (c : EGCamera) (out : frame_out) :
  let r := get_frame nbytes c out in
  match result r with
  | Ok _ =>
      hardware_frame_id (info (arg' r)) = frame_id_ c
      /\ frame_id_ (self' r) = uint64_t (frame_id_ c + 1)
  | Throw _ => frame_id_ (self' r) = frame_id_ c /\ arg' r = out
  end.
Proof.
  unfold get_frame, ScopedBuffer.
  destruct (pop (grabber_ c)) as [[buffer g]|]; [|cbn; auto].
  rewrite EXPECT_bind. destruct (buf_size buffer <=? nbytes); [|cbn; auto].
  destruct (buf_base buffer) as [base|]; [|cbn; auto].
  exec. cbn. auto.
Qed.

Lemma uint64_t_id (z : Z) : 0 <= z < 2 ^ 64 -> uint64_t z = z.
Proof. intros H. unfold uint64_t. apply Z.mod_small. exact H. Qed.

(** C5: over every sequence of operations (shorter than the 2^64 the
    counter can hold), the frame ids returned are those the spec promises:
    0 for the first frame after a [start], one more for each further frame,
    and a failed [get_frame], like every other operation, leaves the count
    where it was. *)
Theorem frame_ids_count_from_start (os : list op) : forall (c : EGCamera),
  0 <= frame_id_ c ->
  frame_id_ c + Z.of_nat (length os) < 2 ^ 64 ->
  frame_ids_from (frame_id_ c) (run os c).
Proof.
  induction os as [|o os IH]; intros c H0 Hlen; [exact I|].
  cbn [length] in Hlen. rewrite Nat2Z.inj_succ in Hlen.
  cbn [run].
  assert (Hkeep : forall c', frame_id_ c' = frame_id_ c ->
                     frame_ids_from (frame_id_ c) (run os c')).
  { intros c' Hc'. rewrite <- Hc'. apply IH; rewrite Hc'; lia. }
  destruct o; cbn [run_op fst snd frame_ids_from].
  - apply Hkeep, set_keeps_frame_id.
  - apply Hkeep, get_keeps_frame_id.
  - apply Hkeep, get_meta_keeps_frame_id.
  - apply Hkeep, get_shape_keeps_frame_id.
  - rewrite <- (start_resets_frame_id c tt) at 1. apply IH;
      rewrite start_resets_frame_id; lia.
  - apply Hkeep, stop_keeps_frame_id.
  - apply Hkeep, execute_trigger_keeps_frame_id.
  - pose proof (get_frame_counter nbytes c out) as H. cbv zeta in H.
    destruct (result (get_frame nbytes c out)).
    + destruct H as [Hid Hnext]. split; [exact Hid|].
      rewrite uint64_t_id in Hnext by lia.
      rewrite <- Hnext. apply IH; rewrite Hnext; lia.
    + apply Hkeep, H.
Qed.

(** C4: when the frame delivered to [get_frame] is larger than the caller's
    capacity, the call throws the failed capacity check, a CapacityError;
    the caller's buffer and info are as before; the frame counter is as
    before; the frame has been handed back to the pool. *)
Theorem get_frame_capacity_guard (c : EGCamera) (out : frame_out) (nbytes : Z)
    (buffer : buffer_info) (g : Grabber) :
  pop (grabber_ c) = Some (buffer, g) ->
  nbytes < buf_size buffer ->
  let r := get_frame nbytes c out in
  result r = Throw (runtime_error expect_nbytes_ge_size)
  /\ error_kind (runtime_error expect_nbytes_ge_size) = CapacityError
  /\ arg' r = out
  /\ frame_id_ (self' r) = frame_id_ c
  /\ self' r = with_grabber (push g) c.
Proof.
  intros Hpop Hlt r. subst r. unfold get_frame, ScopedBuffer. rewrite Hpop.
  rewrite EXPECT_bind.
  assert ((buf_size buffer <=? nbytes) = false) as -> by (apply Z.leb_gt; exact Hlt).
  cbn. auto.
Qed.

(** *** Pixel formats *)


Lemma unmodelled_is_unknown (v : string) :
  modelled v = false -> at_or px_type_table_ v SampleType_Unknown = SampleType_Unknown.
Proof.
  unfold modelled. intros H. apply bool_decide_eq_false in H.
  unfold at_or, px_type_table_. cbn [list_to_map foldr fst snd].
  rewrite !lookup_insert_ne, lookup_empty; [reflexivity|..];
    intros <-; apply H; set_solver.
Qed.

Lemma modelled_is_known (v : string) :
  modelled v = true -> at_or px_type_table_ v SampleType_Unknown <> SampleType_Unknown.
Proof.
  unfold modelled. intros H. apply bool_decide_eq_true in H.
  repeat (apply elem_of_cons in H as [-> | H]; [vm_compute; discriminate|]).
  apply elem_of_nil in H. destruct H.
Qed.

Lemma bit_of_type (t : SampleType) (i : Z) :
  0 <= i ->
  Z.testbit (uint64_t (Z.shiftl 1 (SampleType_value t))) i = (SampleType_value t =? i).
Proof.
  intros Hi.
  replace (uint64_t (Z.shiftl 1 (SampleType_value t))) with (2 ^ SampleType_value t)
    by (destruct t; reflexivity).
  apply Z.pow2_bits_eqb. destruct t; cbn; lia.
Qed.

Lemma fold_mask_bits (vs : list string) : forall (acc i : Z),
  0 <= i ->
  Z.testbit (fold_left add_pixel_type vs acc) i
  = Z.testbit acc i
    || existsb (fun v => SampleType_value (at_or px_type_table_ v SampleType_Unknown) =? i) vs.
Proof.
  induction vs as [|v vs IH]; intros acc i Hi; cbn [fold_left existsb].
  - rewrite orb_false_r. reflexivity.
  - rewrite IH by exact Hi. unfold add_pixel_type.
    rewrite Z.lor_spec, bit_of_type by exact Hi. rewrite orb_assoc. reflexivity.
Qed.

Lemma mask_bits (vs : list string) (i : Z) :
  0 <= i ->
  Z.testbit (pixel_type_mask vs) i
  = existsb (fun v => SampleType_value (at_or px_type_table_ v SampleType_Unknown) =? i) vs.
Proof.
  intros Hi. unfold pixel_type_mask. rewrite fold_mask_bits by exact Hi.
  rewrite Z.bits_0. reflexivity.
Qed.

Lemma unknown_bit (vs : list string) :
  Z.testbit (pixel_type_mask vs) (SampleType_value SampleType_Unknown)
  = existsb (fun v => negb (modelled v)) vs.
Proof.
  rewrite mask_bits by (cbn; lia). induction vs as [|v vs IH]; [reflexivity|].
  cbn [existsb]. rewrite IH. f_equal.
  destruct (modelled v) eqn:E.
  - apply modelled_is_known in E. cbn [negb].
    destruct (at_or px_type_table_ v SampleType_Unknown); try reflexivity. congruence.
  - rewrite (unmodelled_is_unknown v E). reflexivity.
Qed.

Ltac reads :=
  repeat (exec; settle;
          try match goal with
              | |- context [match ?o with Some _ => _ | None => _ end] =>
                  destruct o eqn:?; [|try (intros; discriminate)]
              end).

Lemma query_pixel_types_run (c : EGCamera) (m : CameraPropertyMetadata) (vs : list string) :
  getStringList (grabber_ c) (query_enumEntries "PixelFormat") = Some vs ->
  query_pixel_type_capabilities_ c m
  = mkRes (Ok tt) c (set_supported_pixel_types (pixel_type_mask vs)
                       (set_supported_pixel_types 0 m)) [].
Proof.
  intros H. unfold query_pixel_type_capabilities_. exec. rewrite H. reflexivity.
Qed.

Lemma get_meta_mask (c : EGCamera) (m : CameraPropertyMetadata) (vs : list string) :
  getStringList (grabber_ c) (query_enumEntries "PixelFormat") = Some vs ->
  result (get_meta c m) = Ok tt ->
  supported_pixel_types (arg' (get_meta c m)) = pixel_type_mask vs.
Proof.
  intros H.
  unfold get_meta, query_exposure_time_capabilities_, query_binning_capabilities_,
    query_roi_offset_capabilities_, query_roi_shape_capabilities_,
    query_pixel_type_capabilities_, query_triggering_capabilities_, query_integer_range.
  exec. settle.
  destruct (getString (grabber_ c) (query_info "ExposureTime" "Unit")); [|discriminate].
  destruct (String.eqb _ _); [|discriminate].
  reads. intros _. cbn -[pixel_type_mask]. congruence.
Qed.

(** C6, amended: whatever list of pixel-format strings the device reports,
    the pixel-type query does not throw and [get_meta], when it returns,
    leaves their mask in [supported_pixel_types]; bit [i] of the mask is set
    exactly when some reported string maps to the sample type of value [i];
    a string the adapter does not model maps to [SampleType_Unknown], so the
    bit of [SampleType_Unknown] is set exactly when such a string is
    reported, and it is none of the modelled types' bits. *)
Theorem get_meta_pixel_type_mask (c : EGCamera) (m : CameraPropertyMetadata)
    (vs : list string) :
  getStringList (grabber_ c) (query_enumEntries "PixelFormat") = Some vs ->
  result (query_pixel_type_capabilities_ c m) = Ok tt
  /\ (result (get_meta c m) = Ok tt ->
      supported_pixel_types (arg' (get_meta c m)) = pixel_type_mask vs)
  /\ (forall i, 0 <= i ->
        Z.testbit (pixel_type_mask vs) i
        = existsb (fun v => SampleType_value (at_or px_type_table_ v SampleType_Unknown) =? i)
            vs)
  /\ (forall v, modelled v = false ->
        at_or px_type_table_ v SampleType_Unknown = SampleType_Unknown)
  /\ (forall v, modelled v = true ->
        at_or px_type_table_ v SampleType_Unknown <> SampleType_Unknown)
  /\ Z.testbit (pixel_type_mask vs) (SampleType_value SampleType_Unknown)
     = existsb (fun v => negb (modelled v)) vs.
Proof.
  intros H. split; [|split; [|split; [|split; [|split]]]].
  - rewrite (query_pixel_types_run c m vs H). reflexivity.
  - apply get_meta_mask, H.
  - intros i Hi. apply mask_bits, Hi.
  - apply unmodelled_is_unknown.
  - apply modelled_is_known.
  - apply unknown_bit.
Qed.


(** *** Reading the trigger back *)




Ltac answered :=
  repeat (exec; settle;
          try match goal with
              | H : ?o = Some _ |- context [match ?o with Some _ => _ | None => _ end] =>
                  rewrite H
              end).


(** C10: [eecam_device_count] returns 0 when the driver handle is null and
    when [device_count] throws, whatever it throws. *)
Theorem eecam_device_count_swallows_failures (self_ : option EGDriver) :
  (self_ = None \/ exists d e, self_ = Some d /\ device_count d = Throw e) ->
  eecam_device_count self_ = 0.
Proof.
  intros [-> | (d & e & -> & H)]; [reflexivity|].
  unfold eecam_device_count. rewrite H. reflexivity.
Qed.



(** *** More of [set], [get], [get_meta] and the streaming methods *)

Lemma within_clamp {T} (to_float : T -> float) (static_cast : float -> T)
    (val : T) (r : Property) :
  to_float (static_cast (low r)) = low r -> to_float (static_cast (high r)) = high r ->
  ordered r ->
  within r (to_float (clamp to_float static_cast val (low r) (high r))) = true.
Proof.
  intros Hlo Hhi Ho. unfold within, clamp, ordered in *.
  destruct (f32.lt (to_float val) (low r)) eqn:E1.
  - rewrite Hlo, lt_irrefl, Ho. reflexivity.
  - destruct (f32.lt (high r) (to_float val)) eqn:E2.
    + rewrite Hhi, lt_irrefl, Ho. reflexivity.
    + rewrite E1, E2. reflexivity.
Qed.

Lemma writes_within P m p k :
  numeric P = true -> bounds_integral P m -> ordered (range P m) ->
  In k (writes P m (clamped P m p)) ->
  exists f, carried k = Some f /\ within (range P m) f = true.
Proof.
  unfold bounds_integral, integral.
  destruct P; try discriminate; intros _ Hb Ho; cbn [writes clamped].
  - intros [<-|[]]. eexists; split; [reflexivity|].
    apply (within_clamp id id); auto.
  - destruct (writable (meta_binning m)); [|intros []].
    intros [<-|[<-|[]]]; (eexists; split; [reflexivity|]);
      apply (within_clamp f32.of_int (f32.to_unsigned 8)); tauto.
  - intros [<-|[]]. eexists; split; [reflexivity|].
    apply (within_clamp f32.of_int (f32.to_unsigned 32)); tauto.
  - intros [<-|[]]. eexists; split; [reflexivity|].
    apply (within_clamp f32.of_int (f32.to_unsigned 32)); tauto.
  - intros [<-|[]]. eexists; split; [reflexivity|].
    apply (within_clamp f32.of_int (f32.to_unsigned 32)); tauto.
  - intros [<-|[]]. eexists; split; [reflexivity|].
    apply (within_clamp f32.of_int (f32.to_unsigned 32)); tauto.
Qed.

Lemma prefix_of_In {A} (l1 l2 : list A) (a : A) : l1 `prefix_of` l2 -> In a l1 -> In a l2.
Proof. intros [k ->] H. apply in_or_app. auto. Qed.

(** X1: every number [set] hands to the device for a numeric property lies
    within the property's capability range, provided the range is not
    inverted and the bounds of an integer property are integers. *)
Theorem set_writes_within_range (c : EGCamera) (p : CameraProperties) (P : property)
    (k : sdk_call) :
  numeric P = true ->
  bounds_integral P (caps c) ->
  ordered (range P (caps c)) ->
  In k (calls_on (features P) (calls (set c p))) ->
  exists f, carried k = Some f /\ within (range P (caps c)) f = true.
Proof.
  intros Hn Hb Ho Hk.
  apply (prefix_of_In _ _ _ (set_calls_on P c p)) in Hk.
  unfold plan_of in Hk. destruct (unchanged P p (cached c)); [destruct Hk|].
  destruct (acceptable P p); [|destruct Hk].
  eapply writes_within; eassumption.
Qed.

Lemma nan_unchanged (t l : float) :
  t = S754_nan \/ l = S754_nan -> exposure_changed t l = false.
Proof.
  intros [-> | ->]; unfold exposure_changed, f32.sub, f32.fabsf, f32.to_double, f32.lt.
  - reflexivity.
  - destruct t as [s|s| |s m e]; reflexivity.
Qed.

(** X2: a NaN exposure, requested or cached, counts as unchanged: [set]
    issues no call on ExposureTime and, when it returns, the cached exposure
    is what it was. *)
Theorem set_ignores_nan_exposure (c : EGCamera) (p : CameraProperties) :
  exposure_time_us p = S754_nan \/ exposure_time_us (cached c) = S754_nan ->
  let r := set c p in
  calls_on (features P_exposure_time_us) (calls r) = []
  /\ (result r = Ok tt ->
      exposure_time_us (cached (self' r)) = exposure_time_us (cached c)).
Proof.
  intros Hnan r. subst r.
  assert (Hu : unchanged P_exposure_time_us p (cached c) = true).
  { cbn [unchanged]. rewrite (nan_unchanged _ _ Hnan). reflexivity. }
  split.
  - apply prefix_of_nil. pose proof (set_calls_on P_exposure_time_us c p) as H.
    unfold plan_of in H. rewrite Hu in H. exact H.
  - intros Hok. destruct (set_refines c p) as (_ & _ & Hk & _).
    destruct (Hk Hok) as [_ Hf].
    assert (HP : P_exposure_time_us <> P_frame_start) by discriminate.
    specialize (Hf _ HP). unfold reconcile in Hf. rewrite Hu in Hf.
    cbn [field] in Hf. congruence.
Qed.

Lemma px_type_table_lookup (name : string) (t : SampleType) :
  px_type_table_ !! name = Some t <-> px_type_inv_table_ t = Some name.
Proof.
  split.
  - intros H. apply elem_of_list_to_map_2 in H.
    repeat (apply elem_of_cons in H as [[= -> ->]|H]; [reflexivity|]).
    apply elem_of_nil in H. destruct H.
  - destruct t; cbn; intros [= <-]; reflexivity.
Qed.

(** X3: the two pixel-format tables are inverse to each other: a name maps
    to a sample type in [px_type_table_] exactly when the sample type maps
    to that name in [px_type_inv_table_]; so a pixel type [set] writes is the
    pixel type [get] and [get_shape] read back, and a type with no name
    is never what they read. *)
Theorem px_type_tables_inverse (name : string) (t : SampleType) :
  (px_type_table_ !! name = Some t <-> px_type_inv_table_ t = Some name)
  /\ (px_type_inv_table_ t = Some name -> at_or px_type_table_ name SampleType_Unknown = t)
  /\ (px_type_inv_table_ t = None -> t <> SampleType_Unknown ->
      at_or px_type_table_ name SampleType_Unknown <> t).
Proof.
  split; [apply px_type_table_lookup|split].
  - intros H. apply px_type_table_lookup in H. unfold at_or. rewrite H. reflexivity.
  - intros Hn Hu. unfold at_or.
    destruct (px_type_table_ !! name) as [t'|] eqn:E; [|congruence].
    apply px_type_table_lookup in E. congruence.
Qed.

(** X4: the strings [maybe_set_trigger] writes for an accepted record are
    decoded by the tables of [get] to the same line and the same edge. *)
Theorem trigger_strings_round_trip (t : Trigger) :
  trigger_valid t = true ->
  Z.to_N (TrigSrc_value (at_or trig_src_table_ (index sources (line t)) Trig_Unknown)) = line t
  /\ at_or trig_src_table_ (index sources (line t)) Trig_Unknown <> Trig_Unknown
  /\ at_or trig_edge_table_ (index activations (Z.to_N (TriggerEdge_value (edge t))))
       TriggerEdge_Unknown = edge t.
Proof.
  unfold trigger_valid. intros H.
  apply andb_prop in H as [H He]. apply andb_prop in H as [Hl Hd].
  apply N.ltb_lt in Hl. apply Z.ltb_lt in Hd.
  assert (Hline : line t = 0%N \/ line t = 1%N) by lia.
  assert (Hedge : edge t = TriggerEdge_Rising \/ edge t = TriggerEdge_Falling).
  { destruct (edge t); cbn in Hd; try lia; auto. }
  destruct Hline as [-> | ->], Hedge as [-> | ->];
    (split; [|split]); try reflexivity; discriminate.
Qed.

Lemma px_type_passes {X} (t l : SampleType) (c : EGCamera) (x : X) (a : SampleType) :
  result (maybe_set_px_type t l c x) = Ok a -> accepts_px_type t l = true.
Proof.
  unfold maybe_set_px_type, accepts_px_type. exec.
  destruct (SampleType_value t <? SampleType_value SampleTypeCount); [|discriminate].
  destruct (bool_decide (t = l)); [reflexivity|]. cbn [negb andb orb].
  destruct (px_type_inv_table_ t); [reflexivity|]. rewrite throw_eq. discriminate.
Qed.

Lemma trigger_pointee (last : Trigger) (c : EGCamera) (p : CameraProperties) :
  let r := maybe_set_trigger last c p in
  (arg' r = if negb (is_equal (frame_start p) last) && trigger_valid (frame_start p)
            then forced p else p)
  /\ (forall e, result r = Throw e -> e = sdk_exception ->
        trigger_valid (frame_start p) = true /\ is_equal (frame_start p) last = false).
Proof.
  intros r. subst r. unfold maybe_set_trigger, trigger_valid, forced.
  rewrite arg_bind.
  destruct (is_equal (frame_start p) last); [walk; runs_tac|].
  exec.
  destruct (line (frame_start p) <? 2)%N; settle; [|runs_tac].
  destruct (TriggerEdge_value (edge (frame_start p)) <? 2); settle; [|runs_tac].
  destruct (enable (frame_start p) <? 2)%N; settle; [|runs_tac].
  walk; runs_tac.
Qed.

Lemma stopped_throw (k : nat) c p e g s x ks ks0 :
  (k < 5)%nat ->
  ks0 = plans_upto k c p ++ ks ->
  frame_start s = frame_start (cached c) ->
  (forall P, P <> P_frame_start ->
     field P s = if (stage P <? k)%nat then reconcile P c p else field P (cached c)) ->
  ks `prefix_of` stage_plan k c p ->
  ((e = sdk_exception /\ ks <> [])
   \/ (k = 2%nat /\ ks = [] /\ px_type_throws (pixel_type p) (pixel_type (cached c)) e)) ->
  ((2 < k)%nat -> accepts_px_type (pixel_type p) (pixel_type (cached c)) = true) ->
  x = p ->
  stopped_at k c p (mkRes (Throw e) (mkEGCamera g s (caps c) (frame_id_ c)) x ks0).
Proof.
  intros Hk -> Hs Hf Hp He Ha ->. unfold stopped_at; cbn [result self' arg' calls].
  split; [eauto|]. split; [|split; [exact Ha|split; [lia|]]].
  - exists ks. split; [reflexivity|]. split; [exact Hp|]. split; [lia|]. tauto.
  - replace (5 <=? k)%nat with false; [reflexivity|].
    symmetry. apply Nat.leb_gt. exact Hk.
Qed.

Ltac fields_tac :=
  let P := fresh "P" in let HP := fresh "HP" in
  intros P HP; subst;
  unfold reconcile, unchanged, clamped, field, range, cached, caps;
  destruct P; try congruence;
  cbn [stage Nat.ltb Nat.leb
       last_known_settings_ exposure_time_us binning pixel_type offset shape
       offset_x offset_y shape_x shape_y
       set_exposure_time_us set_binning set_pixel_type set_offset set_shape];
  repeat match goal with |- context [if ?b then _ else _] => destruct b eqn:? end;
  try reflexivity;
  try (match goal with H : bool_decide _ = true |- _ =>
         apply bool_decide_eq_true in H; congruence end).

Lemma px_type_throw_calls {X} (t l : SampleType) (c : EGCamera) (x : X) (e : exn) :
  result (maybe_set_px_type t l c x) = Throw e ->
  (e = sdk_exception /\ calls (maybe_set_px_type t l c x) <> [])
  \/ (calls (maybe_set_px_type t l c x) = [] /\ px_type_throws t l e).
Proof.
  unfold maybe_set_px_type, px_type_throws.
  exec.
  destruct (SampleType_value t <? SampleType_value SampleTypeCount) eqn:Ec; settle.
  - destruct (bool_decide_reflect (t = l)) as [->|Hne]; walk; [runs_tac|].
    destruct (px_type_inv_table_ t) eqn:Ei; walk; runs_tac.
    right. split; [reflexivity|]. right. auto.
  - intros [= <-]. right. split; [reflexivity|]. left. auto.
Qed.

Ltac stage_throw k Hs Ha Hp Ht Hpx :=
  rewrite Hs, Ha; settle; exists k;
  match type of Hp with
  | ?kk `prefix_of` _ =>
      apply (stopped_throw k) with (ks := kk);
      [ lia
      | cbn [plans_upto app]; rewrite <- ?app_assoc; reflexivity
      | reflexivity
      | fields_tac
      | exact Hp
      | first
          [ destruct (Ht _ eq_refl) as [Hx|[]]; left; exact Hx
          | destruct (px_type_throw_calls _ _ _ _ _ Ht) as [Hx|[Hx1 Hx2]];
            [ left; exact Hx | right; split; [reflexivity|split; assumption] ] ]
      | first [ intros; lia | intros _; exact Hpx ]
      | reflexivity ]
  end.

Ltac stage_ok Hs Ha Ho Hv pl :=
  let Hc := fresh "Hc" in
  destruct (Ho _ eq_refl) as [Hv Hc]; rewrite Hs, Ha, Hc;
  match type of Hc with _ = ?e => set (pl := e) in * end;
  clear Hc Hs Ha;
  rewrite update_settings_bind, self_bind, bind_after; settle.

Lemma set_stages (c : EGCamera) (p : CameraProperties) :
  exists k, stopped_at k c p (set c p).
Proof.
  unfold set. rewrite arg_bind, self_bind, bind_after.
  destruct (exposure_step (exposure_time_us p) (exposure_time_us (last_known_settings_ c)) c p)
    as (Ha & [g1 Hs] & Hp & Ht & Ho).
  destruct (result (maybe_set_exposure_time_us_ _ _ _ _)) as [v1|e] eqn:E1;
    [|stage_throw 0%nat Hs Ha Hp Ht I].
  stage_ok Hs Ha Ho Hv1 pl1. clear Hp Ht Ho E1.
  match goal with |- context [maybe_set_binning ?t ?l ?c ?x] =>
    destruct (binning_step t l c x) as (Ha & [g2 Hs] & Hp & Ht & Ho) end.
  destruct (result (maybe_set_binning _ _ _ _)) as [v2|e] eqn:E2;
    [|stage_throw 1%nat Hs Ha Hp Ht I].
  stage_ok Hs Ha Ho Hv2 pl2. clear Hp Ht Ho E2.
  match goal with |- context [maybe_set_px_type ?t ?l ?c ?x] =>
    destruct (px_type_step t l c x) as (Ha & [g3 Hs] & Hp & Ht & Ho) end.
  destruct (result (maybe_set_px_type _ _ _ _)) as [v3|e] eqn:E3.
  2:{ stage_throw 2%nat Hs Ha Hp E3 I. }
  pose proof (px_type_passes _ _ _ _ _ E3) as Hpx.
  stage_ok Hs Ha Ho Hv3 pl3. clear Hp Ht Ho E3.
  match goal with |- context [maybe_set_offset ?t ?l ?c ?x] =>
    destruct (offset_step t l c x) as (Ha & [g4 Hs] & Hp & Ht & Ho) end.
  destruct (result (maybe_set_offset _ _ _ _)) as [v4|e] eqn:E4;
    [|stage_throw 3%nat Hs Ha Hp Ht Hpx].
  stage_ok Hs Ha Ho Hv4 pl4. clear Hp Ht Ho E4.
  match goal with |- context [maybe_set_shape ?t ?l ?c ?x] =>
    destruct (shape_step t l c x) as (Ha & [g5 Hs] & Hp & Ht & Ho) end.
  destruct (result (maybe_set_shape _ _ _ _)) as [v5|e] eqn:E5;
    [|stage_throw 4%nat Hs Ha Hp Ht Hpx].
  stage_ok Hs Ha Ho Hv5 pl5. clear Hp Ht Ho E5.
  assert (Hfields : forall g P, P <> P_frame_start ->
            field P (cached (mkEGCamera g
              (set_shape v5 (set_offset v4 (set_pixel_type v3
                 (set_binning v2 (set_exposure_time_us v1 (last_known_settings_ c))))))
              (last_known_capabilities_ c) (frame_id_ c)))
            = reconcile P c p).
  { intros g. fields_tac. }
  match goal with |- context [maybe_set_trigger ?l ?c ?x] =>
    destruct (trigger_step l c x) as ([g6 Hs] & Hp & Ht & Ho);
    destruct (trigger_pointee l c x) as [Ha _]
  end.
  change (is_equal (frame_start p) (frame_start (last_known_settings_ c)))
    with (unchanged P_frame_start p (cached c)) in *.
  change (trigger_valid (frame_start p)) with (acceptable P_frame_start p) in *.
  destruct (result (maybe_set_trigger _ _ _)) as [[]|e] eqn:E6.
  2:{ rewrite Hs, Ha. settle. exists 5%nat. unfold stopped_at; cbn [result self' arg' calls].
      split; [|split; [|split; [intros _; exact Hpx|split; [lia|reflexivity]]]].
      - eexists _, _. split; [reflexivity|]. split; [reflexivity|].
        intros P HP. rewrite <- (Hfields g6 P HP).
        destruct P; try congruence; reflexivity.
      - eexists. split; [cbn [plans_upto app]; rewrite <- ?app_assoc; reflexivity|].
        split; [exact Hp|]. split; [lia|].
        destruct (Ht _ eq_refl) as [Hx|Hx]; [left; exact Hx|].
        right. right. split; [reflexivity|]. split; [|exact Hx].
        destruct Hx as (_ & Hx1 & Hx2).
        match goal with |- context [maybe_set_trigger ?l ?c ?x] =>
          destruct (trigger_refused l c x Hx1 Hx2) as (E & _ & ->) end.
        reflexivity. }
  destruct (Ho _ eq_refl) as [Hc6 Hv]. rewrite Hs, Ha, Hc6.
  match type of Hc6 with _ = ?e => set (pl6 := e) in * end.
  clear Hs Hp Ht Ho Hc6 E6.
  rewrite grabber_call_eq. settle.
  assert (Hcalls : forall ks, pl1 ++ pl2 ++ pl3 ++ pl4 ++ pl5 ++ pl6 ++ ks
                   = plans_upto 6 c p ++ ks).
  { intros ks. cbn [plans_upto app]. rewrite <- ?app_assoc. reflexivity. }
  clearbody pl1 pl2 pl3 pl4 pl5 pl6.
  destruct (sdk_do g6 (reallocBuffers NBUFFERS)) as [g7|] eqn:E7; settle;
    [exists 7%nat|exists 6%nat]; unfold stopped_at, after; cbn [result self' arg' calls].
  - split; [|split; [|split; [intros _; exact Hpx|split; [intros _; tauto|reflexivity]]]].
    + eexists _, _. split; [reflexivity|]. split; [reflexivity|].
      intros P HP. rewrite <- (Hfields g7 P HP).
      destruct P; try congruence; reflexivity.
    + exists []. split; [|split; [apply prefix_nil|reflexivity]].
      rewrite Hcalls. cbn [plans_upto stage_plan]. rewrite app_nil_r. reflexivity.
  - split; [|split; [|split; [intros _; exact Hpx|split; [intros _; tauto|reflexivity]]]].
    + eexists _, _. split; [reflexivity|]. split; [reflexivity|].
      intros P HP. rewrite <- (Hfields g6 P HP).
      destruct P; try congruence; reflexivity.
    + exists [reallocBuffers NBUFFERS]. split; [apply Hcalls|].
      split; [reflexivity|]. split; [lia|]. left. split; [reflexivity|discriminate].
Qed.

Lemma calls_on_stage_plan P k c p :
  calls_on (features P) (stage_plan k c p)
  = if (stage P =? k)%nat then plan_of P c p else [].
Proof.
  do 7 (destruct k as [|k]; [cbn [stage_plan]; rewrite ?calls_on_app;
    destruct P;
    repeat match goal with
    | |- context [calls_on (features ?P) (plan_of ?P c p)] => rewrite (calls_on_plan_same P)
    | |- context [calls_on (features ?P) (plan_of ?Q c p)] =>
        rewrite (calls_on_plan_other P Q) by discriminate
    end; cbn [app stage Nat.eqb]; rewrite ?app_nil_r; reflexivity|]).
  destruct P; reflexivity.
Qed.

Lemma calls_on_plans_upto P k c p :
  calls_on (features P) (plans_upto k c p)
  = if (stage P <? k)%nat then plan_of P c p else [].
Proof.
  induction k as [|k IH]; [reflexivity|].
  cbn [plans_upto]. rewrite calls_on_app, IH, calls_on_stage_plan.
  destruct (Nat.ltb_spec (stage P) k) as [H1|H1];
    destruct (Nat.eqb_spec (stage P) k) as [H2|H2];
    destruct (Nat.ltb_spec (stage P) (S k)) as [H3|H3]; try lia;
    rewrite ?app_nil_r; reflexivity.
Qed.

Lemma stopped_calls_on k c p r P :
  stopped_at k c p r ->
  calls_on (features P) (calls r) `prefix_of` plan_of P c p
  /\ ((stage P < k)%nat -> calls_on (features P) (calls r) = plan_of P c p)
  /\ ((k < stage P)%nat -> calls_on (features P) (calls r) = []).
Proof.
  intros (_ & (ks & -> & Hp & _) & _).
  apply (calls_on_prefix (features P)) in Hp.
  rewrite calls_on_stage_plan in Hp.
  rewrite calls_on_app, calls_on_plans_upto.
  destruct (Nat.ltb_spec (stage P) k) as [H1|H1];
    destruct (Nat.eqb_spec (stage P) k) as [H2|H2]; try lia.
  - apply prefix_of_nil in Hp. rewrite Hp, app_nil_r.
    split; [reflexivity|]. split; [reflexivity|lia].
  - split; [exact Hp|]. split; lia.
  - apply prefix_of_nil in Hp. rewrite Hp.
    split; [apply prefix_nil|]. split; [lia|reflexivity].
Qed.

Lemma stopped_fields k c p r P :
  stopped_at k c p r ->
  (P <> P_frame_start -> (stage P < k)%nat -> field P (cached (self' r)) = reconcile P c p)
  /\ ((k <= stage P)%nat \/ P = P_frame_start ->
      field P (cached (self' r)) = field P (cached c)).
Proof.
  intros ((g & s & -> & Hs & Hf) & _).
  change (cached (mkEGCamera g s (caps c) (frame_id_ c))) with s.
  split.
  - intros HP Hk. rewrite (Hf P HP). apply Nat.ltb_lt in Hk. rewrite Hk. reflexivity.
  - intros HP.
    destruct (decide (P = P_frame_start)) as [->|HP']; [cbn [field]; congruence|].
    destruct HP as [Hk|HP]; [|congruence].
    rewrite (Hf P HP'). apply Nat.ltb_ge in Hk. rewrite Hk. reflexivity.
Qed.

(** X5: [set] goes through its fields in order and stops at the first
    failure without rollback. There is a stage [k] (exposure 0, binning 1,
    pixel type 2, offset 3, shape 4, trigger 5, reallocation 6, return 7)
    such that: [set] returns exactly when [k] is 7; the calls issued are
    those planned for the stages before [k] followed by a prefix of stage
    [k]'s; a property of an earlier stage is written in full and cached as
    reconciled; a property of stage [k] or later is cached as it was (also
    when one component of stage [k] was written before the other was
    rejected), and one of a later stage is not written; when [set] throws,
    either the last call issued was rejected, or the pixel type or the
    trigger record was refused before any call of its stage. *)
Theorem set_partial_failure (c : EGCamera) (p : CameraProperties) :
  exists k : nat,
    let r := set c p in
    (result r = Ok tt <-> k = 7%nat)
    /\ (exists ks, calls r = plans_upto k c p ++ ks /\ ks `prefix_of` stage_plan k c p
          /\ forall e, result r = Throw e ->
               (e = sdk_exception /\ ks <> [])
               \/ (k = 2%nat /\ ks = []
                   /\ px_type_throws (pixel_type p) (pixel_type (cached c)) e)
               \/ (k = 5%nat /\ ks = []
                   /\ trigger_throws (frame_start p) (frame_start (cached c)) e))
    /\ forall P,
         ((stage P < k)%nat -> calls_on (features P) (calls r) = plan_of P c p)
         /\ ((k < stage P)%nat -> calls_on (features P) (calls r) = [])
         /\ (P <> P_frame_start -> (stage P < k)%nat ->
             field P (cached (self' r)) = reconcile P c p)
         /\ ((k <= stage P)%nat \/ P = P_frame_start ->
             field P (cached (self' r)) = field P (cached c)).
Proof.
  destruct (set_stages c p) as [k Hk]. exists k. intros r. subst r.
  split; [|split].
  - destruct Hk as (_ & (ks & _ & _ & Hr) & _).
    destruct (result (set c p)) as [[]|e].
    + split; [intros _; exact Hr|reflexivity].
    + split; [discriminate|]. destruct Hr as [Hr _]. lia.
  - destruct Hk as (_ & (ks & Hc & Hp & Hr) & _). exists ks.
    split; [exact Hc|]. split; [exact Hp|].
    intros e He. rewrite He in Hr. apply Hr.
  - intros P.
    destruct (stopped_calls_on k c p _ P Hk) as (_ & H1 & H2).
    destruct (stopped_fields k c p _ P Hk) as (H3 & H4). auto.
Qed.

Lemma plan_no_realloc Q c p : reallocates (plan_of Q c p) = false.
Proof. apply (named_not_realloc (features Q)), plan_names. Qed.

Lemma stage_plan_no_realloc k c p :
  (k <= 5)%nat -> reallocates (stage_plan k c p) = false.
Proof.
  intros Hk. do 6 (destruct k as [|k];
    [cbn [stage_plan]; rewrite ?reallocates_app, !plan_no_realloc; reflexivity|]).
  lia.
Qed.

Lemma plans_upto_no_realloc k c p :
  (k <= 6)%nat -> reallocates (plans_upto k c p) = false.
Proof.
  induction k as [|k IH]; [reflexivity|]. intros Hk. cbn [plans_upto].
  rewrite reallocates_app, IH, stage_plan_no_realloc by lia. reflexivity.
Qed.

Lemma rejected_plan (c : EGCamera) (p : CameraProperties) :
  accepts_px_type (pixel_type p) (pixel_type (cached c)) = false ->
  plan_of P_pixel_type c p = [].
Proof.
  unfold accepts_px_type, plan_of, unchanged, acceptable. intros H.
  destruct (bool_decide (pixel_type p = pixel_type (cached c))); [reflexivity|].
  destruct (SampleType_value (pixel_type p) <? SampleType_value SampleTypeCount);
    [|reflexivity].
  cbn [writes clamped]. destruct (px_type_inv_table_ (pixel_type p)); [discriminate|reflexivity].
Qed.

(** X6: a pixel type [maybe_set_px_type] does not let through (a value not
    below [SampleTypeCount], or a changed value without a PixelFormat name:
    i8, i16, f32) makes [set] throw: with the exception of the pixel-type
    check unless the SDK already rejected an exposure or binning write. No
    PixelFormat write is issued, the pixel type, offset, shape and trigger
    are neither written nor cached, and the buffers are not reallocated. *)
Theorem set_rejects_unsupported_pixel_type (c : EGCamera) (p : CameraProperties) :
  accepts_px_type (pixel_type p) (pixel_type (cached c)) = false ->
  let r := set c p in
  (exists e, result r = Throw e
     /\ (px_type_throws (pixel_type p) (pixel_type (cached c)) e
         \/ (e = sdk_exception /\ calls r <> [])))
  /\ (forall P, (2 <= stage P)%nat ->
        calls_on (features P) (calls r) = []
        /\ field P (cached (self' r)) = field P (cached c))
  /\ reallocates (calls r) = false.
Proof.
  intros Hrej r. subst r. destruct (set_stages c p) as [k Hk].
  assert (Hk2 : (k <= 2)%nat).
  { destruct Hk as (_ & _ & Hpx & _).
    destruct (Nat.le_gt_cases k 2) as [H|H]; [exact H|].
    rewrite (Hpx H) in Hrej. discriminate. }
  split; [|split].
  - destruct Hk as (_ & (ks & Hc & Hp & Hr) & _).
    destruct (result (set c p)) as [[]|e]; [lia|]. exists e. split; [reflexivity|].
    destruct Hr as [_ [[-> Hne]|[(_ & _ & Hx)|(Hx & _)]]]; [|left; exact Hx|lia].
    right. split; [reflexivity|]. rewrite Hc. apply app_not_nil_r, Hne.
  - intros P HP.
    destruct (stopped_calls_on k c p _ P Hk) as (Hpre & _ & H2).
    destruct (stopped_fields k c p _ P Hk) as (_ & H4).
    split; [|apply H4; left; lia].
    destruct (Nat.eq_dec (stage P) 2%nat) as [E|E]; [|apply H2; lia].
    assert (P = P_pixel_type) as -> by (destruct P; cbn in E; congruence).
    rewrite (rejected_plan c p Hrej) in Hpre. apply prefix_of_nil, Hpre.
  - destruct Hk as (_ & (ks & -> & Hp & _) & _).
    rewrite reallocates_app, plans_upto_no_realloc by lia.
    apply (prefix_no_realloc _ _ Hp), stage_plan_no_realloc. lia.
Qed.

Lemma forced_fields (p : CameraProperties) (P : property) :
  P <> P_frame_start -> field P (forced p) = field P p.
Proof. intros HP. destruct P; try congruence; reflexivity. Qed.

Lemma forced_input (p : CameraProperties) :
  kind (frame_start p) = Signal_Input -> forced p = p.
Proof.
  destruct p as [e b t o s [en l pd k ed]]. cbn. intros ->. reflexivity.
Qed.

(** X7: [set] hands nothing back through the request but the trigger's
    [kind]: the struct it leaves is the one passed, or that one with
    [frame_start.kind] forced to [Signal_Input]; so clamped values are not
    reported to the caller. When [set] returns, [kind] is forced exactly
    when the trigger record differed from the cached one. *)
Theorem set_forces_only_kind (c : EGCamera) (p : CameraProperties) :
  let r := set c p in
  (arg' r = p \/ arg' r = forced p)
  /\ (forall P, P <> P_frame_start -> field P (arg' r) = field P p)
  /\ enable (frame_start (arg' r)) = enable (frame_start p)
  /\ line (frame_start (arg' r)) = line (frame_start p)
  /\ edge (frame_start (arg' r)) = edge (frame_start p)
  /\ (result r = Ok tt ->
      arg' r = if unchanged P_frame_start p (cached c) then p else forced p).
Proof.
  intros r. subst r. destruct (set_stages c p) as [k Hk].
  destruct Hk as (_ & (ks & _ & _ & Hr) & _ & Ht & Ha).
  assert (H : arg' (set c p) = p \/ arg' (set c p) = forced p).
  { rewrite Ha. destruct (_ && _); auto. }
  split; [exact H|].
  split; [intros P HP; destruct H as [-> | ->]; [reflexivity|apply forced_fields, HP]|].
  split; [destruct H as [-> | ->]; reflexivity|].
  split; [destruct H as [-> | ->]; reflexivity|].
  split; [destruct H as [-> | ->]; reflexivity|].
  intros Hok. rewrite Hok in Hr. subst k. rewrite Ha.
  destruct (Ht ltac:(lia)) as [E|E]; rewrite E.
  - destruct (unchanged P_frame_start p (cached c)); reflexivity.
  - reflexivity.
Qed.

Lemma forced_plan (c c' : EGCamera) (p : CameraProperties) :
  cached c' = cached c \/ frame_start (cached c') = frame_start (cached c) ->
  caps c' = caps c ->
  unchanged P_frame_start p (cached c) = false ->
  acceptable P_frame_start p = true ->
  with_kind Signal_Input (frame_start p) <> frame_start (cached c) ->
  plan_of P_frame_start c' (forced p) = plan_of P_frame_start c p.
Proof.
  intros Hc Hm Hu Hacc Hne.
  assert (Hf : frame_start (cached c') = frame_start (cached c)) by (destruct Hc; congruence).
  unfold plan_of. rewrite Hu, Hacc.
  assert (unchanged P_frame_start (forced p) (cached c') = false) as ->.
  { cbn [unchanged]. rewrite Hf. apply bool_decide_eq_false. exact Hne. }
  assert (acceptable P_frame_start (forced p) = true) as -> by exact Hacc.
  reflexivity.
Qed.

(** X8: [set] never caches the trigger. Whatever happens, the cached
    frame-start record after [set] is the one before; when [set] returns
    after a changed record, it has written the three trigger features, and
    (unless the record differed from the cached one in [kind] alone) the
    next [set] with the same request issues the same three writes again. *)
Theorem set_never_caches_trigger (c : EGCamera) (p : CameraProperties) :
  let r := set c p in
  let t := V_trigger (frame_start p) in
  frame_start (cached (self' r)) = frame_start (cached c)
  /\ (result r = Ok tt ->
      unchanged P_frame_start p (cached c) = false ->
      calls_on (features P_frame_start) (calls r) = writes P_frame_start (caps c) t
      /\ (with_kind Signal_Input (frame_start p) <> frame_start (cached c) ->
          let r2 := set (self' r) (arg' r) in
          calls_on (features P_frame_start) (calls r2)
            `prefix_of` writes P_frame_start (caps c) t
          /\ (result r2 = Ok tt ->
              calls_on (features P_frame_start) (calls r2)
              = writes P_frame_start (caps c) t))).
Proof.
  intros r t. subst r t. destruct (set_stages c p) as [k Hk].
  pose proof (stopped_fields k c p _ P_frame_start Hk) as [_ Hf].
  specialize (Hf (or_intror eq_refl)). cbn [field] in Hf. injection Hf as Hf.
  split; [exact Hf|]. intros Hok Hu.
  pose proof (stopped_calls_on k c p _ P_frame_start Hk) as (_ & Hc & _).
  destruct Hk as ((g & s & Hs & _) & (ks & _ & _ & Hr) & _ & Ht & Ha).
  rewrite Hok in Hr. subst k. specialize (Hc ltac:(cbn; lia)).
  destruct (Ht ltac:(lia)) as [Hacc|E]; [|congruence].
  assert (Hplan : plan_of P_frame_start c p
                  = writes P_frame_start (caps c) (V_trigger (frame_start p))).
  { unfold plan_of. rewrite Hu, Hacc. reflexivity. }
  split; [rewrite Hc; exact Hplan|].
  intros Hne r2. subst r2.
  rewrite Ha, Hu, Hacc. cbn [Nat.leb negb andb].
  assert (Hp2 : plan_of P_frame_start (self' (set c p)) (forced p)
                = writes P_frame_start (caps c) (V_trigger (frame_start p))).
  { rewrite <- Hplan. apply forced_plan; auto. rewrite Hs. reflexivity. }
  rewrite <- Hp2. split; [apply set_calls_on|].
  intros Hok2. destruct (set_refines (self' (set c p)) (forced p)) as (_ & _ & Hk2 & _).
  destruct (Hk2 Hok2) as [-> _]. apply calls_on_planned.
Qed.

Lemma same_exposure (x : float) : exposure_changed x x = false.
Proof.
  unfold exposure_changed, f32.sub, f32.fabsf, f32.to_double, f32.lt.
  destruct x as [[]|[]| |s m e]; try reflexivity.
  unfold SFsub. rewrite Z.sub_diag. reflexivity.
Qed.

Lemma same_unchanged (s : CameraProperties) (P : property) : unchanged P s s = true.
Proof.
  destruct P; cbn [unchanged]; rewrite ?Z.eqb_refl, ?same_exposure; try reflexivity;
    apply bool_decide_eq_true; reflexivity.
Qed.

Lemma fields_ext (a b : CameraProperties) : (forall P, field P a = field P b) -> a = b.
Proof.
  intros H. destruct a as [e1 b1 t1 [ox1 oy1] [sx1 sy1] f1], b as [e2 b2 t2 [ox2 oy2] [sx2 sy2] f2].
  pose proof (H P_exposure_time_us) as H1. pose proof (H P_binning) as H2.
  pose proof (H P_pixel_type) as H3. pose proof (H P_offset_x) as H4.
  pose proof (H P_offset_y) as H5. pose proof (H P_shape_x) as H6.
  pose proof (H P_shape_y) as H7. pose proof (H P_frame_start) as H8.
  cbn in *. congruence.
Qed.

Lemma unchanged_plans (c : EGCamera) (p : CameraProperties) (k : nat) :
  (forall P, unchanged P p (cached c) = true) ->
  (k <= 6)%nat ->
  plans_upto k c p = [] /\ ((k <= 5)%nat -> stage_plan k c p = []).
Proof.
  intros Hu.
  assert (Hp : forall P, plan_of P c p = []) by (intros P; unfold plan_of; rewrite Hu; reflexivity).
  assert (Hs : forall j, (j <= 5)%nat -> stage_plan j c p = []).
  { intros j Hj. do 6 (destruct j as [|j]; [cbn [stage_plan]; rewrite !Hp; reflexivity|]). lia. }
  intros Hk. split; [|apply Hs].
  induction k as [|k IH]; [reflexivity|]. cbn [plans_upto].
  rewrite IH, Hs by lia. reflexivity.
Qed.

Lemma get_run (c : EGCamera) (p0 : CameraProperties) :
  let r := get c p0 in
  calls r = []
  /\ match result r with
     | Ok _ =>
         kind (frame_start (arg' r)) = Signal_Input
         /\ (exists pf, getString (grabber_ c) (feature "PixelFormat") = Some pf
               /\ pixel_type (arg' r) = at_or px_type_table_ pf SampleType_Unknown)
         /\ forall c' p1, grabber_ c' = grabber_ c ->
              get c' p1 = mkRes (Ok tt) (with_settings (arg' r) c') (arg' r) []
     | Throw e => e = sdk_exception /\ self' r = c
     end.
Proof.
  unfold get. reads; try (split; [reflexivity|split; reflexivity]).
  cbv zeta. destruct (at_or trig_src_table_ _ Trig_Unknown) eqn:Esrc; reads;
    try (split; [reflexivity|split; reflexivity]).
  all: split; [reflexivity|].
  all: split; [reflexivity|]; split; [eauto|].
  all: intros c' p1 Hg; rewrite <- Hg in *.
  all: answered; cbv zeta; rewrite Esrc; answered; reflexivity.
Qed.

(** X9: [get] only reads. It issues no call that changes the device, and
    leaves the grabber, the cached capabilities and the frame counter alone.
    When it returns, the cached settings are exactly the record handed
    back, and that record does not depend on what the struct held before;
    when it throws, the exception is the SDK's and the object is as it
    was. *)
Theorem get_refreshes_cache (c : EGCamera) (p0 : CameraProperties) :
  let r := get c p0 in
  calls r = []
  /\ grabber_ (self' r) = grabber_ c
  /\ caps (self' r) = caps c
  /\ frame_id_ (self' r) = frame_id_ c
  /\ (result r = Ok tt ->
      cached (self' r) = arg' r
      /\ kind (frame_start (arg' r)) = Signal_Input
      /\ forall p1, get c p1 = r)
  /\ (forall e, result r = Throw e -> e = sdk_exception /\ self' r = c).
Proof.
  intros r. subst r. destruct (get_run c p0) as [Hc Hr].
  split; [exact Hc|].
  destruct (result (get c p0)) as [[]|e].
  - destruct Hr as (Hk & _ & Hi). rewrite (Hi c p0 eq_refl).
    repeat (split; [reflexivity|]). split; [|discriminate].
    intros _. split; [reflexivity|]. split; [exact Hk|].
    intros p1. rewrite (Hi c p1 eq_refl). reflexivity.
  - destruct Hr as [-> ->]. repeat (split; [reflexivity|]).
    split; [discriminate|]. intros e' [= <-]. auto.
Qed.

Lemma read_pixel_type (pf : string) :
  let t := at_or px_type_table_ pf SampleType_Unknown in
  t = SampleType_Unknown \/ accepts_px_type t t = true.
Proof.
  intros t. subst t. unfold at_or.
  destruct (px_type_table_ !! pf) as [t|] eqn:E; [|auto].
  right. apply px_type_table_lookup in E. unfold accepts_px_type.
  rewrite bool_decide_eq_true_2 by reflexivity.
  destruct t; try discriminate; reflexivity.
Qed.

Lemma set_cached (c : EGCamera) :
  let r := set c (cached c) in
  arg' r = cached c
  /\ cached (self' r) = cached c
  /\ (accepts_px_type (pixel_type (cached c)) (pixel_type (cached c)) = true ->
      calls r = [reallocBuffers NBUFFERS])
  /\ (accepts_px_type (pixel_type (cached c)) (pixel_type (cached c)) = false ->
      calls r = [] /\ result r = Throw (runtime_error expect_px_type_lt_count)).
Proof.
  intros r. subst r. destruct (set_stages c (cached c)) as [k Hk].
  pose proof (same_unchanged (cached c)) as Hu.
  assert (Hcache : cached (self' (set c (cached c))) = cached c).
  { apply fields_ext. intros P.
    destruct (stopped_fields k c _ _ P Hk) as [H1 H2].
    destruct (decide (P = P_frame_start)) as [->|HP]; [auto|].
    destruct (Nat.lt_ge_cases (stage P) k) as [H|H]; [|auto].
    rewrite (H1 HP H). unfold reconcile. rewrite Hu. reflexivity. }
  destruct Hk as (_ & (ks & Hc & Hp & Hr) & Hpx & _ & Ha).
  split; [|split; [exact Hcache|split]].
  - rewrite Ha, Hu. cbn [negb andb]. rewrite andb_false_r. reflexivity.
  - intros Hacc. rewrite Hc.
    assert (Hk6 : (6 <= k)%nat).
    { destruct (Nat.le_gt_cases 6 k) as [H|H]; [exact H|].
      destruct (unchanged_plans c (cached c) k Hu ltac:(lia)) as [_ Hs].
      rewrite Hs in Hp by lia. apply prefix_of_nil in Hp. subst ks.
      destruct (result (set c (cached c))) as [[]|e]; [lia|].
      destruct Hr as [_ [[_ Hne]|[(_ & _ & Hx)|(_ & _ & Hx)]]]; [congruence| |].
      - unfold accepts_px_type in Hacc. apply andb_prop in Hacc as [H1 _].
        destruct Hx as [[_ Hx]|(_ & Hx & _)]; [congruence|].
        rewrite bool_decide_eq_true_2 in Hx by reflexivity. discriminate.
      - destruct Hx as (_ & Hx & _). specialize (Hu P_frame_start).
        cbn [unchanged] in Hu. congruence. }
    destruct (result (set c (cached c))) as [[]|e].
    + subst k. cbn [stage_plan] in Hp. apply prefix_of_nil in Hp. subst ks.
      change (plans_upto 7 c (cached c))
        with (plans_upto 6 c (cached c) ++ [reallocBuffers NBUFFERS]).
      destruct (unchanged_plans c (cached c) 6 Hu ltac:(lia)) as [-> _].
      reflexivity.
    + assert (k = 6%nat) as -> by lia.
      destruct (unchanged_plans c (cached c) 6 Hu ltac:(lia)) as [-> _].
      destruct Hr as [_ [[_ Hne]|[(? & _)|(? & _)]]]; try lia.
      cbn [stage_plan] in Hp. destruct Hp as [k' Hk'].
      destruct ks as [|a ks]; [congruence|]. injection Hk' as <- Hk'.
      destruct ks; [reflexivity|discriminate].
  - intros Hrej.
    assert (Hk2 : (k <= 2)%nat).
    { destruct (Nat.le_gt_cases k 2) as [H|H]; [exact H|].
      rewrite (Hpx H) in Hrej. discriminate. }
    destruct (unchanged_plans c (cached c) k Hu ltac:(lia)) as [Hpl Hs].
    rewrite Hs in Hp by lia. apply prefix_of_nil in Hp. subst ks.
    rewrite Hc, Hpl. split; [reflexivity|].
    destruct (result (set c (cached c))) as [[]|e]; [lia|].
    destruct Hr as [_ [[_ Hne]|[(_ & _ & Hx)|(? & _)]]]; [congruence| |lia].
    destruct Hx as [[-> _]|(_ & Hx & _)]; [reflexivity|].
    rewrite bool_decide_eq_true_2 in Hx by reflexivity. discriminate.
Qed.

(** X10: [get] then [set] of what it returned. When [get] returns, handing
    the record straight back to [set] writes no feature: if the device's
    pixel format is one of the five the adapter names, the only call is the
    reallocation of the buffers; if it is not (the record says
    [SampleType_Unknown]), [set] throws at the pixel-type check before
    any call. Either way the cache and the record stay as [get] left them. *)
Theorem set_after_get (c : EGCamera) (p0 : CameraProperties) :
  result (get c p0) = Ok tt ->
  let p := arg' (get c p0) in
  let r := set (self' (get c p0)) p in
  arg' r = p
  /\ cached (self' r) = p
  /\ (pixel_type p <> SampleType_Unknown -> calls r = [reallocBuffers NBUFFERS])
  /\ (pixel_type p = SampleType_Unknown ->
      calls r = [] /\ result r = Throw (runtime_error expect_px_type_lt_count)).
Proof.
  intros Hok p r. subst p r. destruct (get_run c p0) as [_ Hr].
  rewrite Hok in Hr. destruct Hr as (_ & (pf & _ & Hpf) & Hs).
  assert (Hc : cached (self' (get c p0)) = arg' (get c p0)).
  { rewrite (Hs c p0 eq_refl) at 1. reflexivity. }
  destruct (set_cached (self' (get c p0))) as (H1 & H2 & H3 & H4).
  rewrite Hc in *. split; [exact H1|]. split; [exact H2|].
  destruct (read_pixel_type pf) as [Hu|Hacc]; rewrite <- Hpf in *.
  - split; [congruence|]. intros _. apply H4. rewrite Hu. reflexivity.
  - split; [auto|]. intros Hu. rewrite Hu in Hacc. discriminate.
Qed.

Lemma answers_read {X A} (rd : Grabber -> option A) (c : EGCamera) :
  answers (X := X) (grabber_read rd) c
    (match rd (grabber_ c) with Some a => Ok a | None => Throw sdk_exception end).
Proof. intros x. unfold grabber_read. destruct (rd (grabber_ c)); reflexivity. Qed.

Lemma answers_ret {X A} (a : A) (c : EGCamera) : answers (X := X) (mret a) c (Ok a).
Proof. intros x. reflexivity. Qed.

Lemma answers_bind {X A B} (m : M X A) (k : A -> M X B) (c : EGCamera) o :
  answers m c o ->
  forall o', match o with Ok a => answers (k a) c o' | Throw e => o' = Throw e end ->
  answers (m ≫= k) c o'.
Proof.
  intros Hm o' Hk x. rewrite bind_after, !(Hm x).
  destruct o as [a|e]; cbn [result self' arg' calls];
    [rewrite after_nil; apply Hk|subst o'; reflexivity].
Qed.

Lemma fills_update_arg {X} (g : X -> X) (c : EGCamera) : fills (update_arg g) c (Ok tt) g.
Proof. intros x. reflexivity. Qed.

Lemma fills_read {X A} (m : M X A) (k : A -> M X unit) (c : EGCamera) o :
  answers m c o ->
  forall o' f,
    match o with Ok a => fills (k a) c o' f | Throw e => o' = Throw e /\ f = id end ->
    fills (m ≫= k) c o' f.
Proof.
  intros Hm o' f Hk x. rewrite bind_after, !(Hm x).
  destruct o as [a|e]; cbn [result self' arg' calls];
    [rewrite after_nil; apply Hk|destruct Hk as [-> ->]; reflexivity].
Qed.

Lemma fills_seq {X} (m1 : M X unit) (k : unit -> M X unit) (c : EGCamera) o1 f1 :
  fills m1 c o1 f1 ->
  forall o f,
    match o1 with
    | Ok u => exists f2, fills (k u) c o f2 /\ f = f2 ∘ f1
    | Throw e => o = Throw e /\ f = f1
    end ->
    fills (m1 ≫= k) c o f.
Proof.
  intros H1 o f Hk x. rewrite bind_after, !(H1 x).
  destruct o1 as [u|e]; cbn [result self' arg' calls].
  - destruct Hk as (f2 & H2 & ->). rewrite after_nil. apply H2.
  - destruct Hk as [-> ->]. reflexivity.
Qed.

Lemma fills_EXPECT {X} (b : bool) (E : expectation) (c : EGCamera) :
  fills (X := X) (EXPECT b E) c (if b then Ok tt else Throw (runtime_error E)) id.
Proof. intros x. destruct b; reflexivity. Qed.

Ltac read_ Hg :=
  eapply fills_read; [apply answers_read|]; cbv beta; rewrite Hg;
  match goal with
  | H : ?o = _ |- context [match ?o with _ => _ end] => rewrite H
  end; cbv beta iota.

Ltac fill Hg :=
  repeat first [ apply fills_update_arg | read_ Hg | split; reflexivity ].

Lemma integer_range_answers {X} (name : string) (g : Grabber) :
  exists o, (forall c, grabber_ c = g -> answers (X := X) (query_integer_range name) c o)
            /\ match o with
               | Ok P => True
               | Throw e => e = sdk_exception
               end.
Proof.
  unfold query_integer_range.
  destruct (getInteger g (query_writeable name)) as [w|] eqn:Ew.
  2:{ eexists. split; [intros c Hg; eapply answers_bind; [apply answers_read|];
                       cbv beta; rewrite Hg, Ew; reflexivity|].
      reflexivity. }
  destruct (getInteger g (feature (name +:+ "MinReg"))) as [lo|] eqn:El.
  2:{ eexists. split; [intros c Hg; eapply answers_bind; [apply answers_read|];
                       cbv beta; rewrite Hg, Ew;
                       eapply answers_bind; [apply answers_read|];
                       cbv beta; rewrite Hg, El; reflexivity|].
      reflexivity. }
  destruct (getInteger g (feature (name +:+ "MaxReg"))) as [hi|] eqn:Eh.
  2:{ eexists. split; [intros c Hg; eapply answers_bind; [apply answers_read|];
                       cbv beta; rewrite Hg, Ew;
                       eapply answers_bind; [apply answers_read|];
                       cbv beta; rewrite Hg, El;
                       eapply answers_bind; [apply answers_read|];
                       cbv beta; rewrite Hg, Eh; reflexivity|].
      reflexivity. }
  eexists. split; [intros c Hg; eapply answers_bind; [apply answers_read|];
                   cbv beta; rewrite Hg, Ew;
                   eapply answers_bind; [apply answers_read|];
                   cbv beta; rewrite Hg, El;
                   eapply answers_bind; [apply answers_read|];
                   cbv beta; rewrite Hg, Eh;
                   apply answers_ret|].
  exact I.
Qed.

Lemma exposure_unit_refused (c : EGCamera) (u : string) :
  getString (grabber_ c) (query_info "ExposureTime" "Unit") = Some u ->
  u <> "us"%string ->
  fills query_exposure_time_capabilities_ c (Throw (runtime_error expect_exposure_unit_us)) id.
Proof.
  intros Eu Hu. unfold query_exposure_time_capabilities_.
  eapply fills_read; [apply answers_read|]. cbv beta. rewrite Eu. cbv beta iota.
  eapply fills_seq; [apply fills_EXPECT|].
  rewrite (proj2 (String.eqb_neq u "us") Hu). split; reflexivity.
Qed.

Lemma exposure_query (g : Grabber) :
  exists o f,
    (forall c, grabber_ c = g -> fills query_exposure_time_capabilities_ c o f)
    /\ match o with
       | Ok _ =>
           getString g (query_info "ExposureTime" "Unit") = Some "us"%string
           /\ exists P, f = set_meta_exposure_time_us P
       | Throw e =>
           f = id
           /\ (e = sdk_exception
               \/ (e = runtime_error expect_exposure_unit_us
                   /\ exists u, getString g (query_info "ExposureTime" "Unit")
                                = Some u /\ u <> "us"%string))
       end.
Proof.
  destruct (getString g (query_info "ExposureTime" "Unit")) as [u|] eqn:Eu.
  2:{ eexists _, _. split; [intros c Hg; unfold query_exposure_time_capabilities_; fill Hg|].
      split; [reflexivity|left; reflexivity]. }
  destruct (String.eqb_spec u "us") as [->|Hu].
  2:{ eexists _, _. split.
      - intros c Hg. apply (exposure_unit_refused c u); [rewrite Hg; exact Eu|exact Hu].
      - split; [reflexivity|]. right. eauto. }
  assert (Hpre : forall c o f, grabber_ c = g ->
            fills (w ← grabber_read (fun g => getInteger g (query_writeable "ExposureTime"));
                   lo ← grabber_read (fun g => getFloat g (feature "ExposureTimeMinReg"));
                   hi ← grabber_read (fun g => getFloat g (feature "ExposureTimeMaxReg"));
                   update_arg (set_meta_exposure_time_us
                     (mkProperty (bool_of_int w) (f32.of_double lo) (f32.of_double hi)
                        PropertyType_FloatingPrecision))) c o f ->
            fills query_exposure_time_capabilities_ c o f).
  { intros c o f Hg H. unfold query_exposure_time_capabilities_.
    eapply fills_read; [apply answers_read|]. cbv beta. rewrite Hg, Eu. cbv beta iota.
    eapply fills_seq; [apply fills_EXPECT|]. cbn [String.eqb Ascii.eqb Bool.eqb].
    eexists. split; [exact H|reflexivity]. }
  destruct (getInteger g (query_writeable "ExposureTime")) as [w|] eqn:Ew.
  2:{ eexists _, _. split; [intros c Hg; apply (Hpre c _ _ Hg); fill Hg|].
      split; [reflexivity|left; reflexivity]. }
  destruct (getFloat g (feature "ExposureTimeMinReg")) as [lo|] eqn:El.
  2:{ eexists _, _. split; [intros c Hg; apply (Hpre c _ _ Hg); fill Hg|].
      split; [reflexivity|left; reflexivity]. }
  destruct (getFloat g (feature "ExposureTimeMaxReg")) as [hi|] eqn:Eh.
  2:{ eexists _, _. split; [intros c Hg; apply (Hpre c _ _ Hg); fill Hg|].
      split; [reflexivity|left; reflexivity]. }
  eexists _, _. split; [intros c Hg; apply (Hpre c _ _ Hg); fill Hg|].
  split; [reflexivity|]. eexists. reflexivity.
Qed.

Lemma binning_query (g : Grabber) :
  exists o f, (forall c, grabber_ c = g -> fills query_binning_capabilities_ c o f)
    /\ match o with
       | Ok _ => exists w, f = set_meta_binning
                               (mkProperty w (f32.of_int 1) (f32.of_int 4)
                                  PropertyType_FixedPrecision)
       | Throw e => f = id /\ e = sdk_exception
       end.
Proof.
  unfold query_binning_capabilities_.
  destruct (getInteger g (query_writeable "BinningHorizontal")) as [w|] eqn:Ew;
    eexists _, _; (split; [intros c Hg; fill Hg|]);
    [eexists; reflexivity|split; reflexivity].
Qed.

Lemma pair_query (a b : string)
    (h : Property -> Property -> CameraPropertyMetadata -> CameraPropertyMetadata)
    (g : Grabber) :
  exists o f,
    (forall c, grabber_ c = g ->
       fills (px ← query_integer_range a; py ← query_integer_range b; update_arg (h px py))
         c o f)
    /\ match o with
       | Ok _ => exists px py, f = h px py
       | Throw e => f = id /\ e = sdk_exception
       end.
Proof.
  destruct (integer_range_answers (X := CameraPropertyMetadata) a g) as (o1 & H1 & F1).
  destruct o1 as [px|e1].
  2:{ subst e1. eexists _, _.
      split; [intros c Hg; eapply fills_read; [exact (H1 c Hg)|]; split; reflexivity
             |split; reflexivity]. }
  destruct (integer_range_answers (X := CameraPropertyMetadata) b g) as (o2 & H2 & F2).
  destruct o2 as [py|e2].
  2:{ subst e2. eexists _, _.
      split; [intros c Hg; eapply fills_read; [exact (H1 c Hg)|];
              eapply fills_read; [exact (H2 c Hg)|]; split; reflexivity
             |split; reflexivity]. }
  eexists _, _.
  split; [intros c Hg; eapply fills_read; [exact (H1 c Hg)|];
          eapply fills_read; [exact (H2 c Hg)|]; apply fills_update_arg
         |eexists _, _; reflexivity].
Qed.

Lemma pixel_type_query (g : Grabber) :
  exists o f, (forall c, grabber_ c = g -> fills query_pixel_type_capabilities_ c o f)
    /\ match o with
       | Ok _ => exists mask, f = set_supported_pixel_types mask ∘ set_supported_pixel_types 0
       | Throw e => f = set_supported_pixel_types 0 /\ e = sdk_exception
       end.
Proof.
  unfold query_pixel_type_capabilities_.
  destruct (getStringList g (query_enumEntries "PixelFormat")) as [vs|] eqn:E.
  - eexists _, _. split.
    + intros c Hg. eapply fills_seq; [apply fills_update_arg|].
      eexists. split; [fill Hg|reflexivity].
    + eexists. reflexivity.
  - eexists _, _. split.
    + intros c Hg. eapply fills_seq; [apply fills_update_arg|].
      eexists. split; [fill Hg|reflexivity].
    + split; reflexivity.
Qed.

Ltac then_ H := eapply fills_seq; [exact H|]; eexists; split; [|reflexivity].
Ltac then_upd := eapply fills_seq; [apply fills_update_arg|]; eexists; split; [|reflexivity].
Ltac last_ H := eapply fills_seq; [exact H|]; split; reflexivity.

Lemma get_meta_fills (g : Grabber) :
  exists o f, (forall c, grabber_ c = g -> fills get_meta c o f)
    /\ match o with
       | Ok _ =>
           getString g (query_info "ExposureTime" "Unit") = Some "us"%string
           /\ exists P1 w Px Py Sx Sy mask,
                forall m, f m = mkMeta P1 not_writable not_writable
                                  (mkProperty w (f32.of_int 1) (f32.of_int 4)
                                     PropertyType_FixedPrecision)
                                  Px Py Sx Sy mask (mkTriggerCaps 1 0)
                                  (mkDigitalLines 2 ["Line0"; "Software"]%string)
       | Throw e =>
           e = sdk_exception
           \/ (e = runtime_error expect_exposure_unit_us /\ f = id
               /\ exists u, getString g (query_info "ExposureTime" "Unit")
                            = Some u /\ u <> "us"%string)
       end.
Proof.
  unfold get_meta, query_roi_offset_capabilities_, query_roi_shape_capabilities_.
  destruct (exposure_query g) as (o1 & f1 & H1 & F1).
  destruct o1 as [[]|e1].
  2:{ destruct F1 as [-> F1]. eexists _, _.
      split; [intros c Hg; eapply fills_seq; [exact (H1 c Hg)|]; split; reflexivity|].
      destruct F1 as [->|[-> F1]]; [left; reflexivity|right; auto]. }
  destruct F1 as [Hus [P1 ->]].
  destruct (binning_query g) as (o2 & f2 & H2 & F2).
  destruct o2 as [[]|e2].
  2:{ destruct F2 as [-> ->]. eexists _, _.
      split; [intros c Hg; then_ (H1 c Hg); then_upd; then_upd; last_ (H2 c Hg)
             |left; reflexivity]. }
  destruct F2 as [w ->].
  destruct (pair_query "OffsetX" "OffsetY" set_meta_offset g) as (o3 & f3 & H3 & F3).
  destruct o3 as [[]|e3].
  2:{ destruct F3 as [-> ->]. eexists _, _.
      split; [intros c Hg; then_ (H1 c Hg); then_upd; then_upd; then_ (H2 c Hg);
              last_ (H3 c Hg)
             |left; reflexivity]. }
  destruct F3 as (Px & Py & ->).
  destruct (pair_query "Width" "Height" set_meta_shape g) as (o4 & f4 & H4 & F4).
  destruct o4 as [[]|e4].
  2:{ destruct F4 as [-> ->]. eexists _, _.
      split; [intros c Hg; then_ (H1 c Hg); then_upd; then_upd; then_ (H2 c Hg);
              then_ (H3 c Hg); last_ (H4 c Hg)
             |left; reflexivity]. }
  destruct F4 as (Sx & Sy & ->).
  destruct (pixel_type_query g) as (o5 & f5 & H5 & F5).
  destruct o5 as [[]|e5].
  2:{ destruct F5 as [-> ->]. eexists _, _.
      split; [intros c Hg; then_ (H1 c Hg); then_upd; then_upd; then_ (H2 c Hg);
              then_ (H3 c Hg); then_ (H4 c Hg); last_ (H5 c Hg)
             |left; reflexivity]. }
  destruct F5 as (mask & ->).
  eexists _, _.
  split; [intros c Hg; then_ (H1 c Hg); then_upd; then_upd; then_ (H2 c Hg);
          then_ (H3 c Hg); then_ (H4 c Hg); then_ (H5 c Hg); apply fills_update_arg|].
  split; [exact Hus|]. exists P1, w, Px, Py, Sx, Sy, mask. intros m. reflexivity.
Qed.

(** X11: [get_meta] only reads, and what it returns does not depend on what
    [*meta] held: it issues no call and leaves the object (the cached
    capabilities too) alone; when it returns, every member has been
    assigned, with line interval and readout direction not writable, the
    binning range 1 to 4, one input trigger line and the two digital lines
    Line0 and Software, and the device's exposure unit is microseconds; when
    it throws, the exception is the SDK's, or the unit check's with [*meta]
    untouched. *)
Theorem get_meta_overwrites_struct (c : EGCamera) (m : CameraPropertyMetadata) :
  let r := get_meta c m in
  calls r = [] /\ self' r = c
  /\ (result r = Ok tt ->
      (forall m', get_meta c m' = r)
      /\ meta_line_interval_us (arg' r) = not_writable
      /\ meta_readout_direction (arg' r) = not_writable
      /\ low (meta_binning (arg' r)) = f32.of_int 1
      /\ high (meta_binning (arg' r)) = f32.of_int 4
      /\ triggers_frame_start (arg' r) = mkTriggerCaps 1 0
      /\ digital_lines (arg' r) = mkDigitalLines 2 ["Line0"; "Software"]%string
      /\ getString (grabber_ c) (query_info "ExposureTime" "Unit") = Some "us"%string)
  /\ (forall e, result r = Throw e ->
        e = sdk_exception \/ (e = runtime_error expect_exposure_unit_us /\ arg' r = m)).
Proof.
  intros r. subst r. destruct (get_meta_fills (grabber_ c)) as (o & f & Hf & F).
  specialize (Hf c eq_refl). rewrite (Hf m). cbn [result self' arg' calls].
  split; [reflexivity|]. split; [reflexivity|]. split.
  - intros ->. destruct F as (Hus & P1 & w & Px & Py & Sx & Sy & mask & Hm).
    split; [intros m'; rewrite (Hf m'), !Hm; reflexivity|].
    rewrite Hm. cbn [meta_line_interval_us meta_readout_direction meta_binning low high
                     triggers_frame_start digital_lines].
    repeat (split; [reflexivity|]). exact Hus.
  - intros e ->. destruct F as [->|(-> & -> & _)]; auto.
Qed.

(** X12: when the device reports an exposure unit other than "us",
    [get_meta] throws at the unit check (a HardwareQueryError), before any
    other query, leaving [*meta] and the object untouched. *)
Theorem get_meta_requires_microseconds (c : EGCamera) (m : CameraPropertyMetadata)
    (u : string) :
  getString (grabber_ c) (query_info "ExposureTime" "Unit") = Some u ->
  u <> "us"%string ->
  get_meta c m = mkRes (Throw (runtime_error expect_exposure_unit_us)) c m []
  /\ error_kind (runtime_error expect_exposure_unit_us) = HardwareQueryError.
Proof.
  intros Eu Hu. split; [|reflexivity].
  assert (H : fills get_meta c (Throw (runtime_error expect_exposure_unit_us)) id).
  { unfold get_meta. eapply fills_seq; [apply (exposure_unit_refused c u Eu Hu)|].
    split; reflexivity. }
  apply H.
Qed.

Lemma get_frame_run (nbytes : Z) (c : EGCamera) (out : frame_out) :
  get_frame nbytes c out =
  match pop (grabber_ c) with
  | None => mkRes (Throw sdk_exception) c out []
  | Some (b, g) =>
      if buf_size b <=? nbytes then
        match buf_base b with
        | None => mkRes (Throw (runtime_error expect_buf_base)) (with_grabber (push g) c) out []
        | Some base =>
            mkRes (Ok tt)
              (mkEGCamera (push g) (cached c) (caps c) (uint64_t (frame_id_ c + 1)))
              (mkFrameOut (memcpy (im out) base (buf_size b))
                 (mkImageInfo
                    (mkImageShape
                       (mkDims 1 (uint32_t (buf_width b)) (uint32_t (buf_height b)) 1)
                       (mkDims 1 1 (int64_t (buf_width b))
                          (int64_t (uint64_t (buf_width b * buf_height b))))
                       (at_or px_type_table_ (buf_pixelFormat b) SampleType_Unknown))
                    (buf_timestamp_ns b) (frame_id_ c)))
              []
        end
      else mkRes (Throw (runtime_error expect_nbytes_ge_size)) (with_grabber (push g) c) out []
  end.
Proof.
  unfold get_frame, ScopedBuffer.
  destruct (pop (grabber_ c)) as [[b g]|]; [|reflexivity].
  rewrite EXPECT_bind. destruct (buf_size b <=? nbytes); [|reflexivity].
  destruct (buf_base b) as [base|]; [|reflexivity].
  exec. reflexivity.
Qed.

(** X13: a [get_frame] that throws has done nothing the caller can see: the
    image buffer and [*info] are untouched, the frame counter, the cached
    settings and capabilities are as before and no call was issued. It
    throws the SDK's exception when no frame could be taken; otherwise the
    frame was taken and handed back, and the exception is the capacity
    check's when the frame is larger than the buffer, and the null-pointer
    check's when it fits but the frame has no data. *)
Theorem get_frame_fails_cleanly (nbytes : Z) (c : EGCamera) (out : frame_out) (e : exn) :
  let r := get_frame nbytes c out in
  result r = Throw e ->
  arg' r = out
  /\ frame_id_ (self' r) = frame_id_ c
  /\ cached (self' r) = cached c /\ caps (self' r) = caps c
  /\ calls r = []
  /\ ((e = sdk_exception /\ pop (grabber_ c) = None /\ self' r = c)
      \/ exists b g,
           pop (grabber_ c) = Some (b, g) /\ self' r = with_grabber (push g) c
           /\ ((e = runtime_error expect_nbytes_ge_size /\ nbytes < buf_size b)
               \/ (e = runtime_error expect_buf_base /\ buf_size b <= nbytes
                   /\ buf_base b = None))).
Proof.
  intros r. subst r. rewrite get_frame_run.
  destruct (pop (grabber_ c)) as [[b g]|].
  - destruct (Z.leb_spec (buf_size b) nbytes) as [Hle|Hlt].
    + destruct (buf_base b) as [base|] eqn:Eb; [discriminate|].
      intros [= <-]. repeat (split; [reflexivity|]). right. exists b, g. auto 8.
    + intros [= <-]. repeat (split; [reflexivity|]). right. exists b, g. auto 8.
  - intros [= <-]. repeat (split; [reflexivity|]). left. auto.
Qed.

Lemma memcpy_spec (dst src : list Z) (size : Z) :
  (Z.to_nat size <= length src)%nat -> (Z.to_nat size <= length dst)%nat ->
  length (memcpy dst src size) = length dst
  /\ (forall i : nat, (i < Z.to_nat size)%nat -> memcpy dst src size !! i = src !! i)
  /\ (forall i : nat, (Z.to_nat size <= i)%nat -> memcpy dst src size !! i = dst !! i).
Proof.
  intros Hs Hd. unfold memcpy. set (n := Z.to_nat size) in *.
  assert (Hl : length (take n src) = n) by (rewrite length_take; lia).
  split; [|split].
  - rewrite length_app, Hl, length_drop. lia.
  - intros i Hi. rewrite lookup_app_l by lia. apply lookup_take_lt. exact Hi.
  - intros i Hi. rewrite lookup_app_r by lia. rewrite Hl, lookup_drop. f_equal. lia.
Qed.

(** X14: a frame that fits is delivered whole and nothing else is touched.
    When a frame is taken whose size is within the caller's capacity and
    whose data pointer is not null, [get_frame] returns; the first [size]
    bytes of the caller's buffer are the frame's, the bytes after them are
    as they were, and the buffer's length is unchanged; [*info] carries the
    frame's timestamp and the counter's value before the call; the counter
    goes up by one, the frame is handed back, and no call is issued. *)
Theorem get_frame_delivers (nbytes : Z) (c : EGCamera) (out : frame_out)
    (b : buffer_info) (g : Grabber) (base : list Z) :
  pop (grabber_ c) = Some (b, g) ->
  buf_size b <= nbytes ->
  buf_base b = Some base ->
  (Z.to_nat (buf_size b) <= length base)%nat ->
  (Z.to_nat (buf_size b) <= length (im out))%nat ->
  let r := get_frame nbytes c out in
  result r = Ok tt
  /\ length (im (arg' r)) = length (im out)
  /\ (forall i : nat, (i < Z.to_nat (buf_size b))%nat -> im (arg' r) !! i = base !! i)
  /\ (forall i : nat, (Z.to_nat (buf_size b) <= i)%nat -> im (arg' r) !! i = im out !! i)
  /\ hardware_timestamp (info (arg' r)) = buf_timestamp_ns b
  /\ hardware_frame_id (info (arg' r)) = frame_id_ c
  /\ self' r = mkEGCamera (push g) (cached c) (caps c) (uint64_t (frame_id_ c + 1))
  /\ calls r = [].
Proof.
  intros Hpop Hle Hbase Hs Hd r. subst r. rewrite get_frame_run, Hpop, Hbase.
  apply Z.leb_le in Hle. rewrite Hle. cbn [result self' arg' calls im info
    hardware_timestamp hardware_frame_id].
  destruct (memcpy_spec (im out) base (buf_size b) Hs Hd) as (H1 & H2 & H3).
  auto 10.
Qed.

Lemma get_shape_run (c : EGCamera) (s : ImageShape) (w h : Z) (pf : string) :
  getWidth (grabber_ c) = Some w -> getHeight (grabber_ c) = Some h ->
  getString (grabber_ c) (feature "PixelFormat") = Some pf ->
  get_shape c s
  = mkRes (Ok tt) c
      (mkImageShape (mkDims 1 (uint32_t w) (uint32_t h) 1)
         (mkDims 1 1 (uint32_t w) (uint32_t (uint32_t w * uint32_t h)))
         (at_or px_type_table_ pf SampleType_Unknown)) [].
Proof.
  intros Hw Hh Hpf. unfold get_shape. exec. rewrite Hw. exec. rewrite Hh. cbv zeta.
  exec. rewrite Hpf. reflexivity.
Qed.

Lemma small_uint32 (z : Z) : 0 <= z < 2 ^ 32 -> uint32_t z = z.
Proof. intros H. unfold uint32_t. apply Z.mod_small. exact H. Qed.

Lemma small_int64 (z : Z) : 0 <= z < 2 ^ 32 -> int64_t z = z /\ uint64_t z = z.
Proof.
  intros H. unfold int64_t, uint64_t. rewrite !Z.mod_small by lia. lia.
Qed.

(** X15: the shape [get_shape] announces is the shape of the frames
    [get_frame] delivers. When the grabber's width, height and pixel format
    are those of the frame taken, and width, height and their product are
    below 2^32, the shape in [*info] equals the one [get_shape] writes:
    one channel, one plane, rows of [width] elements one after another. *)
Theorem get_frame_shape_matches_get_shape (nbytes : Z) (c : EGCamera) (out : frame_out)
    (s : ImageShape) (b : buffer_info) (g : Grabber) (base : list Z) :
  pop (grabber_ c) = Some (b, g) ->
  buf_size b <= nbytes ->
  buf_base b = Some base ->
  getWidth (grabber_ c) = Some (buf_width b) ->
  getHeight (grabber_ c) = Some (buf_height b) ->
  getString (grabber_ c) (feature "PixelFormat") = Some (buf_pixelFormat b) ->
  0 <= buf_width b < 2 ^ 32 -> 0 <= buf_height b < 2 ^ 32 ->
  buf_width b * buf_height b < 2 ^ 32 ->
  result (get_shape c s) = Ok tt
  /\ info_shape (info (arg' (get_frame nbytes c out))) = arg' (get_shape c s)
  /\ arg' (get_shape c s)
     = mkImageShape (mkDims 1 (buf_width b) (buf_height b) 1)
         (mkDims 1 1 (buf_width b) (buf_width b * buf_height b))
         (at_or px_type_table_ (buf_pixelFormat b) SampleType_Unknown).
Proof.
  intros Hpop Hle Hbase Hw Hh Hpf Bw Bh Bwh.
  rewrite (get_shape_run c s _ _ _ Hw Hh Hpf), get_frame_run, Hpop, Hbase.
  apply Z.leb_le in Hle. rewrite Hle. cbn [result arg' info info_shape].
  assert (Hp : 0 <= buf_width b * buf_height b < 2 ^ 32) by nia.
  rewrite !(small_uint32 (buf_width b)), !(small_uint32 (buf_height b)) by assumption.
  rewrite (small_uint32 _ Hp).
  destruct (small_int64 _ Bw) as [-> _]. destruct (small_int64 _ Hp) as [_ ->].
  destruct (small_int64 _ Hp) as [-> _]. auto.
Qed.

Lemma stop_run {X} (c : EGCamera) (x : X) :
  let r := stop c x in
  arg' r = x
  /\ (exists g, self' r = with_grabber g c)
  /\ calls r `prefix_of` stop_calls
  /\ calls r <> []
  /\ (result r = Ok tt -> calls r = stop_calls)
  /\ (forall e, result r = Throw e -> e = sdk_exception).
Proof.
  unfold stop, stop_calls. walk; cbn [result self' arg' calls];
    (split; [reflexivity|]);
    (split; [first [exists (grabber_ c); apply with_grabber_id|eexists; reflexivity]|]);
    (split; [try (eexists; reflexivity); apply prefix_cons, prefix_nil|]);
    (split; [discriminate|]); (split; [try discriminate; reflexivity|]);
    intros e; try discriminate; congruence.
Qed.

Lemma start_run {X} (c : EGCamera) (x : X) :
  let r := start c x in
  arg' r = x
  /\ (exists g, self' r = mkEGCamera g (cached c) (caps c) 0)
  /\ calls r `prefix_of` start_calls
  /\ (result r = Ok tt -> calls r = start_calls)
  /\ (forall e, result r = Throw e -> e = sdk_exception).
Proof.
  unfold start, start_calls. walk; cbn [result self' arg' calls];
    (split; [reflexivity|]); (split; [eexists; reflexivity|]);
    (split; [try (eexists; reflexivity); apply prefix_cons, prefix_nil|]);
    (split; [try discriminate; reflexivity|]);
    intros e; try discriminate; congruence.
Qed.

(** X16: [stop] asks the grabber to stop, switches TriggerMode off and
    cancels the pending wait, in this order and stopping at the first call
    the SDK rejects; only the SDK's exception can come out of it. It changes
    nothing of the object but the grabber: the cached trigger still says
    what it said, so handing the cached settings to [set] after a [stop]
    writes no trigger feature and does not switch the trigger back on. *)
Theorem stop_leaves_cache {X} (c : EGCamera) (x : X) :
  let r := stop c x in
  calls r `prefix_of` stop_calls
  /\ calls r <> []
  /\ (result r = Ok tt -> calls r = stop_calls)
  /\ (forall e, result r = Throw e -> e = sdk_exception)
  /\ arg' r = x
  /\ cached (self' r) = cached c /\ caps (self' r) = caps c
  /\ frame_id_ (self' r) = frame_id_ c
  /\ calls_on (features P_frame_start) (calls (set (self' r) (cached c))) = [].
Proof.
  intros r. subst r. destruct (stop_run c x) as (Ha & [g Hs] & Hp & Hn & Ho & Ht).
  repeat (split; [assumption|]). rewrite Hs.
  repeat (split; [reflexivity|]).
  apply prefix_of_nil.
  pose proof (set_calls_on P_frame_start (with_grabber g c) (cached c)) as H.
  unfold plan_of in H.
  change (cached (with_grabber g c)) with (cached c) in H.
  rewrite same_unchanged in H. exact H.
Qed.

Lemma starts_app (l1 l2 : list sdk_call) : starts (l1 ++ l2) = (starts l1 + starts l2)%nat.
Proof. unfold starts. rewrite List.filter_app, length_app. reflexivity. Qed.

Lemma starts_prefix (l1 l2 : list sdk_call) :
  l1 `prefix_of` l2 -> (starts l1 <= starts l2)%nat.
Proof. intros [k ->]. rewrite starts_app. lia. Qed.

(** X17: [eecam_start] tries [start] at most twice, with a [stop] after each
    failed attempt. With a camera it always leaves the frame counter at 0
    and the caches as they were, and it asks the grabber to start at most
    twice. It reports [Device_Ok] exactly when an attempt returned: the
    first, and nothing else is issued; or the second, made on the object as
    the [stop] after the first left it, and the calls are those of the
    failed attempt, of the [stop] and of a [start] that returns. When both
    attempts throw it reports [Device_Err], and the calls are those of the
    two attempts, each followed by those of a [stop]. With a null handle it
    reports [Device_Err] and issues nothing. *)
Theorem eecam_start_retries_once (c : EGCamera) :
  let r := eecam_start (Some c) in
  let a1 := start c tt in
  let s1 := stop (self' a1) tt in
  let a2 := start (self' s1) tt in
  let s2 := stop (self' a2) tt in
  (exists g, object r = Some (mkEGCamera g (cached c) (caps c) 0))
  /\ (starts (issued r) <= 2)%nat
  /\ (status r = Device_Ok <-> result a1 = Ok tt \/ result a2 = Ok tt)
  /\ (result a1 = Ok tt -> object r = Some (self' a1) /\ issued r = start_calls)
  /\ (result a1 <> Ok tt -> result a2 = Ok tt ->
      object r = Some (self' a2)
      /\ issued r = calls a1 ++ calls s1 ++ start_calls
      /\ calls a1 `prefix_of` start_calls
      /\ calls s1 `prefix_of` stop_calls /\ calls s1 <> [])
  /\ (result a1 <> Ok tt -> result a2 <> Ok tt ->
      object r = Some (self' s2)
      /\ issued r = calls a1 ++ calls s1 ++ calls a2 ++ calls s2
      /\ calls a1 `prefix_of` start_calls
      /\ calls s1 `prefix_of` stop_calls /\ calls s1 <> []
      /\ calls a2 `prefix_of` start_calls
      /\ calls s2 `prefix_of` stop_calls /\ calls s2 <> [])
  /\ eecam_start None = mkRet Device_Err None tt [].
Proof.
  intros r a1 s1 a2 s2. subst r a1 s1 a2 s2.
  unfold eecam_start, eecam_stop, try_. cbn [status object issued].
  destruct (start_run c tt) as (_ & [g1 S1] & P1 & O1 & _).
  destruct (stop_run (self' (start c tt)) tt) as (_ & [g2 S2] & P2 & N2 & _ & _).
  destruct (start_run (self' (stop (self' (start c tt)) tt)) tt)
    as (_ & [g3 S3] & P3 & O3 & _).
  destruct (stop_run (self' (start (self' (stop (self' (start c tt)) tt)) tt)) tt)
    as (_ & [g4 S4] & P4 & N4 & _ & _).
  assert (C3 : cached (self' (stop (self' (start c tt)) tt)) = cached c
               /\ caps (self' (stop (self' (start c tt)) tt)) = caps c).
  { rewrite S2, S1. split; reflexivity. }
  destruct C3 as [C3 M3].
  assert (G1 : exists g, self' (start c tt) = mkEGCamera g (cached c) (caps c) 0)
    by (exists g1; exact S1).
  assert (G3 : exists g, self' (start (self' (stop (self' (start c tt)) tt)) tt)
                         = mkEGCamera g (cached c) (caps c) 0).
  { exists g3. rewrite S3, C3, M3. reflexivity. }
  assert (G4 : exists g,
             self' (stop (self' (start (self' (stop (self' (start c tt)) tt)) tt)) tt)
             = mkEGCamera g (cached c) (caps c) 0).
  { exists g4. rewrite S4. destruct G3 as [g G3]. rewrite G3. reflexivity. }
  clear S1 S2 S3 S4 C3 M3.
  set (a1 := start c tt) in *.
  set (s1 := stop (self' a1) tt) in *.
  set (a2 := start (self' s1) tt) in *.
  set (s2 := stop (self' a2) tt) in *.
  pose proof (starts_prefix _ _ P1) as B1. pose proof (starts_prefix _ _ P2) as B2.
  pose proof (starts_prefix _ _ P3) as B3. pose proof (starts_prefix _ _ P4) as B4.
  change (starts start_calls) with 1%nat in B1, B3.
  change (starts stop_calls) with 0%nat in B2, B4.
  destruct (result a1) as [[]|e1] eqn:R1; cbn [status object issued].
  { rewrite (O1 eq_refl) in *.
    split; [destruct G1 as [g ->]; eauto|]. split; [cbn; lia|].
    split; [split; auto|]. split; [auto|].
    split; [intros H; destruct H; reflexivity|].
    split; [intros H; destruct H; reflexivity|reflexivity]. }
  destruct (result a2) as [[]|e2] eqn:R2; cbn [status object issued].
  { rewrite (O3 eq_refl) in *.
    split; [destruct G3 as [g ->]; eauto|].
    split; [rewrite !starts_app; change (starts start_calls) with 1%nat; lia|].
    split; [split; auto|]. split; [discriminate|].
    split; [intros _ _; repeat (split; [assumption || reflexivity|]); assumption|].
    split; [intros _ H; destruct H; reflexivity|reflexivity]. }
  split; [destruct G4 as [g ->]; eauto|].
  split; [rewrite !starts_app; lia|].
  split; [split; [discriminate|intros [H|H]; discriminate H]|]. split; [discriminate|].
  split; [discriminate|].
  split; [intros _ _; repeat (split; [assumption || reflexivity|]); assumption|reflexivity].
Qed.

Lemma get_shape_reads (c : EGCamera) (s : ImageShape) : self' (get_shape c s) = c.
Proof.
  assert (H : exists o f, fills get_shape c o f).
  { unfold get_shape.
    destruct (getWidth (grabber_ c)) as [w|] eqn:Ew.
    2:{ eexists _, _. eapply fills_read; [apply answers_read|]. rewrite Ew.
        split; reflexivity. }
    destruct (getHeight (grabber_ c)) as [h|] eqn:Eh.
    2:{ eexists _, _. eapply fills_read; [apply answers_read|]. rewrite Ew.
        eapply fills_read; [apply answers_read|]. rewrite Eh. split; reflexivity. }
    destruct (getString (grabber_ c) (feature "PixelFormat")) as [pf|] eqn:Ep.
    - eexists _, _. eapply fills_read; [apply answers_read|]. rewrite Ew.
      eapply fills_read; [apply answers_read|]. rewrite Eh. cbv zeta.
      eapply fills_read; [apply answers_read|]. cbv beta. rewrite Ep.
      apply fills_update_arg.
    - eexists _, _. eapply fills_read; [apply answers_read|]. rewrite Ew.
      eapply fills_read; [apply answers_read|]. rewrite Eh. cbv zeta.
      eapply fills_read; [apply answers_read|]. cbv beta. rewrite Ep.
      split; reflexivity. }
  destruct H as (o & f & H). rewrite H. reflexivity.
Qed.

Lemma run_op_frame (o : op) (c : EGCamera) :
  let c' := fst (run_op o c) in
  caps c' = caps c
  /\ match o with
     | op_set _ => frame_start (cached c') = frame_start (cached c)
     | op_get _ => True
     | _ => cached c' = cached c
     end.
Proof.
  destruct o as [p|p|m|s| | | |n out]; cbn [run_op fst].
  - destruct (set_stages c p) as (k & (g & s & -> & Hs & _) & _). auto.
  - destruct (get_run c p) as [_ Hr].
    destruct (result (get c p)) as [[]|e].
    + destruct Hr as (_ & _ & Hg). rewrite (Hg c p eq_refl). auto.
    + destruct Hr as [_ ->]. auto.
  - destruct (get_meta_fills (grabber_ c)) as (o & f & Hf & _).
    rewrite (Hf c eq_refl m). auto.
  - rewrite get_shape_reads. auto.
  - destruct (start_run c tt) as (_ & [g ->] & _). auto.
  - destruct (stop_run c tt) as (_ & [g ->] & _). auto.
  - unfold execute_trigger. rewrite grabber_call_eq.
    destruct (sdk_do _ _); auto.
  - rewrite get_frame_run.
    destruct (pop (grabber_ c)) as [[b g]|]; [|auto].
    destruct (buf_size b <=? n); [|auto].
    destruct (buf_base b); auto.
Qed.

(** X22: the caches over a camera's life. No operation changes the cached
    capabilities: whatever sequence of [set], [get], [get_meta],
    [get_shape], [start], [stop], [execute_trigger] and [get_frame] runs,
    they stay what the constructor read (so [set] keeps clamping against
    them). The cached settings change only in [set] and [get], and the
    cached trigger only in [get]. *)
Theorem caches_change_only_in_set_and_get (os : list op) (c : EGCamera) :
  caps (after_ops os c) = caps c
  /\ (Forall (fun o => match o with op_get _ => False | _ => True end) os ->
      frame_start (cached (after_ops os c)) = frame_start (cached c))
  /\ (Forall (fun o => match o with op_get _ | op_set _ => False | _ => True end) os ->
      cached (after_ops os c) = cached c).
Proof.
  revert c. induction os as [|o os IH]; intros c; [auto|].
  cbn [after_ops fold_left]. fold (after_ops os (fst (run_op o c))).
  destruct (IH (fst (run_op o c))) as (H1 & H2 & H3).
  destruct (run_op_frame o c) as [Hc Hs]. cbv zeta in Hc, Hs.
  split; [congruence|]. split.
  - intros HF. inversion HF as [|? ? Ho Hos]; subst.
    rewrite (H2 Hos). destruct o; try congruence; try exact Hs. destruct Ho.
  - intros HF. inversion HF as [|? ? Ho Hos]; subst.
    rewrite (H3 Hos). destruct o; try exact Hs; destruct Ho.
Qed.

(** X23: a request within the ranges is applied as it is. When [set]
    returns, for every property but the trigger whose requested value [clamp]
    does not find outside the capability range: if the value counted as
    changed, it is written unmodified (for binning marked not writable, not
    written) and the cache holds exactly the requested value; if it counted
    as unchanged, nothing is written and the cache keeps its value, which is
    the requested one except for an exposure within the 1e-9 of it. *)
Theorem set_applies_in_range_request (c : EGCamera) (p : CameraProperties) (P : property) :
  P <> P_frame_start ->
  outside P (caps c) p = false ->
  let r := set c p in
  result r = Ok tt ->
  if unchanged P p (cached c)
  then calls_on (features P) (calls r) = []
       /\ field P (cached (self' r)) = field P (cached c)
       /\ (P <> P_exposure_time_us -> field P (cached c) = field P p)
  else calls_on (features P) (calls r) = writes P (caps c) (field P p)
       /\ field P (cached (self' r)) = field P p.
Proof.
  intros HP Hin r Hok. subst r.
  destruct (set_refines c p) as (_ & _ & Hk & _).
  destruct (Hk Hok) as [Hcalls Hf]. rewrite Hcalls, calls_on_planned, (Hf P HP).
  unfold plan_of, reconcile. rewrite (clamped_in_range P (caps c) p Hin).
  destruct (unchanged P p (cached c)) eqn:Hu.
  - split; [reflexivity|]. split; [reflexivity|]. intros Hne.
    destruct P; try congruence; cbn [unchanged field] in *;
      try (apply Z.eqb_eq in Hu; congruence).
    apply bool_decide_eq_true in Hu. congruence.
  - split; [|reflexivity].
    assert (Hacc : acceptable P p = true).
    { destruct P; try reflexivity; [|congruence].
      destruct (set_stages c p) as (k & _ & (ks & _ & _ & Hr) & Hpx & _).
      rewrite Hok in Hr. subst k. specialize (Hpx ltac:(lia)).
      unfold accepts_px_type in Hpx. apply andb_prop in Hpx as [Hpx _]. exact Hpx. }
    rewrite Hacc. reflexivity.
Qed.

Lemma forced_reconcile (c : EGCamera) (p : CameraProperties) (P : property) :
  P <> P_frame_start -> reconcile P c (forced p) = reconcile P c p.
Proof. intros HP. destruct P; try congruence; reflexivity. Qed.

Lemma reconcile_again (c c1 : EGCamera) (p : CameraProperties) (P : property) :
  P <> P_frame_start ->
  caps c1 = caps c ->
  field P (cached c1) = reconcile P c p ->
  reconcile P c1 p = field P (cached c1).
Proof.
  intros HP Hm Hf. unfold reconcile at 1. rewrite Hm.
  destruct (unchanged P p (cached c1)) eqn:Hu1; [reflexivity|].
  rewrite Hf. unfold reconcile.
  destruct (unchanged P p (cached c)) eqn:Hu; [|reflexivity].
  exfalso. unfold reconcile in Hf. rewrite Hu in Hf.
  assert (E : unchanged P p (cached c1) = unchanged P p (cached c)).
  { clear Hu Hu1. destruct P; try (exfalso; apply HP; reflexivity);
      cbn [unchanged field] in *; injection Hf as Hf; rewrite Hf; reflexivity. }
  rewrite E, Hu in Hu1. discriminate.
Qed.

(** X24: [set] is idempotent on the cache. When [set] returns and is called
    again with the request as it left it, and returns again, the cached
    settings after the second call are those after the first: a value that
    was clamped is clamped to the same value again, the others count as
    unchanged. (The device may be written again: the clamped values, and
    the trigger.) *)
Theorem set_twice_same_cache (c : EGCamera) (p : CameraProperties) :
  let r1 := set c p in
  let r2 := set (self' r1) (arg' r1) in
  result r1 = Ok tt -> result r2 = Ok tt ->
  cached (self' r2) = cached (self' r1)
  /\ arg' r2 = arg' r1.
Proof.
  intros r1 r2 Hok1 Hok2. subst r1 r2.
  destruct (set_stages c p) as (k1 & Hk1).
  pose proof (stopped_fields k1 c p _ P_frame_start Hk1) as [_ Ht1].
  assert (Hf1 : forall P, P <> P_frame_start ->
                  field P (cached (self' (set c p))) = reconcile P c p).
  { intros P HP. destruct (stopped_fields k1 c p _ P Hk1) as [H _]. apply H; [exact HP|].
    destruct Hk1 as (_ & (ks & _ & _ & Hr) & _). rewrite Hok1 in Hr. subst k1.
    destruct P; cbn; lia. }
  assert (Hm : caps (self' (set c p)) = caps c).
  { destruct Hk1 as ((g & s & -> & _) & _). reflexivity. }
  assert (Hc1 : frame_start (cached (self' (set c p))) = frame_start (cached c)).
  { specialize (Ht1 (or_intror eq_refl)). cbn [field] in Ht1. congruence. }
  assert (Ha' : arg' (set c p)
                = if negb (unchanged P_frame_start p (cached c)) && acceptable P_frame_start p
                  then forced p else p).
  { destruct Hk1 as (_ & (ks & _ & _ & Hr) & _ & _ & ->). rewrite Hok1 in Hr. subst k1.
    reflexivity. }
  assert (Ha : arg' (set c p) = p \/ arg' (set c p) = forced p).
  { rewrite Ha'. destruct (_ && _); auto. }
  set (c1 := self' (set c p)) in *. set (p1 := arg' (set c p)) in *.
  destruct (set_stages c1 p1) as (k2 & Hk2).
  assert (Hk7 : k2 = 7%nat).
  { destruct Hk2 as (_ & (ks & _ & _ & Hr) & _). rewrite Hok2 in Hr. exact Hr. }
  split.
  - apply fields_ext. intros P.
    destruct (stopped_fields k2 c1 p1 _ P Hk2) as [H2 H3].
    destruct (decide (P = P_frame_start)) as [->|HP]; [apply H3; auto|].
    rewrite H2 by (try exact HP; subst k2; destruct P; cbn; lia).
    assert (E : reconcile P c1 p1 = reconcile P c1 p).
    { destruct Ha as [-> | ->]; [reflexivity|apply forced_reconcile, HP]. }
    rewrite E. apply (reconcile_again c c1 p P HP Hm (Hf1 P HP)).
  - destruct Hk2 as (_ & _ & _ & _ & ->). subst k2. cbn [Nat.leb andb].
    cbn [unchanged acceptable] in *. rewrite Hc1.
    destruct (negb (is_equal (frame_start p) (frame_start (cached c)))
              && trigger_valid (frame_start p)) eqn:E; rewrite Ha'.
    + match goal with |- (if ?b then _ else _) = _ => destruct b end; reflexivity.
    + rewrite E. reflexivity.
Qed.

(** *** The driver *)

Section DriverProperties.

Context `{DSDK : !EGrabberDiscovery}.

Lemma attempted_prefix (g : Grabber) (ks : list sdk_call) :
  attempted g ks `prefix_of` ks.
Proof.
  revert g. induction ks as [|k ks IH]; intros g; cbn [attempted].
  - apply prefix_nil.
  - apply prefix_cons. destruct (sdk_do g k); [apply IH|apply prefix_nil].
Qed.

Lemma attempted_accepted (g : Grabber) (ks : list sdk_call) :
  accepts g ks = true -> attempted g ks = ks.
Proof.
  revert g. induction ks as [|k ks IH]; intros g H; cbn [attempted accepts] in *;
    [reflexivity|].
  f_equal. destruct (sdk_do g k) as [g'|]; [apply IH; exact H|discriminate H].
Qed.

Lemma delete_run (c : EGCamera) :
  let r := EGCamera_delete c tt in
  result r = Ok tt /\ calls r = attempted (grabber_ c) delete_calls.
Proof.
  unfold EGCamera_delete, swallow, stop, delete_calls, stop_calls.
  cbn [result calls]. split; [reflexivity|].
  walk; cbn [calls app attempted];
    repeat match goal with
           | H : sdk_do _ _ = _ |- _ => rewrite H; clear H
           end;
    reflexivity.
Qed.

(** X18: closing a camera cannot fail on the device's account. With a driver
    and a camera, [eecam_close] reports [Device_Ok] whatever the SDK does.
    The destructor issues the calls of [stop] and then AcquisitionStop and
    TriggerMode Off, in this order and up to the first one the SDK rejects,
    no more and no fewer: all five when none is rejected, and the grabber's
    stop alone when that is rejected, so that the trigger is then not
    switched off. With a null driver or a null camera it reports
    [Device_Err] and issues nothing. *)
Theorem eecam_close_swallows_failures (d : EGDriver) (c : EGCamera) :
  let ks := calls (EGCamera_delete c tt) in
  eecam_close (Some d) (Some c) = (Device_Ok, ks)
  /\ result (EGCamera_delete c tt) = Ok tt
  /\ ks = attempted (grabber_ c) delete_calls
  /\ ks `prefix_of` delete_calls
  /\ ks <> []
  /\ (sdk_do (grabber_ c) grabber_stop = None -> ks = [grabber_stop])
  /\ (accepts (grabber_ c) delete_calls = true -> ks = delete_calls)
  /\ eecam_close (Some d) None = (Device_Err, [])
  /\ eecam_close None (Some c) = (Device_Err, []).
Proof.
  intros ks. subst ks. destruct (delete_run c) as (H1 & H2).
  split; [reflexivity|]. split; [exact H1|]. split; [exact H2|]. rewrite H2.
  split; [apply attempted_prefix|]. split; [discriminate|].
  split; [intros H; cbn [attempted delete_calls stop_calls app]; rewrite H; reflexivity|].
  split; [apply attempted_accepted|]. split; reflexivity.
Qed.

Lemma on_settings_get {X} (c : EGCamera) (x : X) :
  let r := get c (last_known_settings_ c) in
  on_settings get c x = mkRes (result r) (with_settings (arg' r) c) x [].
Proof.
  intros r. subst r. unfold on_settings.
  destruct (get_run c (last_known_settings_ c)) as [Hc Hr]. rewrite Hc.
  destruct (result (get c (last_known_settings_ c))) as [[]|e] eqn:R.
  - destruct Hr as (_ & _ & Hg). rewrite (Hg c _ eq_refl). reflexivity.
  - destruct Hr as [_ ->]. reflexivity.
Qed.

Lemma on_capabilities_get_meta {X} (c : EGCamera) (x : X) (o : outcome unit)
    (f : CameraPropertyMetadata -> CameraPropertyMetadata) :
  fills get_meta c o f ->
  on_capabilities get_meta c x
  = mkRes o (with_capabilities (f (last_known_capabilities_ c)) c) x [].
Proof. intros Hf. unfold on_capabilities. rewrite Hf. reflexivity. Qed.

Lemma body_run (g : Grabber) (indeterminate : CameraPropertyMetadata) :
  let r := EGCamera_body (mkEGCamera g zeroed_settings indeterminate 0) tt in
  match result r with
  | Ok _ =>
      calls r = init_calls
      /\ frame_id_ (self' r) = 0
      /\ (forall p0, get (self' r) p0
                     = mkRes (Ok tt) (self' r) (cached (self' r)) [])
      /\ (forall m0, get_meta (self' r) m0
                     = mkRes (Ok tt) (self' r) (caps (self' r)) [])
      /\ (forall indeterminate',
            EGCamera_body (mkEGCamera g zeroed_settings indeterminate' 0) tt = r)
  | Throw _ => True
  end.
Proof.
  unfold EGCamera_body. walk; try exact I.
  rewrite bind_after, on_settings_get. cbn [result self' arg' calls].
  match goal with |- context [get ?c ?p] =>
    destruct (get_run c p) as [_ Hr]; destruct (result (get c p)) as [[]|e] eqn:Rg;
    [|exact I]; set (s := arg' (get c p)) in *
  end.
  destruct Hr as (_ & _ & Hg). cbn [grabber_] in Hg.
  destruct (get_meta_fills g2) as (o & f & Hf & F).
  rewrite (on_capabilities_get_meta _ _ o f) by (apply Hf; reflexivity).
  cbn [after result self' arg' calls app].
  destruct o as [[]|e]; [|exact I].
  destruct F as (_ & P1 & w & Px & Py & Sx & Sy & mask & Hm).
  split; [reflexivity|]. split; [reflexivity|]. split; [|split].
  - intros p0. rewrite Hg by reflexivity. reflexivity.
  - intros m0. unfold fills in Hf. rewrite Hf by reflexivity.
    cbv [with_capabilities caps]. cbn [last_known_capabilities_]. rewrite !Hm. reflexivity.
  - intros ind'. do 3 (exec; settle; rewrite ?Heqo, ?Heqo0, ?Heqo1).
    rewrite bind_after, on_settings_get. cbn [result self' arg' calls last_known_settings_].
    rewrite Hg by reflexivity. cbn [result self' arg' calls].
    rewrite (on_capabilities_get_meta _ _ (Ok tt) f) by (apply Hf; reflexivity).
    cbn [after result self' arg' calls app with_settings with_capabilities
         last_known_capabilities_ last_known_settings_ grabber_ frame_id_].
    rewrite !Hm. reflexivity.
Qed.

(** X19: what [eecam_open] hands out. With a driver and a non-null [out]:
    on [Device_Err] the target of [out] is untouched; on [Device_Ok] it is a
    camera whose constructor issued exactly the grabber's stop,
    AcquisitionStop and TriggerMode Off, whose frame counter is 0, and whose
    two caches are what [get] and [get_meta] return on it right away; what
    the uninitialised capability member held makes no difference; and the
    device id was below 2^32 - 1. *)
Theorem eecam_open_establishes_caches (d : EGDriver) (device_id : Z)
    (slot : option EGCamera) (indeterminate : CameraPropertyMetadata) :
  let r := eecam_open (Some d) device_id (Some slot) indeterminate in
  match open_status r with
  | Device_Err => open_out r = Some slot
  | Device_Ok =>
      exists c,
        open_out r = Some (Some c)
        /\ open_issued r = init_calls
        /\ frame_id_ c = 0
        /\ (forall p0, get c p0 = mkRes (Ok tt) c (cached c) [])
        /\ (forall m0, get_meta c m0 = mkRes (Ok tt) c (caps c) [])
        /\ (forall indeterminate',
              eecam_open (Some d) device_id (Some slot) indeterminate' = r)
        /\ device_id < 2 ^ 32 - 1
  end.
Proof.
  intros r. subst r. unfold eecam_open, open.
  destruct (Z.ltb_spec device_id (2 ^ (8 * 4) - 1)) as [Hlt|Hge]; [|reflexivity].
  cbn [negb]. destruct (discover (gentl_ d)) as [disc|]; [|reflexivity].
  destruct (cameras disc (int_ device_id)) as [info|]; [|reflexivity].
  unfold EGCamera_new. destruct (EGrabber_new info) as [g|]; [|reflexivity].
  pose proof (body_run g indeterminate) as H. cbv zeta in H.
  destruct (result (EGCamera_body (mkEGCamera g zeroed_settings indeterminate 0) tt))
    as [[]|e] eqn:R; [|reflexivity].
  destruct H as (H1 & H2 & H3 & H4 & H5). cbn [open_status open_out open_issued].
  eexists. split; [reflexivity|]. repeat (split; [assumption|]).
  split; [|exact Hlt].
  intros ind'. rewrite (H5 ind'), R. reflexivity.
Qed.

Lemma int_negative (z : Z) : 2 ^ 31 <= z < 2 ^ 32 -> int_ z < 0.
Proof.
  intros H. unfold int_.
  replace (z + 2 ^ 31) with ((z - 2 ^ 31) + 1 * 2 ^ 32) by lia.
  rewrite Z.mod_add by lia. rewrite Z.mod_small by lia. lia.
Qed.

(** X20: [eecam_open] refuses, without touching the target of [out] and
    without any call on a grabber, a null driver, a null [out], a device id
    of 2^32 - 1 or more, and (the SDK having no camera of negative index) a
    device id from 2^31 on, which passes the driver's own check but reaches
    the SDK as a negative [int]. *)
Theorem eecam_open_rejects (self_ : option EGDriver) (device_id : Z)
    (out : option (option EGCamera)) (indeterminate : CameraPropertyMetadata) :
  self_ = None \/ out = None \/ 2 ^ 32 - 1 <= device_id
  \/ (2 ^ 31 <= device_id /\ forall disc i, i < 0 -> cameras disc i = None) ->
  eecam_open self_ device_id out indeterminate = mkOpened Device_Err out [].
Proof.
  intros H. unfold eecam_open, open.
  destruct self_ as [d|]; [|reflexivity].
  destruct out as [slot|]; [|reflexivity].
  destruct H as [H|[H|H]]; try discriminate.
  destruct (Z.ltb_spec device_id (2 ^ (8 * 4) - 1)) as [Hlt|Hge]; [|reflexivity].
  destruct H as [H|[H Hneg]]; [change (2 ^ (8 * 4)) with (2 ^ 32) in Hlt; lia|].
  cbn [negb]. destruct (discover (gentl_ d)) as [disc|]; [|reflexivity].
  rewrite Hneg; [reflexivity|].
  apply int_negative. change (2 ^ (8 * 4)) with (2 ^ 32) in Hlt. lia.
Qed.

Lemma substring_length (n : nat) (s : string) :
  (String.length (String.substring 0 n s) <= n)%nat.
Proof.
  revert s. induction n as [|n IH]; intros [|a s]; cbn; try lia.
  specialize (IH s). lia.
Qed.

Lemma substring_prefix (n : nat) (s : string) :
  String.prefix (String.substring 0 n s) s = true.
Proof.
  revert s. induction n as [|n IH]; intros [|a s]; cbn; try reflexivity.
  destruct (Ascii.ascii_dec a a) as [_|H]; [apply IH|congruence].
Qed.

Lemma substring_all (n : nat) (s : string) :
  (String.length s <= n)%nat -> String.substring 0 n s = s.
Proof.
  revert s. induction n as [|n IH]; intros [|a s]; cbn; intros H; try reflexivity; try lia.
  rewrite IH by lia. reflexivity.
Qed.

Lemma int_small (z : Z) : 0 <= z < 2 ^ 8 -> int_ z = z /\ uint8_t z = z.
Proof.
  intros H. unfold int_, uint8_t. rewrite !Z.mod_small by lia. lia.
Qed.

(** X21: what [eecam_describe] writes. For an index of 256 or more it
    reports [Device_Err]; whenever it reports [Device_Err] the identifier is
    untouched. When it reports [Device_Ok], the index is below 256 and is
    the identifier's [device_id], the kind is a camera, and [name] is the
    text "vendor model serial" of the strings the camera at that index
    reports, cut to fit the array with its terminator: it is a prefix of
    that text, at most [sizeof_name - 1] long, and the whole text when that
    is short enough. *)
Theorem eecam_describe_identifies (sizeof_name : nat) (d : EGDriver)
    (identifier : DeviceIdentifier) (i : Z) :
  0 <= i ->
  let r := eecam_describe sizeof_name (Some d) identifier i in
  (256 <= i -> r = (Device_Err, identifier))
  /\ (fst r = Device_Err -> snd r = identifier)
  /\ (fst r = Device_Ok ->
      i < 256
      /\ device_id (snd r) = i
      /\ device_kind (snd r) = DeviceKind_Camera
      /\ exists disc info g vendor model sn,
           discover (gentl_ d) = Some disc /\ cameras disc i = Some info
           /\ EGrabber_new info = Some g
           /\ getString g (feature "DeviceVendorName") = Some vendor
           /\ getString g (feature "DeviceModelName") = Some model
           /\ getString g (feature "DeviceSerialNumber") = Some sn
           /\ let text := (c_str vendor +:+ " " +:+ c_str model +:+ " " +:+ c_str sn)%string in
              String.prefix (name (snd r)) text = true
              /\ (String.length (name (snd r)) <= sizeof_name - 1)%nat
              /\ ((String.length text < sizeof_name)%nat -> name (snd r) = text)).
Proof.
  intros Hi r. subst r. unfold eecam_describe, describe.
  destruct (discover (gentl_ d)) as [disc|];
    [|split; [reflexivity|split; [reflexivity|discriminate]]].
  destruct (Z.ltb_spec i (2 ^ 8)) as [Hlt|Hge];
    [|split; [reflexivity|split; [reflexivity|discriminate]]].
  cbn [negb]. destruct (int_small i (conj Hi Hlt)) as [-> Hu].
  change (2 ^ 8) with 256 in Hlt.
  destruct (cameras disc i) as [info|] eqn:Ec;
    [|split; [lia|split; [reflexivity|discriminate]]].
  destruct (EGrabber_new info) as [g|] eqn:Eg;
    [|split; [lia|split; [reflexivity|discriminate]]].
  destruct (getString g (feature "DeviceVendorName")) as [vendor|] eqn:Ev;
    [|split; [lia|split; [reflexivity|discriminate]]].
  destruct (getString g (feature "DeviceModelName")) as [model|] eqn:Em;
    [|split; [lia|split; [reflexivity|discriminate]]].
  destruct (getString g (feature "DeviceSerialNumber")) as [sn|] eqn:Es;
    [|split; [lia|split; [reflexivity|discriminate]]].
  cbn [fst snd device_id device_kind name].
  split; [lia|]. split; [discriminate|]. intros _.
  split; [exact Hlt|]. split; [exact Hu|]. split; [reflexivity|].
  exists disc, info, g, vendor, model, sn.
  repeat (split; [first [assumption|reflexivity]|]).
  cbv zeta. unfold snprintf.
  split; [apply substring_prefix|]. split; [apply substring_length|].
  intros Hl. apply substring_all. lia.
Qed.

End DriverProperties.

End Properties.

(** ** The properties at concrete inputs *)

#[local] Existing Instance Sim.representation.

(** A run of [set] that clamps: exposure 5 us up to 10, binning 9 down to 4
    (cached, not written), offset 100 down to 56, height 2 up to 8. *)
Example set_request_run :
  result (set Scenario.cam Scenario.request) = Ok tt
  /\ calls (set Scenario.cam Scenario.request)
     = [setFloat "ExposureTime" (f32.of_int 10); setString "PixelFormat" "Mono12";
        setInteger "OffsetX" 56; setInteger "OffsetY" 3; setInteger "Height" 8;
        reallocBuffers 16]
  /\ cached (self' (set Scenario.cam Scenario.request))
     = mkCameraProperties (f32.of_int 10) 4 SampleType_u12 (mkOffset 56 3) (mkShape 64 8)
         (mkTrigger 0 0 0 Signal_Input TriggerEdge_Rising).
Proof. vm_compute. repeat split. Qed.

(** After that run the cache says binning 4 while the device still reports
    binning 1. *)
Example cache_diverges_from_device :
  binning (cached (self' (set Scenario.cam Scenario.request))) = 4
  /\ getInteger (grabber_ (self' (set Scenario.cam Scenario.request)))
       (feature "BinningHorizontal") = Some 1.
Proof. vm_compute. split; reflexivity. Qed.



Lemma set_skips_unchanged_property_witness :
  unchanged P_shape_x Scenario.request (cached Scenario.cam) = true
  /\ calls_on (features P_shape_x) (calls (set Scenario.cam Scenario.request)) = []
  /\ unchanged P_frame_start Scenario.request (cached Scenario.cam) = true
  /\ calls_on (features P_frame_start) (calls (set Scenario.cam Scenario.request)) = [].
Proof.
  split; [vm_compute; reflexivity|]. split.
  - apply (set_skips_unchanged_property Scenario.cam Scenario.request P_shape_x).
    vm_compute; reflexivity.
  - split; [vm_compute; reflexivity|].
    apply (set_skips_unchanged_property Scenario.cam Scenario.request P_frame_start).
    vm_compute; reflexivity.
Defined.

(** C2, as stated, fails: the requested trigger has the four fields of the
    cached one and other bytes in its padding; [memcmp] tells the two
    objects apart and [set] writes the three trigger features. *)
Lemma set_rewrites_trigger_for_padding :
  enable (frame_start Scenario.padded) = enable (frame_start (cached Scenario.cam))
  /\ line (frame_start Scenario.padded) = line (frame_start (cached Scenario.cam))
  /\ kind (frame_start Scenario.padded) = kind (frame_start (cached Scenario.cam))
  /\ edge (frame_start Scenario.padded) = edge (frame_start (cached Scenario.cam))
  /\ is_equal (frame_start Scenario.padded) (frame_start (cached Scenario.cam)) = false
  /\ calls_on (features P_frame_start) (calls (set Scenario.cam Scenario.padded))
     = [setString "TriggerSource" "Line0"; setString "TriggerMode" "Off";
        setString "TriggerActivation" "RisingEdge"].
Proof. vm_compute. repeat split. Qed.

Lemma set_refuses_invalid_trigger_witness :
  frame_start Scenario.bad_trigger <> frame_start (cached Scenario.cam)
  /\ invalid_trigger (frame_start Scenario.bad_trigger)
  /\ frame_start (cached (self' (set Scenario.cam Scenario.bad_trigger)))
     = frame_start (cached Scenario.cam)
  /\ calls_on (features P_frame_start) (calls (set Scenario.cam Scenario.bad_trigger)) = [].
Proof.
  assert (H1 : frame_start Scenario.bad_trigger <> frame_start (cached Scenario.cam))
    by (vm_compute; discriminate).
  assert (H2 : invalid_trigger (frame_start Scenario.bad_trigger))
    by (left; vm_compute; split; discriminate).
  split; [exact H1|]. split; [exact H2|].
  destruct (set_refuses_invalid_trigger Scenario.cam Scenario.bad_trigger H1 H2)
    as (_ & Hc & Hk & _).
  split; [exact Hc|exact Hk].
Defined.

Lemma get_frame_capacity_guard_witness :
  pop (grabber_ Scenario.streaming)
  = Some (Scenario.frame 100,
          Sim.idle Sim.accept_all [Scenario.frame 200; Scenario.frame 300; Scenario.frame 400])
  /\ 7 < buf_size (Scenario.frame 100)
  /\ arg' (get_frame 7 Scenario.streaming Scenario.out) = Scenario.out
  /\ frame_id_ (self' (get_frame 7 Scenario.streaming Scenario.out)) = 0.
Proof.
  split; [reflexivity|]. split; [vm_compute; reflexivity|].
  assert (Hlt : 7 < buf_size (Scenario.frame 100)) by (vm_compute; reflexivity).
  destruct (get_frame_capacity_guard Scenario.streaming Scenario.out 7
              (Scenario.frame 100)
              (Sim.idle Sim.accept_all [Scenario.frame 200; Scenario.frame 300; Scenario.frame 400])
              eq_refl Hlt) as (_ & _ & Ha & Hf & _).
  split; [exact Ha|exact Hf].
Defined.

(** The session's events: the refused frame, the start, ids 0 and 1, the
    stop and the reconfiguration, id 2. *)
Example session_events :
  run Scenario.session Scenario.streaming
  = [ev_other; ev_start; ev_frame 0; ev_frame 1; ev_other; ev_other; ev_frame 2].
Proof. vm_compute. reflexivity. Qed.

Lemma frame_ids_count_from_start_witness :
  0 <= frame_id_ Scenario.streaming
  /\ frame_id_ Scenario.streaming + Z.of_nat (length Scenario.session) < 2 ^ 64
  /\ frame_ids_from (frame_id_ Scenario.streaming)
       (run Scenario.session Scenario.streaming).
Proof.
  split; [vm_compute; discriminate|]. split; [vm_compute; reflexivity|].
  apply (frame_ids_count_from_start Scenario.session Scenario.streaming);
    [vm_compute; discriminate | vm_compute; reflexivity].
Defined.

Lemma get_meta_pixel_type_mask_witness :
  getStringList (grabber_ Scenario.cam) (query_enumEntries "PixelFormat")
  = Some ["Mono8"; "Mono12"; "BayerRG8"]%string
  /\ Z.testbit (pixel_type_mask ["Mono8"; "Mono12"; "BayerRG8"]%string)
       (SampleType_value SampleType_Unknown)
     = existsb (fun v => negb (modelled v)) ["Mono8"; "Mono12"; "BayerRG8"]%string.
Proof.
  split; [reflexivity|].
  destruct (get_meta_pixel_type_mask Scenario.cam Scenario.blank_meta
              ["Mono8"; "Mono12"; "BayerRG8"]%string eq_refl)
    as (_ & _ & _ & _ & _ & Hbit).
  exact Hbit.
Defined.

(** C6, as stated, fails: the device reports Mono8, Mono12 and a format the
    adapter does not model; [get_meta] returns the mask 577, which has the
    bit of [SampleType_Unknown] on top of the 65 of the two modelled
    formats. *)
Lemma get_meta_counts_unknown_format :
  result (get_meta Scenario.cam Scenario.blank_meta) = Ok tt
  /\ supported_pixel_types (arg' (get_meta Scenario.cam Scenario.blank_meta)) = 577
  /\ pixel_type_mask (List.filter modelled ["Mono8"; "Mono12"; "BayerRG8"]%string) = 65
  /\ supported_pixel_types (arg' (get_meta Scenario.cam Scenario.blank_meta))
     <> pixel_type_mask (List.filter modelled ["Mono8"; "Mono12"; "BayerRG8"]%string).
Proof. vm_compute. repeat split. discriminate. Qed.

(** C7, as stated, fails: with a trigger on line 2 [set] throws at the
    trigger and issues no reallocation. *)
Lemma set_skips_reallocation_on_failure :
  result (set Scenario.cam Scenario.bad_trigger)
  = Throw (runtime_error expect_trigger_line_lt_2)
  /\ calls (set Scenario.cam Scenario.bad_trigger) = []
  /\ reallocates (calls (set Scenario.cam Scenario.bad_trigger)) = false.
Proof. vm_compute. repeat split. Qed.

Lemma set_reallocates_after_fields_witness :
  calls (set Scenario.cam Scenario.request)
  = fields_plan Scenario.cam Scenario.request ++ [reallocBuffers NBUFFERS].
Proof.
  destruct (set_reallocates_after_fields Scenario.cam Scenario.request)
    as (_ & Hok & _).
  apply Hok. vm_compute; reflexivity.
Defined.

Lemma set_caches_unwritable_binning_witness :
  binning Scenario.request <> binning (cached Scenario.cam)
  /\ writable (meta_binning (caps Scenario.cam)) = false
  /\ calls_on (features P_binning) (calls (set Scenario.cam Scenario.request)) = []
  /\ binning (cached (self' (set Scenario.cam Scenario.request))) = 4.
Proof.
  assert (H1 : binning Scenario.request <> binning (cached Scenario.cam))
    by (vm_compute; discriminate).
  split; [exact H1|]. split; [reflexivity|].
  destruct (set_caches_unwritable_binning Scenario.cam Scenario.request H1 eq_refl)
    as [Hc Hb].
  split; [exact Hc|]. apply Hb. vm_compute; reflexivity.
Defined.


Lemma eecam_device_count_swallows_failures_witness :
  device_count Scenario.broken_driver = Throw sdk_exception
  /\ eecam_device_count (Some Scenario.broken_driver) = 0
  /\ eecam_device_count (None : option (@EGDriver Sim.sdk)) = 0.
Proof.
  split; [reflexivity|]. split.
  - apply (eecam_device_count_swallows_failures (Some Scenario.broken_driver)).
    right. exists Scenario.broken_driver, sdk_exception. split; reflexivity.
  - apply (eecam_device_count_swallows_failures None). left. reflexivity.
Defined.

(** ** The further properties at concrete inputs *)

(** The offset moved on a device that rejects OffsetY: OffsetX is written,
    the device has it, the cache has not. *)
Example offset_x_written_not_cached :
  calls (set (Sim.camera SimDriver.rejects_offset_y []) SimDriver.moved)
  = [setInteger "OffsetX" 8; setInteger "OffsetY" 16]
  /\ result (set (Sim.camera SimDriver.rejects_offset_y []) SimDriver.moved)
     = Throw sdk_exception
  /\ offset (cached (self' (set (Sim.camera SimDriver.rejects_offset_y []) SimDriver.moved)))
     = mkOffset 0 0
  /\ getInteger (grabber_ (self' (set (Sim.camera SimDriver.rejects_offset_y [])
                                    SimDriver.moved)))
       (feature "OffsetX") = Some 8.
Proof. vm_compute. repeat split. Qed.

Lemma set_partial_failure_witness :
  exists k : nat,
    (result (set (Sim.camera SimDriver.rejects_offset_y []) SimDriver.moved) = Ok tt
     <-> k = 7%nat)
    /\ ((k <= stage P_offset_x)%nat ->
        field P_offset_x
          (cached (self' (set (Sim.camera SimDriver.rejects_offset_y []) SimDriver.moved)))
        = V_int 0).
Proof.
  destruct (set_partial_failure (Sim.camera SimDriver.rejects_offset_y []) SimDriver.moved)
    as (k & Hk & _ & Hf).
  exists k. split; [exact Hk|]. intros H.
  destruct (Hf P_offset_x) as (_ & _ & _ & Hc). rewrite Hc by (left; exact H).
  reflexivity.
Defined.

Lemma set_writes_within_range_witness :
  numeric P_offset_x = true
  /\ bounds_integral P_offset_x (caps Scenario.cam)
  /\ ordered (range P_offset_x (caps Scenario.cam))
  /\ In (setInteger "OffsetX" 56)
       (calls_on (features P_offset_x) (calls (set Scenario.cam Scenario.request)))
  /\ exists f, carried (setInteger "OffsetX" 56) = Some f
               /\ within (range P_offset_x (caps Scenario.cam)) f = true.
Proof.
  assert (H1 : bounds_integral P_offset_x (caps Scenario.cam))
    by (split; vm_compute; reflexivity).
  assert (H2 : ordered (range P_offset_x (caps Scenario.cam))) by (vm_compute; reflexivity).
  assert (H3 : In (setInteger "OffsetX" 56)
                 (calls_on (features P_offset_x) (calls (set Scenario.cam Scenario.request))))
    by (vm_compute; left; reflexivity).
  split; [reflexivity|]. split; [exact H1|]. split; [exact H2|]. split; [exact H3|].
  apply (set_writes_within_range Scenario.cam Scenario.request P_offset_x _ eq_refl H1 H2 H3).
Defined.

Lemma set_ignores_nan_exposure_witness :
  exposure_time_us SimDriver.nan_exposure = S754_nan
  /\ calls_on (features P_exposure_time_us) (calls (set Scenario.cam SimDriver.nan_exposure)) = []
  /\ exposure_time_us (cached (self' (set Scenario.cam SimDriver.nan_exposure)))
     = exposure_time_us (cached Scenario.cam).
Proof.
  split; [reflexivity|].
  destruct (set_ignores_nan_exposure Scenario.cam SimDriver.nan_exposure (or_introl eq_refl))
    as [H1 H2].
  split; [exact H1|]. apply H2. vm_compute; reflexivity.
Defined.

Lemma set_rejects_unsupported_pixel_type_witness :
  accepts_px_type (pixel_type SimDriver.as_f32) (pixel_type (cached Scenario.cam)) = false
  /\ calls_on (features P_offset_x) (calls (set Scenario.cam SimDriver.as_f32)) = []
  /\ reallocates (calls (set Scenario.cam SimDriver.as_f32)) = false.
Proof.
  split; [reflexivity|].
  destruct (set_rejects_unsupported_pixel_type Scenario.cam SimDriver.as_f32 eq_refl)
    as (_ & H & Hr).
  split; [|exact Hr]. apply (H P_offset_x). cbn. lia.
Defined.

(** The same run: [set] ends with the [std::out_of_range] of the table
    lookup, having written nothing. *)
Example set_as_f32_run :
  result (set Scenario.cam SimDriver.as_f32) = Throw out_of_range
  /\ calls (set Scenario.cam SimDriver.as_f32) = [].
Proof. vm_compute. split; reflexivity. Qed.

Lemma set_forces_only_kind_witness :
  result (set Scenario.cam SimDriver.software_trigger) = Ok tt
  /\ unchanged P_frame_start SimDriver.software_trigger (cached Scenario.cam) = false
  /\ arg' (set Scenario.cam SimDriver.software_trigger) = forced SimDriver.software_trigger
  /\ kind (frame_start (forced SimDriver.software_trigger)) = Signal_Input.
Proof.
  assert (H : result (set Scenario.cam SimDriver.software_trigger) = Ok tt)
    by (vm_compute; reflexivity).
  split; [exact H|]. split; [reflexivity|]. split; [|reflexivity].
  destruct (set_forces_only_kind Scenario.cam SimDriver.software_trigger)
    as (_ & _ & _ & _ & _ & Hok).
  exact (Hok H).
Defined.

Lemma set_never_caches_trigger_witness :
  result (set Scenario.cam SimDriver.software_trigger) = Ok tt
  /\ unchanged P_frame_start SimDriver.software_trigger (cached Scenario.cam) = false
  /\ with_kind Signal_Input (frame_start SimDriver.software_trigger)
     <> frame_start (cached Scenario.cam)
  /\ frame_start (cached (self' (set Scenario.cam SimDriver.software_trigger)))
     = frame_start (cached Scenario.cam)
  /\ calls_on (features P_frame_start) (calls (set Scenario.cam SimDriver.software_trigger))
     = [setString "TriggerSource" "Software"; setString "TriggerMode" "On";
        setString "TriggerActivation" "FallingEdge"]
  /\ calls_on (features P_frame_start)
       (calls (set (self' (set Scenario.cam SimDriver.software_trigger))
                 (arg' (set Scenario.cam SimDriver.software_trigger))))
     = [setString "TriggerSource" "Software"; setString "TriggerMode" "On";
        setString "TriggerActivation" "FallingEdge"].
Proof.
  assert (H : result (set Scenario.cam SimDriver.software_trigger) = Ok tt)
    by (vm_compute; reflexivity).
  assert (Hn : with_kind Signal_Input (frame_start SimDriver.software_trigger)
               <> frame_start (cached Scenario.cam)) by (vm_compute; discriminate).
  split; [exact H|]. split; [reflexivity|]. split; [exact Hn|].
  destruct (set_never_caches_trigger Scenario.cam SimDriver.software_trigger) as [Hc Hw].
  split; [exact Hc|].
  destruct (Hw H eq_refl) as [H1 H2]. split; [exact H1|].
  destruct (H2 Hn) as [_ H3]. apply H3. vm_compute; reflexivity.
Defined.

Lemma px_type_tables_inverse_witness :
  px_type_inv_table_ SampleType_u12 = Some "Mono12"%string
  /\ at_or px_type_table_ "Mono12" SampleType_Unknown = SampleType_u12
  /\ at_or px_type_table_ "Mono12" SampleType_Unknown <> SampleType_f32.
Proof.
  split; [reflexivity|].
  destruct (px_type_tables_inverse "Mono12" SampleType_u12) as (_ & H1 & _).
  destruct (px_type_tables_inverse "Mono12" SampleType_f32) as (_ & _ & H2).
  split; [apply H1; reflexivity|apply H2; [reflexivity|discriminate]].
Defined.

Lemma trigger_strings_round_trip_witness :
  trigger_valid (frame_start SimDriver.software_trigger) = true
  /\ at_or trig_edge_table_
       (index activations
          (Z.to_N (TriggerEdge_value (edge (frame_start SimDriver.software_trigger)))))
       TriggerEdge_Unknown
     = TriggerEdge_Falling.
Proof.
  split; [reflexivity|].
  destruct (trigger_strings_round_trip (frame_start SimDriver.software_trigger) eq_refl)
    as (_ & _ & H).
  exact H.
Defined.

Lemma get_refreshes_cache_witness :
  result (get Scenario.cam Scenario.request) = Ok tt
  /\ cached (self' (get Scenario.cam Scenario.request))
     = arg' (get Scenario.cam Scenario.request)
  /\ get Scenario.cam Scenario.bad_trigger = get Scenario.cam Scenario.request.
Proof.
  assert (H : result (get Scenario.cam Scenario.request) = Ok tt) by (vm_compute; reflexivity).
  split; [exact H|].
  destruct (get_refreshes_cache Scenario.cam Scenario.request) as (_ & _ & _ & _ & Hok & _).
  destruct (Hok H) as (H1 & _ & H2). split; [exact H1|apply H2].
Defined.

Lemma set_after_get_witness :
  result (get Scenario.cam Scenario.request) = Ok tt
  /\ pixel_type (arg' (get Scenario.cam Scenario.request)) <> SampleType_Unknown
  /\ calls (set (self' (get Scenario.cam Scenario.request))
              (arg' (get Scenario.cam Scenario.request)))
     = [reallocBuffers NBUFFERS].
Proof.
  assert (H : result (get Scenario.cam Scenario.request) = Ok tt) by (vm_compute; reflexivity).
  assert (Hp : pixel_type (arg' (get Scenario.cam Scenario.request)) <> SampleType_Unknown)
    by (vm_compute; discriminate).
  split; [exact H|]. split; [exact Hp|].
  destruct (set_after_get Scenario.cam Scenario.request H) as (_ & _ & H1 & _).
  exact (H1 Hp).
Defined.

Lemma get_meta_overwrites_struct_witness :
  result (get_meta Scenario.cam Scenario.blank_meta) = Ok tt
  /\ get_meta Scenario.cam Sim.capabilities0 = get_meta Scenario.cam Scenario.blank_meta
  /\ high (meta_binning (arg' (get_meta Scenario.cam Scenario.blank_meta))) = f32.of_int 4.
Proof.
  assert (H : result (get_meta Scenario.cam Scenario.blank_meta) = Ok tt)
    by (vm_compute; reflexivity).
  split; [exact H|].
  destruct (get_meta_overwrites_struct Scenario.cam Scenario.blank_meta) as (_ & _ & Hok & _).
  destruct (Hok H) as (H1 & _ & _ & _ & H2 & _). split; [apply H1|exact H2].
Defined.

Lemma get_meta_requires_microseconds_witness :
  getString (grabber_ SimDriver.in_milliseconds) (query_info "ExposureTime" "Unit")
  = Some "ms"%string
  /\ get_meta SimDriver.in_milliseconds Scenario.blank_meta
     = mkRes (Throw (runtime_error expect_exposure_unit_us)) SimDriver.in_milliseconds
         Scenario.blank_meta [].
Proof.
  split; [reflexivity|].
  destruct (get_meta_requires_microseconds SimDriver.in_milliseconds Scenario.blank_meta
              "ms" eq_refl) as [H _]; [discriminate|exact H].
Defined.

Lemma get_frame_fails_cleanly_witness :
  result (get_frame 8 Scenario.cam Scenario.out) = Throw sdk_exception
  /\ arg' (get_frame 8 Scenario.cam Scenario.out) = Scenario.out
  /\ frame_id_ (self' (get_frame 8 Scenario.cam Scenario.out)) = frame_id_ Scenario.cam.
Proof.
  assert (H : result (get_frame 8 Scenario.cam Scenario.out) = Throw sdk_exception)
    by reflexivity.
  split; [exact H|].
  destruct (get_frame_fails_cleanly 8 Scenario.cam Scenario.out sdk_exception H)
    as (H1 & H2 & _).
  split; [exact H1|exact H2].
Defined.

Lemma get_frame_delivers_witness :
  pop (grabber_ Scenario.streaming)
  = Some (Scenario.frame 100,
          Sim.idle Sim.accept_all [Scenario.frame 200; Scenario.frame 300; Scenario.frame 400])
  /\ buf_size (Scenario.frame 100) <= 8
  /\ result (get_frame 8 Scenario.streaming Scenario.out) = Ok tt
  /\ im (arg' (get_frame 8 Scenario.streaming Scenario.out)) !! 3%nat = Some 4
  /\ hardware_timestamp (info (arg' (get_frame 8 Scenario.streaming Scenario.out))) = 100.
Proof.
  assert (Hle : buf_size (Scenario.frame 100) <= 8) by (vm_compute; discriminate).
  split; [reflexivity|]. split; [exact Hle|].
  destruct (get_frame_delivers 8 Scenario.streaming Scenario.out (Scenario.frame 100)
              (Sim.idle Sim.accept_all
                 [Scenario.frame 200; Scenario.frame 300; Scenario.frame 400])
              [1; 2; 3; 4; 5; 6; 7; 8] eq_refl Hle eq_refl)
    as (H1 & _ & H2 & _ & H3 & _); [vm_compute; lia|vm_compute; lia|].
  split; [exact H1|]. split; [|exact H3].
  rewrite (H2 3%nat) by (vm_compute; lia). reflexivity.
Defined.

Lemma get_frame_shape_matches_get_shape_witness :
  info_shape (info (arg' (get_frame 8 (SimDriver.small [Scenario.frame 100]) Scenario.out)))
  = arg' (get_shape (SimDriver.small [Scenario.frame 100])
            (info_shape Scenario.no_info))
  /\ arg' (get_shape (SimDriver.small [Scenario.frame 100]) (info_shape Scenario.no_info))
     = mkImageShape (mkDims 1 4 2 1) (mkDims 1 1 4 8) SampleType_u8.
Proof.
  destruct (get_frame_shape_matches_get_shape 8 (SimDriver.small [Scenario.frame 100])
              Scenario.out (info_shape Scenario.no_info) (Scenario.frame 100)
              (Sim.perform (Sim.perform (Sim.idle Sim.accept_all []) (setInteger "Width" 4))
                 (setInteger "Height" 2))
              [1; 2; 3; 4; 5; 6; 7; 8])
    as (_ & H1 & H2);
    try reflexivity; try (vm_compute; split; [discriminate|reflexivity]);
    try (vm_compute; discriminate).
  split; [exact H1|exact H2].
Defined.

Lemma stop_leaves_cache_witness :
  result (stop Scenario.cam tt) = Ok tt
  /\ calls (stop Scenario.cam tt) = stop_calls
  /\ cached (self' (stop Scenario.cam tt)) = cached Scenario.cam.
Proof.
  assert (H : result (stop Scenario.cam tt) = Ok tt) by reflexivity.
  split; [exact H|].
  destruct (stop_leaves_cache Scenario.cam tt) as (_ & _ & H1 & _ & _ & H2 & _).
  split; [exact (H1 H)|exact H2].
Defined.

(** On a device that rejects the grabber's start, both attempts fail and
    each is followed by a stop. *)
Example eecam_start_gives_up :
  status (eecam_start (Some (Sim.camera SimDriver.rejects_start []))) = Device_Err
  /\ issued (eecam_start (Some (Sim.camera SimDriver.rejects_start [])))
     = start_calls ++ stop_calls ++ start_calls ++ stop_calls.
Proof. vm_compute. split; reflexivity. Qed.

Lemma eecam_start_retries_once_witness :
  result (start Unsettled.cam tt) <> Ok tt
  /\ result (start (self' (stop (self' (start Unsettled.cam tt)) tt)) tt) = Ok tt
  /\ status (eecam_start (Some Unsettled.cam)) = Device_Ok
  /\ issued (eecam_start (Some Unsettled.cam)) = start_calls ++ stop_calls ++ start_calls
  /\ object (eecam_start (Some Unsettled.cam))
     = Some (@mkEGCamera Unsettled.sdk true Sim.settings0 Sim.capabilities0 0).
Proof.
  assert (H1 : result (start Unsettled.cam tt) <> Ok tt) by (vm_compute; discriminate).
  assert (H2 : result (start (self' (stop (self' (start Unsettled.cam tt)) tt)) tt) = Ok tt)
    by reflexivity.
  destruct (eecam_start_retries_once Unsettled.cam) as (_ & _ & Hs & _ & Hr & _).
  split; [exact H1|]. split; [exact H2|]. split; [apply Hs; right; exact H2|].
  destruct (Hr H1 H2) as (Ho & Hi & _). rewrite Hi, Ho. split; reflexivity.
Defined.

Lemma caches_change_only_in_set_and_get_witness :
  caps (after_ops Scenario.session Scenario.streaming) = caps Scenario.streaming
  /\ frame_start (cached (after_ops Scenario.session Scenario.streaming))
     = frame_start (cached Scenario.streaming).
Proof.
  destruct (caches_change_only_in_set_and_get Scenario.session Scenario.streaming)
    as (H1 & H2 & _).
  split; [exact H1|]. apply H2. repeat constructor.
Defined.

Lemma set_applies_in_range_request_witness :
  outside P_offset_y (caps Scenario.cam) Scenario.request = false
  /\ result (set Scenario.cam Scenario.request) = Ok tt
  /\ calls_on (features P_offset_y) (calls (set Scenario.cam Scenario.request))
     = [setInteger "OffsetY" 3]
  /\ field P_offset_y (cached (self' (set Scenario.cam Scenario.request))) = V_int 3.
Proof.
  assert (H1 : outside P_offset_y (caps Scenario.cam) Scenario.request = false)
    by (vm_compute; reflexivity).
  assert (H2 : result (set Scenario.cam Scenario.request) = Ok tt)
    by (vm_compute; reflexivity).
  split; [exact H1|]. split; [exact H2|].
  assert (HP : P_offset_y <> P_frame_start) by discriminate.
  pose proof (set_applies_in_range_request Scenario.cam Scenario.request P_offset_y
                HP H1 H2) as H.
  assert (Hu : unchanged P_offset_y Scenario.request (cached Scenario.cam) = false)
    by (vm_compute; reflexivity).
  rewrite Hu in H. exact H.
Defined.

Lemma set_twice_same_cache_witness :
  result (set Scenario.cam Scenario.request) = Ok tt
  /\ result (set (self' (set Scenario.cam Scenario.request))
               (arg' (set Scenario.cam Scenario.request))) = Ok tt
  /\ cached (self' (set (self' (set Scenario.cam Scenario.request))
                      (arg' (set Scenario.cam Scenario.request))))
     = cached (self' (set Scenario.cam Scenario.request)).
Proof.
  assert (H1 : result (set Scenario.cam Scenario.request) = Ok tt)
    by (vm_compute; reflexivity).
  assert (H2 : result (set (self' (set Scenario.cam Scenario.request))
                         (arg' (set Scenario.cam Scenario.request))) = Ok tt)
    by (vm_compute; reflexivity).
  split; [exact H1|]. split; [exact H2|].
  destruct (set_twice_same_cache Scenario.cam Scenario.request H1 H2) as [H _]. exact H.
Defined.

(** The second call writes again what the first had to clamp: exposure,
    offset.x and height; binning, clamped too, is not writable. *)
Example set_twice_writes_again :
  calls (set (self' (set Scenario.cam Scenario.request))
           (arg' (set Scenario.cam Scenario.request)))
  = [setFloat "ExposureTime" (f32.of_int 10); setInteger "OffsetX" 56;
     setInteger "Height" 8; reallocBuffers 16].
Proof. vm_compute. reflexivity. Qed.

#[local] Existing Instance SimDriver.discovery.

Lemma eecam_close_swallows_failures_witness :
  sdk_do (grabber_ (Sim.camera SimDriver.rejects_stop [])) grabber_stop = None
  /\ eecam_close (Some SimDriver.driver) (Some (Sim.camera SimDriver.rejects_stop []))
     = (Device_Ok, [grabber_stop])
  /\ accepts (grabber_ Scenario.cam) delete_calls = true
  /\ eecam_close (Some SimDriver.driver) (Some Scenario.cam)
     = (Device_Ok,
        [grabber_stop; setString "TriggerMode" "Off"; cancelPop;
         execute "AcquisitionStop"; setString "TriggerMode" "Off"]).
Proof.
  split; [reflexivity|].
  destruct (eecam_close_swallows_failures SimDriver.driver
              (Sim.camera SimDriver.rejects_stop [])) as (H1 & _ & _ & _ & _ & H2 & _).
  split; [rewrite H1, (H2 eq_refl); reflexivity|]. split; [reflexivity|].
  destruct (eecam_close_swallows_failures SimDriver.driver Scenario.cam)
    as (H3 & _ & _ & _ & _ & _ & H4 & _).
  rewrite H3, H4; reflexivity.
Defined.

Lemma eecam_open_establishes_caches_witness :
  exists c,
    open_out (eecam_open (Some SimDriver.driver) 1 (Some None) Scenario.blank_meta)
    = Some (Some c)
    /\ open_issued (eecam_open (Some SimDriver.driver) 1 (Some None) Scenario.blank_meta)
       = init_calls
    /\ frame_id_ c = 0
    /\ get c Scenario.request = mkRes (Ok tt) c (cached c) [].
Proof.
  pose proof (eecam_open_establishes_caches SimDriver.driver 1 None Scenario.blank_meta) as H.
  cbv zeta in H.
  assert (E : open_status
                (eecam_open (Some SimDriver.driver) 1 (Some None) Scenario.blank_meta)
              = Device_Ok) by (vm_compute; reflexivity).
  rewrite E in H. destruct H as (c & H1 & H2 & H3 & H4 & _).
  exists c. split; [exact H1|]. split; [exact H2|]. split; [exact H3|apply H4].
Defined.

Lemma eecam_open_rejects_witness :
  2 ^ 31 <= 2 ^ 31 + 1
  /\ eecam_open (Some SimDriver.driver) (2 ^ 31 + 1) (Some None) Scenario.blank_meta
     = mkOpened Device_Err (Some None) [].
Proof.
  split; [lia|].
  apply (eecam_open_rejects (Some SimDriver.driver) (2 ^ 31 + 1) (Some None)
           Scenario.blank_meta).
  right. right. right. split; [lia|].
  intros disc i Hi. cbn. apply Z.ltb_lt in Hi. rewrite Hi. reflexivity.
Defined.

Lemma eecam_describe_identifies_witness :
  0 <= 1
  /\ eecam_describe 16 (Some SimDriver.driver) SimDriver.no_identifier 1
     = (Device_Ok, mkDeviceIdentifier 1 DeviceKind_Camera "Vieworks VP-151")
  /\ (String.length
        (name (snd (eecam_describe 16 (Some SimDriver.driver) SimDriver.no_identifier 1)))
      <= 16 - 1)%nat
  /\ eecam_describe 16 (Some SimDriver.driver) SimDriver.no_identifier 256
     = (Device_Err, SimDriver.no_identifier).
Proof.
  split; [lia|]. split; [vm_compute; reflexivity|].
  destruct (eecam_describe_identifies 16 SimDriver.driver SimDriver.no_identifier 1)
    as (_ & _ & H); [lia|].
  destruct (eecam_describe_identifies 16 SimDriver.driver SimDriver.no_identifier 256)
    as (H256 & _); [lia|].
  split; [|apply H256; lia].
  destruct (H eq_refl) as (_ & _ & _ & disc & info & g & v & m & s & _ & _ & _ & _ & _ & _ & Hn).
  cbv zeta in Hn. destruct Hn as (_ & Hl & _). exact Hl.
Defined.
